(** * Volunteer certificate portal: a shallow embedding

    The development follows the three source units of the repository:
    the transliteration helper and the certificate renderer
    ([utils/pdfUtils]), the message composer ([services/geminiService])
    and the submit handler of the form ([App]).

    JavaScript strings are sequences of UTF-16 code units; they are modelled
    as [list N].  Library and browser calls (jsPDF, fetch, the text
    generation client, the clock) are oracles collected in a record [Env]. *)

From Stdlib Require Import ZArith NArith QArith List String Ascii Bool Lia.
From stdpp Require Import base gmap.
From Equations Require Import Equations.
Import ListNotations.

Local Open Scope N_scope.

(** ** Strings *)

Abbreviation jsstring := (list N).

Module JsString.

(** Code units of a code point: one unit in the basic plane, a surrogate
    pair above it. *)
Definition units_of_codepoint (cp : N) : jsstring :=
  if cp <? 65536 then [cp]
  else [55296 + (cp - 65536) / 1024; 56320 + (cp - 65536) mod 1024].

(** Reads a literal of this file (UTF-8 bytes) as a JavaScript string.
    [acc] is the code point under construction and [need] the number of
    continuation bytes still expected. *)
Fixpoint decode (s : string) (acc : N) (need : nat) : jsstring :=
  match s with
  | EmptyString => []
  | String a s' =>
      let b := N_of_ascii a in
      match need with
      | O =>
          if b <? 128 then b :: decode s' 0 O
          else if b <? 224 then decode s' (b mod 32) 1%nat
          else if b <? 240 then decode s' (b mod 16) 2%nat
          else decode s' (b mod 8) 3%nat
      | S O => units_of_codepoint (acc * 64 + b mod 64) ++ decode s' 0 O
      | S n => decode s' (acc * 64 + b mod 64) n
      end
  end.

Definition js (s : string) : jsstring := decode s 0 O.

(** The single code unit of a one-character literal. *)
Definition chr (s : string) : N := hd 0 (js s).

(** Literals are kept as written when a goal is simplified. *)
Arguments js : simpl never.
Arguments chr : simpl never.

(** ECMAScript WhiteSpace and LineTerminator code units: the set removed
    by [String.prototype.trim] and matched by the regular expression
    class [\s]. *)
Definition isWhiteSpace (c : N) : bool :=
  ((9 <=? c) && (c <=? 13)) || (c =? 32) || (c =? 160) || (c =? 5760)
  || ((8192 <=? c) && (c <=? 8202)) || (c =? 8232) || (c =? 8233)
  || (c =? 8239) || (c =? 8287) || (c =? 12288) || (c =? 65279).

Fixpoint trimStart (s : jsstring) : jsstring :=
  match s with
  | [] => []
  | c :: s' => if isWhiteSpace c then trimStart s' else s
  end.

Definition trimEnd (s : jsstring) : jsstring := rev (trimStart (rev s)).

(** [s.trim()] *)
Definition trim (s : jsstring) : jsstring := trimEnd (trimStart s).

(** Truthiness of a string: non-empty. *)
Definition truthy (s : jsstring) : bool :=
  match s with [] => false | _ :: _ => true end.

(** [s.replace(/[class]/g, r)]: every code unit of the class is replaced. *)
Definition replaceEach (p : N -> bool) (r : jsstring) (s : jsstring) : jsstring :=
  flat_map (fun c => if p c then r else [c]) s.

(** [s.replace(/c/g, r)] for a pattern that is one literal code unit. *)
Definition replaceChar (c : N) (r : jsstring) (s : jsstring) : jsstring :=
  replaceEach (N.eqb c) r s.

(** [s.replace(/[class]+/g, r)]: every maximal run of the class is
    replaced once.  [inRun] tells that the previous unit belonged to a run
    already replaced. *)
Fixpoint replaceRunsFrom (p : N -> bool) (r : jsstring) (inRun : bool)
         (s : jsstring) : jsstring :=
  match s with
  | [] => []
  | c :: s' =>
      if p c
      then (if inRun then [] else r) ++ replaceRunsFrom p r true s'
      else c :: replaceRunsFrom p r false s'
  end.

Definition replaceRuns (p : N -> bool) (r : jsstring) (s : jsstring) : jsstring :=
  replaceRunsFrom p r false s.

(** The class [a-zA-Z0-9_]. *)
Definition isWordChar (c : N) : bool :=
  ((97 <=? c) && (c <=? 122)) || ((65 <=? c) && (c <=? 90))
  || ((48 <=? c) && (c <=? 57)) || (c =? 95).

End JsString.
Import JsString.

(** ** utils/pdfUtils: transliteration *)

(** [sanitizeText]: the chain of fourteen global replacements. *)
Definition sanitizeText (text : jsstring) : jsstring :=
  replaceChar (chr "Â") (js "A") (replaceChar (chr "â") (js "a")
  (replaceChar (chr "Ç") (js "C") (replaceChar (chr "ç") (js "c")
  (replaceChar (chr "Ö") (js "O") (replaceChar (chr "ö") (js "o")
  (replaceChar (chr "İ") (js "I") (replaceChar (chr "ı") (js "i")
  (replaceChar (chr "Ş") (js "S") (replaceChar (chr "ş") (js "s")
  (replaceChar (chr "Ü") (js "U") (replaceChar (chr "ü") (js "u")
  (replaceChar (chr "Ğ") (js "G") (replaceChar (chr "ğ") (js "g")
     text))))))))))))).

(** The letters the table of [sanitizeText] replaces: the diacritic letters
    of Turkish, with the circumflexed a. *)
Definition turkishDiacritics : jsstring := js "ğĞüÜşŞıİöÖçÇâÂ".

Definition isTurkishDiacritic (c : N) : bool :=
  existsb (N.eqb c) turkishDiacritics.

Definition hasTurkishDiacritic (s : jsstring) : bool :=
  existsb isTurkishDiacritic s.

(** ** Values shared by the three units *)

(** [types.ts] *)
Record UserStats := { us_count : Z; us_lastGenerated : jsstring }.

Record CertificateData := {
  cd_name : jsstring;
  cd_date : jsstring;
  cd_impactMessage : option jsstring (* read through [?? ''] by the renderer *)
}.

(** [CertificateExtras]: every field is optional. *)
Record CertificateExtras := {
  institution : option jsstring;
  departmentOrUnit : option jsstring;
  coordinatorTitle : option jsstring;
  coordinatorName : option jsstring;
  location : option jsstring;
  certificateNo : option jsstring
}.

Definition noExtras : CertificateExtras :=
  {| institution := None; departmentOrUnit := None; coordinatorTitle := None;
     coordinatorName := None; location := None; certificateNo := None |}.

(** [CertificateInput = CertificateData & CertificateExtras] *)
Record CertificateInput := { data : CertificateData; extras : CertificateExtras }.

(** ** The jsPDF document *)

Inductive FontStyle := normal | bold.
Inductive DrawStyle := styleF | styleS | styleFD.
Inductive Align := alignCenter.

Record TextOptions := { align : option Align; lineHeightFactor : option Q }.

Definition noOptions : TextOptions := {| align := None; lineHeightFactor := None |}.
Definition centered : TextOptions := {| align := Some alignCenter; lineHeightFactor := None |}.
Definition centeredLines (f : Q) : TextOptions :=
  {| align := Some alignCenter; lineHeightFactor := Some f |}.

(** The calls made on a jsPDF instance.  A text argument is a list of lines;
    a single string is the list of one line. *)
Inductive DocOp :=
| OpAddFileToVFS (fileName : jsstring) (base64 : jsstring)
| OpAddFont (fileName : jsstring) (family : jsstring) (style : FontStyle)
| OpSetFont (family : jsstring) (style : FontStyle)
| OpSetFontSize (size : Q)
| OpSetTextColor (r g b : N)
| OpSetDrawColor (r g b : N)
| OpSetFillColor (r g b : N)
| OpSetLineWidth (w : Q)
| OpRect (x y w h : Q) (style : option DrawStyle)
| OpCircle (x y r : Q) (style : DrawStyle)
| OpEllipse (x y rx ry : Q) (style : DrawStyle)
| OpLine (x1 y1 x2 y2 : Q)
| OpText (lines : list jsstring) (x y : Q) (options : TextOptions)
| OpSave (fileName : jsstring).

(** A jsPDF instance: the current font and size, and the calls received so
    far, oldest first. *)
Record DocState := {
  d_family : jsstring;
  d_style : FontStyle;
  d_fontSize : Q;
  d_ops : list DocOp
}.

(** [new jsPDF({orientation: 'landscape', unit: 'mm', format: 'a4'})] *)
Definition newDoc : DocState :=
  {| d_family := js "helvetica"; d_style := normal; d_fontSize := 16; d_ops := [] |}.

(** ** Errors, the browser and the oracles *)

Inductive JsError :=
| HttpError (status : N) (url : jsstring)   (* [new Error(`HTTP ${status} for ${url}`)] *)
| FetchFailed (url : jsstring)               (* rejected [fetch] or [arrayBuffer] *)
| AllMirrorsFailed                           (* [new Error('All font mirrors failed.')] *)
| DocError (op : DocOp)                      (* thrown by a jsPDF call *)
| GenAIError                                 (* rejected [generateContent] *)
| TypeError                                  (* reading a malformed response *)
| StorageError (key : jsstring)              (* DOMException of [localStorage]: blocked, quota *)
| SyntaxError (text : jsstring).             (* thrown by [JSON.parse] *)

Inductive Result (A : Type) :=
| Ok (a : A)
| Throw (e : JsError).
Arguments Ok {A} a.
Arguments Throw {A} e.

Inductive FetchOutcome :=
| FetchRejected
| FetchResponse (ok : bool) (status : N) (arrayBuffer : option (list N)).

(** What [ai.models.generateContent] resolves to: a response whose [text] is
    a string or absent, or a value on which reading [text] or calling [trim]
    throws. *)
Inductive GenAIResponse :=
| RespText (text : option jsstring)
| RespMalformed.

Inductive LogLevel := levelWarn | levelError.
Record LogEntry := { log_level : LogLevel; log_msg : jsstring; log_err : option JsError }.

Inductive NetCall :=
| NetFetch (url : jsstring)
| NetGenerate (apiKey : jsstring) (model : jsstring) (contents : jsstring).

(** Component state of [App]. *)
Record AppState := {
  name : jsstring;
  ip : option jsstring;
  count : Z;
  loading : bool;
  error : option jsstring;
  isSuccess : bool
}.

Inductive TimerAction := ClearSuccess.  (* [() => setIsSuccess(false)] *)

Record World := {
  w_app : AppState;
  w_doc : DocState;                             (* the jsPDF instance in use *)
  w_pastDocs : list DocState;                   (* the instances before it, newest first *)
  w_console : list LogEntry;                    (* oldest first *)
  w_network : list NetCall;                     (* oldest first *)
  w_localStorage : gmap jsstring jsstring;      (* the strings stored, by key *)
  w_timers : list (Z * TimerAction);            (* [setTimeout] registrations *)
  w_defaultPrevented : bool
}.

(** The environment: what the libraries and the browser answer. Numbers are
    rationals; the source computes on IEEE doubles. *)
Record Env := {
  (* jsPDF *)
  pageWidth : Q;
  pageHeight : Q;
  getTextWidth : jsstring -> FontStyle -> Q -> jsstring -> Q;
  splitTextToSize : jsstring -> FontStyle -> Q -> jsstring -> Q -> list jsstring;
  doc_throws : list DocOp -> DocOp -> bool;   (* by the calls before, and the call *)
  (* browser *)
  fetch : jsstring -> FetchOutcome;
  fetch_ip : option jsstring;                 (* [api.ipify.org], [None] on failure *)
  btoa : jsstring -> jsstring;
  toLocaleUpperCase_tr : jsstring -> jsstring;
  Math_sin : Q -> Q;
  Math_PI : Q;
  toLocaleDateString_tr : jsstring;           (* [new Date().toLocaleDateString('tr-TR')] *)
  toISOString : jsstring;                     (* [new Date().toISOString()] *)
  (* localStorage throws when the site data is blocked or the quota is
     reached; by the store, the key and the value written *)
  getItem_throws : gmap jsstring jsstring -> jsstring -> bool;
  setItem_throws : gmap jsstring jsstring -> jsstring -> jsstring -> bool;
  (* JSON: [JSON.parse] throws a SyntaxError where [JSON_parsed] is [None];
     a text that parses is read at the type [UserStats], as the annotation
     of the source says *)
  JSON_stringify : UserStats -> jsstring;
  JSON_parsed : jsstring -> option UserStats;
  (* text generation *)
  API_KEY : option jsstring;                  (* [process.env.API_KEY] *)
  generateContent : jsstring -> jsstring -> jsstring -> Q -> N -> Result GenAIResponse
}.

(** ** A state and exception monad over the world *)

Definition JS (A : Type) : Type := World -> Result A * World.

Definition ret {A} (a : A) : JS A := fun w => (Ok a, w).

Definition throw {A} (e : JsError) : JS A := fun w => (Throw e, w).

Definition bind {A B} (m : JS A) (k : A -> JS B) : JS B :=
  fun w =>
    match m w with
    | (Ok a, w') => k a w'
    | (Throw e, w') => (Throw e, w')
    end.

(** [try { m } catch (e) { h e }] *)
Definition try_catch {A} (m : JS A) (h : JsError -> JS A) : JS A :=
  fun w =>
    match m w with
    | (Ok a, w') => (Ok a, w')
    | (Throw e, w') => h e w'
    end.

(** [try { m } finally { f }], for a finaliser that ends normally. *)
Definition try_finally {A} (m : JS A) (f : JS unit) : JS A :=
  fun w =>
    match m w with
    | (r, w') =>
        match f w' with
        | (Ok _, w'') => (r, w'')
        | (Throw e, w'') => (Throw e, w'')
        end
    end.

(** The monad is used through stdpp's notations [x ← m; k] and [m ;; k]. *)
#[global] Instance JS_ret : MRet JS := @ret.
#[global] Instance JS_bind : MBind JS := fun A B k m => bind m k.

Definition get : JS World := fun w => (Ok w, w).
Definition modify (f : World -> World) : JS unit := fun w => (Ok tt, f w).

(** [for (const x of xs) body x] *)
Fixpoint forEach {A} (xs : list A) (body : A -> JS unit) : JS unit :=
  match xs with
  | [] => ret tt
  | x :: xs' => body x ;; forEach xs' body
  end.

(** Field updates of the world. *)
Definition set_app (f : AppState -> AppState) (w : World) : World :=
  {| w_app := f (w_app w); w_doc := w_doc w; w_pastDocs := w_pastDocs w;
     w_console := w_console w; w_network := w_network w; w_localStorage := w_localStorage w;
     w_timers := w_timers w; w_defaultPrevented := w_defaultPrevented w |}.

Definition set_doc (f : DocState -> DocState) (w : World) : World :=
  {| w_app := w_app w; w_doc := f (w_doc w); w_pastDocs := w_pastDocs w;
     w_console := w_console w; w_network := w_network w; w_localStorage := w_localStorage w;
     w_timers := w_timers w; w_defaultPrevented := w_defaultPrevented w |}.

Definition set_pastDocs (f : list DocState -> list DocState) (w : World) : World :=
  {| w_app := w_app w; w_doc := w_doc w; w_pastDocs := f (w_pastDocs w);
     w_console := w_console w; w_network := w_network w; w_localStorage := w_localStorage w;
     w_timers := w_timers w; w_defaultPrevented := w_defaultPrevented w |}.

Definition set_console (f : list LogEntry -> list LogEntry) (w : World) : World :=
  {| w_app := w_app w; w_doc := w_doc w; w_pastDocs := w_pastDocs w;
     w_console := f (w_console w); w_network := w_network w; w_localStorage := w_localStorage w;
     w_timers := w_timers w; w_defaultPrevented := w_defaultPrevented w |}.

Definition set_network (f : list NetCall -> list NetCall) (w : World) : World :=
  {| w_app := w_app w; w_doc := w_doc w; w_pastDocs := w_pastDocs w;
     w_console := w_console w; w_network := f (w_network w); w_localStorage := w_localStorage w;
     w_timers := w_timers w; w_defaultPrevented := w_defaultPrevented w |}.

Definition set_localStorage (f : gmap jsstring jsstring -> gmap jsstring jsstring) (w : World) : World :=
  {| w_app := w_app w; w_doc := w_doc w; w_pastDocs := w_pastDocs w;
     w_console := w_console w; w_network := w_network w; w_localStorage := f (w_localStorage w);
     w_timers := w_timers w; w_defaultPrevented := w_defaultPrevented w |}.

Definition set_timers (f : list (Z * TimerAction) -> list (Z * TimerAction)) (w : World) : World :=
  {| w_app := w_app w; w_doc := w_doc w; w_pastDocs := w_pastDocs w;
     w_console := w_console w; w_network := w_network w; w_localStorage := w_localStorage w;
     w_timers := f (w_timers w); w_defaultPrevented := w_defaultPrevented w |}.

Definition set_defaultPrevented (f : bool -> bool) (w : World) : World :=
  {| w_app := w_app w; w_doc := w_doc w; w_pastDocs := w_pastDocs w;
     w_console := w_console w; w_network := w_network w; w_localStorage := w_localStorage w;
     w_timers := w_timers w; w_defaultPrevented := f (w_defaultPrevented w) |}.

(** [console.warn(msg, e)] and [console.error(msg, e)] *)
Definition console_warn (msg : jsstring) (e : option JsError) : JS unit :=
  modify (set_console (fun l => l ++ [{| log_level := levelWarn; log_msg := msg; log_err := e |}])).

Definition console_error (msg : jsstring) (e : option JsError) : JS unit :=
  modify (set_console (fun l => l ++ [{| log_level := levelError; log_msg := msg; log_err := e |}])).

Definition recordOp (op : DocOp) (d : DocState) : DocState :=
  {| d_family := d_family d; d_style := d_style d; d_fontSize := d_fontSize d;
     d_ops := d_ops d ++ [op] |}.

Definition withFont (family : jsstring) (style : FontStyle) (d : DocState) : DocState :=
  {| d_family := family; d_style := style; d_fontSize := d_fontSize d; d_ops := d_ops d |}.

Definition withFontSize (size : Q) (d : DocState) : DocState :=
  {| d_family := d_family d; d_style := d_style d; d_fontSize := size; d_ops := d_ops d |}.

Section Library.

Variable env : Env.

(** [new jsPDF(...)]: a fresh instance comes into use. *)
Definition new_jsPDF : JS unit :=
  modify (fun w => set_doc (fun _ => newDoc) (set_pastDocs (cons (w_doc w)) w)).

(** A call on the document: it is received, and the library may throw. *)
Definition call (op : DocOp) : JS unit :=
  fun w =>
    let w' := set_doc (recordOp op) w in
    if doc_throws env (d_ops (w_doc w)) op
    then (Throw (DocError op), w')
    else (Ok tt, w').

Definition doc_setFont (family : jsstring) (style : FontStyle) : JS unit :=
  call (OpSetFont family style) ;; modify (set_doc (withFont family style)).

Definition doc_setFontSize (size : Q) : JS unit :=
  call (OpSetFontSize size) ;; modify (set_doc (withFontSize size)).

(** [doc.getTextWidth(text)]: measured in the current font and size. *)
Definition doc_getTextWidth (text : jsstring) : JS Q :=
  w ← get;
  let d := w_doc w in
  ret (getTextWidth env (d_family d) (d_style d) (d_fontSize d) text).

(** [doc.splitTextToSize(text, maxWidth)] *)
Definition doc_splitTextToSize (text : jsstring) (maxWidth : Q) : JS (list jsstring) :=
  w ← get;
  let d := w_doc w in
  ret (splitTextToSize env (d_family d) (d_style d) (d_fontSize d) text maxWidth).

Definition doc_pageWidth : JS Q := ret (pageWidth env).
Definition doc_pageHeight : JS Q := ret (pageHeight env).

End Library.

(** ** utils/pdfUtils: font loading *)

Section Fonts.

Variable env : Env.

Definition chunkSize : N := 32768.  (* 0x8000 *)

(** The loop of [arrayBufferToBase64]: [binary] grows by one chunk of bytes
    per round; [rounds] bounds the number of rounds by the number of bytes. *)
Fixpoint appendChunks (rounds : nat) (bytes : list N) (binary : jsstring) : jsstring :=
  match rounds, bytes with
  | S rounds', _ :: _ =>
      appendChunks rounds' (skipn (N.to_nat chunkSize) bytes)
                   (binary ++ firstn (N.to_nat chunkSize) bytes)
  | _, _ => binary
  end.

Definition arrayBufferToBase64 (buffer : list N) : jsstring :=
  btoa env (appendChunks (length buffer) buffer []).

(** [await fetch(url, { mode: 'cors', cache: 'force-cache' })] *)
Definition do_fetch (url : jsstring) : JS (bool * N * option (list N)) :=
  modify (set_network (fun l => l ++ [NetFetch url])) ;;
  match fetch env url with
  | FetchRejected => throw (FetchFailed url)
  | FetchResponse ok status body => mret (ok, status, body)
  end.

(** [fetchFirstAvailable]: the mirrors are tried in order; [lastErr] is the
    error of the last failed one. *)
Fixpoint fetchMirrors (urls : list jsstring) (lastErr : option JsError) : JS (list N) :=
  match urls with
  | [] => throw (default AllMirrorsFailed lastErr)
  | url :: rest =>
      r ← try_catch
            ('(ok, status, body) ← do_fetch url;
             if negb ok then throw (HttpError status url)
             else match body with
                  | Some buf => mret (inl buf)
                  | None => throw (FetchFailed url)
                  end)
            (fun e =>
               console_warn (js "Failed to fetch font from " ++ url) (Some e) ;;
               mret (inr e));
      match r with
      | inl buf => mret buf
      | inr e => fetchMirrors rest (Some e)
      end
  end.

Definition fetchFirstAvailable (urls : list jsstring) : JS (list N) :=
  fetchMirrors urls None.

(** [loadCustomFonts]: [true] when both weights were fetched and
    registered. *)
Definition loadCustomFonts : JS bool :=
  try_catch
    (regularBuf ← fetchFirstAvailable
       [ js "https://cdnjs.cloudflare.com/ajax/libs/pdfmake/0.1.66/fonts/Roboto/Roboto-Regular.ttf";
         js "https://fonts.gstatic.com/s/roboto/v30/KFOmCnqEu92Fr1Me5Q.ttf" ];
     boldBuf ← fetchFirstAvailable
       [ js "https://cdnjs.cloudflare.com/ajax/libs/pdfmake/0.1.66/fonts/Roboto/Roboto-Medium.ttf";
         js "https://fonts.gstatic.com/s/roboto/v30/KFOlCnqEu92Fr1MmWUlfBBc4.ttf" ];
     let regularB64 := arrayBufferToBase64 regularBuf in
     let boldB64 := arrayBufferToBase64 boldBuf in
     call env (OpAddFileToVFS (js "Roboto-Regular.ttf") regularB64) ;;
     call env (OpAddFont (js "Roboto-Regular.ttf") (js "Roboto") normal) ;;
     call env (OpAddFileToVFS (js "Roboto-Bold.ttf") boldB64) ;;
     call env (OpAddFont (js "Roboto-Bold.ttf") (js "Roboto") bold) ;;
     mret true)
    (fun e =>
       console_error
         (js "CRITICAL: Font loading failed. Turkish characters will be transliterated.")
         (Some e) ;;
       mret false).

End Fonts.

(** ** utils/pdfUtils: decorations *)

Section Decorations.

Variable env : Env.
Local Open Scope Q_scope.

Definition drawAtom (x y scale : Q) : JS unit :=
  call env (OpSetDrawColor 71 85 105) ;;
  call env (OpSetLineWidth (0.4 * scale)) ;;

  call env (OpSetFillColor 8 51 68) ;;
  call env (OpCircle x y (2.5 * scale) styleF) ;;

  call env (OpSetDrawColor 8 51 68) ;;
  call env (OpEllipse x y (9 * scale) (3 * scale) styleS) ;;
  call env (OpEllipse x y (3 * scale) (9 * scale) styleS) ;;
  call env (OpCircle x y (7 * scale) styleS) ;;

  call env (OpSetFillColor 6 182 212) ;;
  call env (OpCircle (x + 9 * scale) y (1 * scale) styleF) ;;
  call env (OpCircle x (y - 9 * scale) (1 * scale) styleF) ;;
  call env (OpCircle (x - 5 * scale) (y + 5 * scale) (1 * scale) styleF).

Definition drawDNAHelix (x y height scale : Q) : JS unit :=
  let width := 14 * scale in
  let steps := 12%nat in
  let stepHeight := height / inject_Z (Z.of_nat steps) in
  forEach (seq 0 steps) (fun i =>
    let i := inject_Z (Z.of_nat i) in
    let curY := y + i * stepHeight in
    let offset1 := Math_sin env (i * 0.9) * (width / 2) in
    let offset2 := Math_sin env (i * 0.9 + Math_PI env) * (width / 2) in

    let x1 := x + width / 2 + offset1 in
    let x2 := x + width / 2 + offset2 in

    call env (OpSetDrawColor 148 163 184) ;;
    call env (OpSetLineWidth (0.5 * scale)) ;;
    call env (OpLine x1 curY x2 curY) ;;

    call env (OpSetFillColor 8 51 68) ;;
    call env (OpCircle x1 curY (1.2 * scale) styleF) ;;
    call env (OpCircle x2 curY (1.2 * scale) styleF)).

Definition drawMicroscope (x y scale : Q) : JS unit :=
  call env (OpSetDrawColor 8 51 68) ;;
  call env (OpSetFillColor 8 51 68) ;;
  call env (OpSetLineWidth (0.6 * scale)) ;;

  call env (OpRect (x - 6 * scale) (y + 8 * scale) (12 * scale) (2 * scale) (Some styleF)) ;;
  call env (OpLine (x - 3 * scale) (y + 8 * scale) (x - 3 * scale) (y - 2 * scale)) ;;
  call env (OpLine (x - 3 * scale) (y - 2 * scale) (x + 2 * scale) (y - 5 * scale)) ;;

  call env (OpRect (x + 1 * scale) (y - 8 * scale) (2.5 * scale) (6 * scale) (Some styleS)) ;;
  call env (OpLine (x + 2 * scale) (y - 8 * scale) (x + 5 * scale) (y - 8 * scale)) ;;

  call env (OpSetLineWidth (1 * scale)) ;;
  call env (OpLine (x - 3 * scale) (y + 4 * scale) (x + 4 * scale) (y + 4 * scale)).

End Decorations.

(** ** utils/pdfUtils: the certificate *)

Section Certificate.

Variable env : Env.

(** The loop that shrinks the name: while the name is wider than
    [maxNameWidth] and the size is above 20, the size drops by 2.  It
    returns the final [nameFontSize]. *)
Equations? shrinkName (cleanName : jsstring) (maxNameWidth : Q) (nameFontSize : Z)
  : JS Z by wf (Z.to_nat (nameFontSize - 20)) lt :=
  shrinkName cleanName maxNameWidth nameFontSize :=
    width ← doc_getTextWidth env cleanName;
    if negb (Qle_bool width maxNameWidth)
    then match Z_lt_dec 20 nameFontSize with
         | left _ =>
             doc_setFontSize env (inject_Z (nameFontSize - 2)) ;;
             shrinkName cleanName maxNameWidth (nameFontSize - 2)
         | right _ => mret nameFontSize
         end
    else mret nameFontSize.
Proof. lia. Qed.

(** The file name under which the document is saved. *)
Definition safeFileName (name : jsstring) : jsstring :=
  replaceEach (fun c => negb (isWordChar c)) (js "_")
    (replaceRuns isWhiteSpace (js "_")
       (trim (sanitizeText name))).

Definition fileSuffix : jsstring := js "_GonulluKatilimSertifikasi.pdf".

Definition defaultImpact : jsstring :=
  js "Katkılarınız, araştırma sürecimizin niteliğini ve güvenilirliğini güçlendirmiştir.".

(** The two closures of [generateCertificatePDF] over [fontLoaded]: the
    text as it is when the fonts loaded, transliterated when they did not;
    and the typeface, Roboto or the built-in Times. *)
Definition t (fontLoaded : bool) (text : jsstring) : jsstring :=
  if fontLoaded then text else sanitizeText text.

Definition setFont (fontLoaded : bool) (style : FontStyle) : JS unit :=
  if fontLoaded
  then doc_setFont env (js "Roboto") style
  else doc_setFont env (js "times") style.

Local Open Scope Q_scope.

Definition generateCertificatePDF (input : CertificateInput) : JS unit :=
  new_jsPDF ;;

  fontLoaded ← loadCustomFonts env;

  let t := t fontLoaded in
  let setFont := setFont fontLoaded in

  setFont normal ;;

  pageWidth ← doc_pageWidth env;
  pageHeight ← doc_pageHeight env;
  let centerX := pageWidth / 2 in

  let institution := default (js "Tıpta Profesyonellik Bloğu") (institution (extras input)) in
  let unit := default (js "Bilimsel Araştırmalar ve Uygulamalar") (departmentOrUnit (extras input)) in
  let coordinatorTitle := default (js "Koordinatör") (coordinatorTitle (extras input)) in
  let coordinatorName := default [] (coordinatorName (extras input)) in
  let location := default [] (location (extras input)) in
  let certificateNo := default [] (certificateNo (extras input)) in

  (* Background *)
  call env (OpSetFillColor 255 255 255) ;;
  call env (OpRect 0 0 pageWidth pageHeight (Some styleF)) ;;

  (* Borders *)
  call env (OpSetDrawColor 8 51 68) ;;
  call env (OpSetLineWidth 2.5) ;;
  call env (OpRect 8 8 (pageWidth - 16) (pageHeight - 16) None) ;;

  call env (OpSetDrawColor 22 78 99) ;;
  call env (OpSetLineWidth 0.8) ;;
  call env (OpRect 12 12 (pageWidth - 24) (pageHeight - 24) None) ;;

  (* Decorations *)
  drawDNAHelix env 20 35 120 0.9 ;;
  drawDNAHelix env (pageWidth - 35) 35 120 0.9 ;;

  drawAtom env 22 22 1.3 ;;
  drawAtom env (pageWidth - 22) 22 1.3 ;;
  drawAtom env 22 (pageHeight - 22) 1.3 ;;
  drawAtom env (pageWidth - 22) (pageHeight - 22) 1.3 ;;

  (* Header emblem *)
  call env (OpSetDrawColor 22 78 99) ;;
  call env (OpSetFillColor 255 255 255) ;;
  call env (OpSetLineWidth 1) ;;
  call env (OpCircle centerX 36 12 styleFD) ;;
  drawMicroscope env centerX 36 0.9 ;;

  (* Institution lines *)
  doc_setFontSize env 12 ;;
  call env (OpSetTextColor 51 65 85) ;;
  setFont normal ;;
  call env (OpText [t institution] centerX 55 centered) ;;

  doc_setFontSize env 10.5 ;;
  call env (OpSetTextColor 100 116 139) ;;
  call env (OpText [t unit] centerX 61 centered) ;;

  (* Title *)
  setFont bold ;;
  doc_setFontSize env 32 ;;
  call env (OpSetTextColor 22 78 99) ;;
  call env (OpText [t (js "GÖNÜLLÜ KATILIM SERTİFİKASI")] centerX 78 centered) ;;

  (* Intro paragraph *)
  setFont normal ;;
  doc_setFontSize env 14 ;;
  call env (OpSetTextColor 51 65 85) ;;

  let introRaw := js "Bu sertifika, yürütülen bilimsel çalışmalara gönüllü katılımı ve sunduğu değerli katkılar nedeniyle aşağıda adı yazılı katılımcıya takdim edilmiştir." in
  let intro := t introRaw in
  introLines ← doc_splitTextToSize env intro (pageWidth - 90);
  call env (OpText introLines centerX 92 (centeredLines 1.45)) ;;

  (* Name (dynamic sizing) *)
  let rawName := toLocaleUpperCase_tr env (cd_name (data input)) in
  let cleanName := t rawName in

  setFont bold ;;
  call env (OpSetTextColor 15 23 42) ;;

  let nameFontSize := 40%Z in
  doc_setFontSize env (inject_Z nameFontSize) ;;

  let maxNameWidth := pageWidth - 90 in
  nameFontSize ← shrinkName cleanName maxNameWidth nameFontSize;

  let nameY := 122 in
  call env (OpText [cleanName] centerX nameY centered) ;;

  (* Underline *)
  call env (OpSetDrawColor 203 213 225) ;;
  call env (OpSetLineWidth 0.5) ;;
  call env (OpLine (centerX - 55) (nameY + 8) (centerX + 55) (nameY + 8)) ;;

  (* Optional impact message *)
  let impactRaw := trim (default [] (cd_impactMessage (data input))) in
  let impactTextBase :=
    if (0 <? length impactRaw)%nat then impactRaw else defaultImpact in

  let impactText := t impactTextBase in

  setFont normal ;;
  doc_setFontSize env 12.5 ;;
  call env (OpSetTextColor 71 85 105) ;;

  impactLines ← doc_splitTextToSize env impactText (pageWidth - 100);
  let impactY := 142 in
  call env (OpText impactLines centerX impactY (centeredLines 1.5)) ;;

  (* Closing line *)
  doc_setFontSize env 12.5 ;;
  call env (OpSetTextColor 51 65 85) ;;
  let closingRaw := js "Sayın katılımcımıza teşekkür eder, akademik ve mesleki yaşamında başarılarının devamını dileriz." in
  let closing := t closingRaw in

  let closingY := impactY + inject_Z (Z.of_nat (length impactLines)) * 7.2 + 8 in
  closingLines ← doc_splitTextToSize env closing (pageWidth - 90);
  call env (OpText closingLines centerX closingY (centeredLines 1.35)) ;;

  (* Footer *)
  let footerY := pageHeight - 28 in

  (* Left: location + date + certificate no *)
  setFont normal ;;
  doc_setFontSize env 10.5 ;;
  call env (OpSetTextColor 100 116 139) ;;

  let leftX := 30 in
  let dateLabel := t (js "Düzenlenme Tarihi") in
  let locPart := if truthy location then t location ++ js ", " else [] in
  call env (OpText [locPart ++ dateLabel ++ js ": " ++ cd_date (data input)]
                   leftX footerY noOptions) ;;

  (if truthy certificateNo
   then doc_setFontSize env 9.5 ;;
        call env (OpText [t (js "Belge No") ++ js ": " ++ certificateNo]
                         leftX (footerY + 6) noOptions)
   else mret tt) ;;

  (* Right: signature *)
  let sigX := pageWidth - 78 in
  call env (OpSetDrawColor 15 23 42) ;;
  call env (OpSetLineWidth 0.5) ;;
  call env (OpLine sigX (footerY - 6) (sigX + 48) (footerY - 6)) ;;

  setFont bold ;;
  doc_setFontSize env 10.5 ;;
  call env (OpSetTextColor 15 23 42) ;;
  call env (OpText [t coordinatorTitle] (sigX + 24) footerY centered) ;;

  (if truthy (trim coordinatorName)
   then setFont normal ;;
        doc_setFontSize env 9.5 ;;
        call env (OpSetTextColor 51 65 85) ;;
        call env (OpText [t coordinatorName] (sigX + 24) (footerY + 5.5) centered)
   else mret tt) ;;

  (* Save *)
  call env (OpSave (safeFileName (cd_name (data input)) ++ fileSuffix)).

End Certificate.

(** ** services/geminiService *)

Section MessageComposer.

Variable env : Env.

Definition fallbackMessage : jsstring :=
  js "Bilimsel araştırmalarımıza sunduğunuz değerli katkılar için teşekkür ederiz.".

Definition newline : jsstring := [10].
Definition quote : jsstring := [34].

(** The prompt: four lines of the template literal, the last three
    indented by six spaces. *)
Definition prompt (name : jsstring) : jsstring :=
  js "Gönüllü ismi: " ++ name
  ++ js ". Bu kişi bir bilimsel araştırmaya gönüllü olarak destek verdi. " ++ newline
  ++ js "      Lütfen bu kişiye araştırmaya katkılarından dolayı çok kısa (maksimum 15 kelime), " ++ newline
  ++ js "      profesyonel ve içten bir teşekkür mesajı yaz (Türkçe). " ++ newline
  ++ js "      Örneğin: " ++ quote
  ++ js "Katkılarınız, veri analizi sürecimize ışık tuttu ve bilimin ilerlemesine yardımcı oldu."
  ++ quote.

(** [process.env.API_KEY || ''] *)
Definition apiKey : jsstring :=
  match API_KEY env with
  | Some k => if truthy k then k else []
  | None => []
  end.

(** [await ai.models.generateContent({ model, contents, config })] on the
    client built with [apiKey]. *)
Definition models_generateContent (model contents : jsstring) (temperature : Q)
           (maxOutputTokens : N) : JS GenAIResponse :=
  modify (set_network (fun l => l ++ [NetGenerate apiKey model contents])) ;;
  match generateContent env apiKey model contents temperature maxOutputTokens with
  | Ok response => mret response
  | Throw e => throw e
  end.

(** [response.text?.trim()]: [None] stands for [undefined]. *)
Definition response_text_trim (response : GenAIResponse) : JS (option jsstring) :=
  match response with
  | RespText None => mret None
  | RespText (Some text) => mret (Some (trim text))
  | RespMalformed => throw TypeError
  end.

Definition generateImpactMessage (name : jsstring) : JS jsstring :=
  try_catch
    (response ← models_generateContent (js "gemini-3-flash-preview") (prompt name)
                   0.7%Q 100%N;
     trimmed ← response_text_trim response;
     match trimmed with
     | Some text => if truthy text then mret text else mret fallbackMessage
     | None => mret fallbackMessage
     end)
    (fun error =>
       console_error (js "Gemini Error:") (Some error) ;;
       mret fallbackMessage).

End MessageComposer.

(** ** App *)

Section App.

Variable env : Env.

Definition setName (v : jsstring) : JS unit :=
  modify (set_app (fun s =>
    {| name := v; ip := ip s; count := count s; loading := loading s;
       error := error s; isSuccess := isSuccess s |})).

Definition setIp (v : option jsstring) : JS unit :=
  modify (set_app (fun s =>
    {| name := name s; ip := v; count := count s; loading := loading s;
       error := error s; isSuccess := isSuccess s |})).

Definition setCount (v : Z) : JS unit :=
  modify (set_app (fun s =>
    {| name := name s; ip := ip s; count := v; loading := loading s;
       error := error s; isSuccess := isSuccess s |})).

Definition setLoading (v : bool) : JS unit :=
  modify (set_app (fun s =>
    {| name := name s; ip := ip s; count := count s; loading := v;
       error := error s; isSuccess := isSuccess s |})).

Definition setError (v : option jsstring) : JS unit :=
  modify (set_app (fun s =>
    {| name := name s; ip := ip s; count := count s; loading := loading s;
       error := v; isSuccess := isSuccess s |})).

Definition setIsSuccess (v : bool) : JS unit :=
  modify (set_app (fun s =>
    {| name := name s; ip := ip s; count := count s; loading := loading s;
       error := error s; isSuccess := v |})).

(** [localStorage.getItem(key)]: the string stored, [null] when there is
    none; [localStorage.setItem(key, value)].  Either may throw. *)
Definition localStorage_getItem (key : jsstring) : JS (option jsstring) :=
  w ← get;
  if getItem_throws env (w_localStorage w) key then throw (StorageError key)
  else mret (w_localStorage w !! key).

Definition localStorage_setItem (key value : jsstring) : JS unit :=
  w ← get;
  if setItem_throws env (w_localStorage w) key value then throw (StorageError key)
  else modify (set_localStorage (fun m => <[key := value]> m)).

(** [JSON.parse(text)] *)
Definition JSON_parse (text : jsstring) : JS UserStats :=
  match JSON_parsed env text with
  | Some stats => mret stats
  | None => throw (SyntaxError text)
  end.

Definition setTimeout (action : TimerAction) (delay : Z) : JS unit :=
  modify (set_timers (fun l => l ++ [(delay, action)])).

(** The effect run on mount. *)
Definition fetchIpAndCheckLimit : JS unit :=
  try_catch
    (modify (set_network (fun l => l ++ [NetFetch (js "https://api.ipify.org?format=json")])) ;;
     match fetch_ip env with
     | None => throw (FetchFailed (js "https://api.ipify.org?format=json"))
     | Some data_ip =>
         setIp (Some data_ip) ;;
         let storageKey := js "cert_stats_" ++ data_ip in
         stored ← localStorage_getItem storageKey;
         match stored with
         | Some text =>
             if truthy text
             then stats ← JSON_parse text;
                  setCount (us_count stats)
             else mret tt
         | None => mret tt
         end
     end)
    (fun err =>
       console_error (js "IP check failed") (Some err) ;;
       stored ← localStorage_getItem (js "cert_stats_generic");
       match stored with
       | Some text =>
           if truthy text
           then stats ← JSON_parse text;
                setCount (us_count stats)
           else mret tt
       | None => mret tt
       end).

Definition limitMessage : jsstring :=
  js "Üzgünüz, bu cihazdan maksimum 2 sertifika oluşturma limitine ulaştınız.".

Definition pdfErrorMessage : jsstring :=
  js "Sertifika PDF dosyası oluşturulurken bir hata oluştu. Lütfen internet bağlantınızı kontrol edip tekrar deneyin.".

(** The key of the stored record: [ip ? `cert_stats_${ip}` : 'cert_stats_generic'] *)
Definition storageKeyOf (ip : option jsstring) : jsstring :=
  match ip with
  | Some a => if truthy a then js "cert_stats_" ++ a else js "cert_stats_generic"
  | None => js "cert_stats_generic"
  end.

(** The submit handler.  [name], [count] and [ip] are the values of the
    render in which the handler was created. *)
Definition handleGenerate : JS unit :=
  w ← get;
  let name := name (w_app w) in
  let count := count (w_app w) in
  let ip := ip (w_app w) in
  modify (set_defaultPrevented (fun _ => true)) ;;
  if negb (truthy (trim name)) then mret tt
  else if (count >=? 2)%Z then setError (Some limitMessage)
  else
    setLoading true ;;
    setError None ;;

    try_finally
      (try_catch
         (impact ← generateImpactMessage env name;
          let date := toLocaleDateString_tr env in

          generateCertificatePDF env
            {| data := {| cd_name := name; cd_date := date;
                          cd_impactMessage := Some impact |};
               extras := noExtras |} ;;

          (* Update state and storage *)
          let newCount := (count + 1)%Z in
          setCount newCount ;;
          let storageKey := storageKeyOf ip in
          let stats := {| us_count := newCount; us_lastGenerated := toISOString env |} in
          localStorage_setItem storageKey (JSON_stringify env stats) ;;

          setIsSuccess true ;;
          setName [] ;;
          setTimeout ClearSuccess 5000)
         (fun err =>
            console_error [] (Some err) ;;
            setError (Some pdfErrorMessage)))
      (setLoading false).

(** What the component shows. *)
Definition limitReached (count : Z) : bool := (count >=? 2)%Z.

(** [Math.max(0, 2 - count)] *)
Definition remaining (count : Z) : Z := Z.max 0 (2 - count).

Inductive Panel := LimitPanel | FormPanel.

Record View := {
  v_remaining : Z;
  v_panel : Panel;
  v_error : option jsstring;
  v_success : bool;
  v_submitDisabled : bool
}.

Definition render (s : AppState) : View :=
  {| v_remaining := remaining (count s);
     v_panel := if limitReached (count s) then LimitPanel else FormPanel;
     v_error := error s;
     v_success := isSuccess s;
     v_submitDisabled := loading s || negb (truthy (trim (name s))) |}.

End App.

(** ** A concrete environment

    The browser is offline: the font mirrors and the text generation call
    are rejected, so the certificate is drawn in the built-in typeface with
    transliterated text.  Text is measured at a fifth of the font size per
    code unit and is never wrapped. *)

Module Offline.

Definition base64Digit (n : N) : N :=
  if n <? 26 then 65 + n
  else if n <? 52 then 97 + (n - 26)
  else if n <? 62 then 48 + (n - 52)
  else if n =? 62 then 43 else 47.

Fixpoint base64 (bytes : list N) : jsstring :=
  match bytes with
  | [] => []
  | [a] =>
      let n := a * 65536 in
      [base64Digit (n / 262144); base64Digit ((n / 4096) mod 64); 61; 61]
  | [a; b] =>
      let n := a * 65536 + b * 256 in
      [base64Digit (n / 262144); base64Digit ((n / 4096) mod 64);
       base64Digit ((n / 64) mod 64); 61]
  | a :: b :: c :: rest =>
      let n := a * 65536 + b * 256 + c in
      [base64Digit (n / 262144); base64Digit ((n / 4096) mod 64);
       base64Digit ((n / 64) mod 64); base64Digit (n mod 64)] ++ base64 rest
  end.

(** Upper case by the Turkish convention, on the letters of the Turkish
    alphabet and the Latin-1 letters: dotted and dotless i keep their dot. *)
Definition upperChar (c : N) : N :=
  if c =? chr "i" then chr "İ"
  else if c =? chr "ı" then chr "I"
  else if (97 <=? c) && (c <=? 122) then c - 32
  else if (224 <=? c) && (c <=? 254) && negb (c =? 247) then c - 32
  else if (c =? chr "ğ") || (c =? chr "ş") then c - 1
  else c.

(** [JSON.stringify] of a record of [UserStats]: the count in decimal and
    the date quoted as [QuoteJSONString] does. *)
Fixpoint digitsOf (d : Decimal.uint) : jsstring :=
  match d with
  | Decimal.Nil => []
  | Decimal.D0 d' => 48 :: digitsOf d'
  | Decimal.D1 d' => 49 :: digitsOf d'
  | Decimal.D2 d' => 50 :: digitsOf d'
  | Decimal.D3 d' => 51 :: digitsOf d'
  | Decimal.D4 d' => 52 :: digitsOf d'
  | Decimal.D5 d' => 53 :: digitsOf d'
  | Decimal.D6 d' => 54 :: digitsOf d'
  | Decimal.D7 d' => 55 :: digitsOf d'
  | Decimal.D8 d' => 56 :: digitsOf d'
  | Decimal.D9 d' => 57 :: digitsOf d'
  end.

Definition decimal (z : Z) : jsstring :=
  match z with
  | Z0 => [48]
  | Zpos p => digitsOf (Pos.to_uint p)
  | Zneg p => 45 :: digitsOf (Pos.to_uint p)
  end.

Definition hexDigit (n : N) : N := if n <? 10 then 48 + n else 87 + n.

(** [\uXXXX] *)
Definition unicodeEscape (c : N) : jsstring :=
  [92; 117; hexDigit (c / 4096); hexDigit ((c / 256) mod 16);
   hexDigit ((c / 16) mod 16); hexDigit (c mod 16)].

Definition isLeadSurrogate (c : N) : bool := (55296 <=? c) && (c <=? 56319).
Definition isTrailSurrogate (c : N) : bool := (56320 <=? c) && (c <=? 57343).

Fixpoint quoteUnits (s : jsstring) : jsstring :=
  match s with
  | [] => []
  | c :: rest =>
      if c =? 8 then [92; 98] ++ quoteUnits rest
      else if c =? 9 then [92; 116] ++ quoteUnits rest
      else if c =? 10 then [92; 110] ++ quoteUnits rest
      else if c =? 12 then [92; 102] ++ quoteUnits rest
      else if c =? 13 then [92; 114] ++ quoteUnits rest
      else if c =? 34 then [92; 34] ++ quoteUnits rest
      else if c =? 92 then [92; 92] ++ quoteUnits rest
      else if c <? 32 then unicodeEscape c ++ quoteUnits rest
      else if isLeadSurrogate c then
        match rest with
        | d :: rest' =>
            if isTrailSurrogate d then c :: d :: quoteUnits rest'
            else unicodeEscape c ++ quoteUnits rest
        | [] => unicodeEscape c
        end
      else if isTrailSurrogate c then unicodeEscape c ++ quoteUnits rest
      else c :: quoteUnits rest
  end.

(** The two fixed parts of the text of a record, with their quotes: the
    text is [open ++ count ++ middle ++ date ++ close]. *)
Definition recordOpen : jsstring := [123; 34] ++ js "count" ++ [34; 58].
Definition recordMiddle : jsstring := [44; 34] ++ js "lastGenerated" ++ [34; 58; 34].
Definition recordClose : jsstring := [34; 125].

Definition stringify (stats : UserStats) : jsstring :=
  recordOpen ++ decimal (us_count stats) ++ recordMiddle
  ++ quoteUnits (us_lastGenerated stats) ++ recordClose.

(** [JSON.parse] on the texts [stringify] writes; any other text counts as
    malformed. *)
Fixpoint stripPrefix (p s : jsstring) : option jsstring :=
  match p, s with
  | [], _ => Some s
  | a :: p', b :: s' => if a =? b then stripPrefix p' s' else None
  | _ :: _, [] => None
  end.

Definition isDigit (c : N) : bool := (48 <=? c) && (c <=? 57).

Fixpoint spanDigits (s : jsstring) : jsstring * jsstring :=
  match s with
  | c :: s' =>
      if isDigit c then let (ds, rest) := spanDigits s' in (c :: ds, rest) else ([], s)
  | [] => ([], [])
  end.

Definition natural (ds : jsstring) : option Z :=
  match ds with
  | [] => None
  | [d] => Some (Z.of_N (d - 48))
  | d :: _ :: _ =>
      if d =? 48 then None
      else Some (Z.of_N (fold_left (fun acc c => 10 * acc + (c - 48)) ds 0))
  end.

Definition number (s : jsstring) : option (Z * jsstring) :=
  let negative := match s with c :: _ => c =? 45 | [] => false end in
  let (ds, rest) := spanDigits (if negative then tl s else s) in
  z ← natural ds;
  if negative
  then (if (z =? 0)%Z then None else Some ((- z)%Z, rest))
  else Some (z, rest).

Definition hexValue (c : N) : option N :=
  if isDigit c then Some (c - 48)
  else if (97 <=? c) && (c <=? 102) then Some (c - 87)
  else if (65 <=? c) && (c <=? 70) then Some (c - 55)
  else None.

(** The characters of a quoted string up to its closing quote, and what
    follows the quote. *)
Fixpoint unquote (fuel : nat) (s : jsstring) : option (jsstring * jsstring) :=
  match fuel, s with
  | S fuel', c :: rest =>
      if c =? 34 then Some ([], rest)
      else if c <? 32 then None
      else if c =? 92 then
        match rest with
        | e :: rest' =>
            let simple (u : N) := '(str, after) ← unquote fuel' rest'; Some (u :: str, after) in
            if e =? 98 then simple 8
            else if e =? 116 then simple 9
            else if e =? 110 then simple 10
            else if e =? 102 then simple 12
            else if e =? 114 then simple 13
            else if (e =? 34) || (e =? 92) || (e =? 47) then simple e
            else if e =? 117 then
              match rest' with
              | a :: b :: c' :: d :: rest'' =>
                  x1 ← hexValue a; x2 ← hexValue b; x3 ← hexValue c'; x4 ← hexValue d;
                  '(str, after) ← unquote fuel' rest'';
                  Some ((4096 * x1 + 256 * x2 + 16 * x3 + x4) :: str, after)
              | _ => None
              end
            else None
        | [] => None
        end
      else '(str, after) ← unquote fuel' rest; Some (c :: str, after)
  | _, _ => None
  end.

Definition parsed (text : jsstring) : option UserStats :=
  s1 ← stripPrefix recordOpen text;
  '(z, s2) ← number s1;
  s3 ← stripPrefix recordMiddle s2;
  '(date, s4) ← unquote (length s3) s3;
  match s4 with
  | [125] => Some {| us_count := z; us_lastGenerated := date |}
  | _ => None
  end.

Definition env : Env :=
  {| pageWidth := 297;
     pageHeight := 210;
     getTextWidth := fun _ _ size text =>
       (size * inject_Z (Z.of_nat (length text)) * 0.2)%Q;
     splitTextToSize := fun _ _ _ text _ => [text];
     doc_throws := fun _ _ => false;
     fetch := fun _ => FetchRejected;
     fetch_ip := Some (js "203.0.113.7");
     btoa := base64;
     toLocaleUpperCase_tr := map upperChar;
     Math_sin := fun _ => 0%Q;   (* the helix is drawn flat *)
     Math_PI := (355 # 113)%Q;
     toLocaleDateString_tr := js "01.01.2025";
     toISOString := js "2025-01-01T09:00:00.000Z";
     getItem_throws := fun _ _ => false;
     setItem_throws := fun _ _ _ => false;
     JSON_stringify := stringify;
     JSON_parsed := parsed;
     API_KEY := None;
     generateContent := fun _ _ _ _ _ => Throw GenAIError |}.

(** As [env], with a jsPDF that throws on the calls [throws] selects. *)
Definition throwing (throws : list DocOp -> DocOp -> bool) : Env :=
  {| pageWidth := pageWidth env;
     pageHeight := pageHeight env;
     getTextWidth := getTextWidth env;
     splitTextToSize := splitTextToSize env;
     doc_throws := throws;
     fetch := fetch env;
     fetch_ip := fetch_ip env;
     btoa := btoa env;
     toLocaleUpperCase_tr := toLocaleUpperCase_tr env;
     Math_sin := Math_sin env;
     Math_PI := Math_PI env;
     toLocaleDateString_tr := toLocaleDateString_tr env;
     toISOString := toISOString env;
     getItem_throws := getItem_throws env;
     setItem_throws := setItem_throws env;
     JSON_stringify := JSON_stringify env;
     JSON_parsed := JSON_parsed env;
     API_KEY := API_KEY env;
     generateContent := generateContent env |}.

(** As [env], with a store that throws on the reads and the writes selected. *)
Definition storing (reads : gmap jsstring jsstring -> jsstring -> bool)
           (writes : gmap jsstring jsstring -> jsstring -> jsstring -> bool) : Env :=
  {| pageWidth := pageWidth env;
     pageHeight := pageHeight env;
     getTextWidth := getTextWidth env;
     splitTextToSize := splitTextToSize env;
     doc_throws := doc_throws env;
     fetch := fetch env;
     fetch_ip := fetch_ip env;
     btoa := btoa env;
     toLocaleUpperCase_tr := toLocaleUpperCase_tr env;
     Math_sin := Math_sin env;
     Math_PI := Math_PI env;
     toLocaleDateString_tr := toLocaleDateString_tr env;
     toISOString := toISOString env;
     getItem_throws := reads;
     setItem_throws := writes;
     JSON_stringify := JSON_stringify env;
     JSON_parsed := JSON_parsed env;
     API_KEY := API_KEY env;
     generateContent := generateContent env |}.

(** A store that is full, and one that the browser has blocked. *)
Definition envStoreFull : Env := storing (fun _ _ => false) (fun _ _ _ => true).

Definition envStoreBlocked : Env := storing (fun _ _ => true) (fun _ _ _ => true).

(** A document that cannot be saved, and one on which no text can be drawn. *)
Definition envNoSave : Env :=
  throwing (fun _ op => match op with OpSave _ => true | _ => false end).

Definition envNoText : Env :=
  throwing (fun _ op => match op with OpText _ _ _ _ => true | _ => false end).

Definition app : AppState :=
  {| name := []; ip := None; count := 0; loading := false; error := None;
     isSuccess := false |}.

(** The world when the page is opened; no document has been made yet. *)
Definition world : World :=
  {| w_app := app; w_doc := newDoc; w_pastDocs := []; w_console := [];
     w_network := []; w_localStorage := ∅; w_timers := [];
     w_defaultPrevented := false |}.

End Offline.

(** The offline world once the mount effect has run. *)
Definition mounted : World := (fetchIpAndCheckLimit Offline.env Offline.world).2.

(** The user types [n] into the form: [onChange] calls [setName]. *)
Definition typed (n : jsstring) (w : World) : World :=
  set_app (fun s =>
    {| name := n; ip := ip s; count := count s; loading := loading s;
       error := error s; isSuccess := isSuccess s |}) w.

(** Requests used in the examples. *)
Definition certificateFor (n d : jsstring) (impact : option jsstring) : CertificateInput :=
  {| data := {| cd_name := n; cd_date := d; cd_impactMessage := impact |};
     extras := noExtras |}.

Definition numbered (input : CertificateInput) (no : jsstring) : CertificateInput :=
  {| data := data input;
     extras := {| institution := None; departmentOrUnit := None;
                  coordinatorTitle := None; coordinatorName := None;
                  location := None; certificateNo := Some no |} |}.

Definition longName : jsstring := js "Abdurrahman Gazi Kahramanmaraşlıoğlu".

(** ** Observations on a run *)

(** The text arguments of the [doc.text] calls, and the names passed to
    [doc.save], in the order of the calls. *)
Definition textsOf (ops : list DocOp) : list (list jsstring) :=
  flat_map (fun op => match op with OpText l _ _ _ => [l] | _ => [] end) ops.

Definition savedFiles (ops : list DocOp) : list jsstring :=
  flat_map (fun op => match op with OpSave f => [f] | _ => [] end) ops.

(** The answer of [loadCustomFonts] in a render started in [w]. *)
Definition fontsLoaded (env : Env) (w : World) : bool :=
  match (new_jsPDF ;; loadCustomFonts env) w with
  | (Ok b, _) => b
  | (Throw _, _) => false
  end.

Definition typeface (fontLoaded : bool) : jsstring :=
  if fontLoaded then js "Roboto" else js "times".

(** The sizes the loop of [shrinkName] can leave: 40, 38, ..., 20. *)
Definition nameSizes : list Z := map (fun k => (40 - 2 * Z.of_nat k)%Z) (seq 0 11).

(** The name fits the content width at size [s]: the negation of the first
    test of the loop. *)
Definition nameFits (env : Env) (fontLoaded : bool) (cleanName : jsstring) (s : Z) : bool :=
  Qle_bool (getTextWidth env (typeface fontLoaded) bold (inject_Z s) cleanName)
           (pageWidth env - 90)%Q.

(** The first part of the [try] of [handleGenerate]: the message, then the
    certificate, run in the world the handler has prepared.  The counter
    and the store come after it. *)
Definition attempt (env : Env) (w : World) : Result unit * World :=
  (impact ← generateImpactMessage env (name (w_app w));
   generateCertificatePDF env
     {| data := {| cd_name := name (w_app w); cd_date := toLocaleDateString_tr env;
                   cd_impactMessage := Some impact |};
        extras := noExtras |})
    ((modify (set_defaultPrevented (fun _ => true)) ;; setLoading true ;; setError None) w).2.

(** The text a successful issuance writes to the store:
    [JSON.stringify({count: count + 1, lastGenerated: new Date().toISOString()})]. *)
Definition issuedRecord (env : Env) (w : World) : jsstring :=
  JSON_stringify env {| us_count := count (w_app w) + 1;
                        us_lastGenerated := toISOString env |}.

(** The world a blocked submission leaves. *)
Definition blockedWorld (w : World) : World :=
  (setError (Some limitMessage) (set_defaultPrevented (fun _ => true) w)).2.

(** One submission of the form with [n] typed in. *)
Definition submit (env : Env) (n : jsstring) (w : World) : World :=
  (handleGenerate env (typed n w)).2.

(** The file name as the specification words it: runs of whitespace become
    one underscore, and every character outside [A-Za-z0-9_] is stripped. *)
Definition strippedFileName (name : jsstring) : jsstring :=
  filter (fun c => isWordChar c) (replaceRuns isWhiteSpace (js "_") (sanitizeText name))
  ++ fileSuffix.

(** The file name in one pass over the trimmed, transliterated name: a run of
    whitespace gives one underscore, any other character outside the class
    gives an underscore of its own. *)
Fixpoint underscored (inRun : bool) (s : jsstring) : jsstring :=
  match s with
  | [] => []
  | c :: s' =>
      if isWhiteSpace c
      then (if inRun then [] else js "_") ++ underscored true s'
      else (if isWordChar c then [c] else js "_") ++ underscored false s'
  end.

(** ** A program logic for [JS] *)

(** [hoare I m Q E]: from a world in [I], [m] ends in [Q] or throws in [E]. *)
Definition hoare {A} (I : World -> Prop) (m : JS A)
           (Q : A -> World -> Prop) (E : JsError -> World -> Prop) : Prop :=
  forall w, I w ->
    match m w with
    | (Ok a, w') => Q a w'
    | (Throw e, w') => E e w'
    end.

(** [keeps I m]: [I] holds after [m], however it ends. *)
Definition keeps {A} (I : World -> Prop) (m : JS A) : Prop :=
  hoare I m (fun _ => I) (fun _ => I).

(** [wp_ok m Q w]: if [m] ends normally from [w], it ends in [Q]. *)
Definition wp_ok {A} (m : JS A) (Q : A -> World -> Prop) (w : World) : Prop :=
  match m w with
  | (Ok a, w') => Q a w'
  | (Throw _, _) => True
  end.

(** What a render may change: the document in use, which replaces the one of
    [w0], the console and the network log.  [P] constrains the calls the new
    document has received. *)
Definition rendering (P : list DocOp -> Prop) (w0 w : World) : Prop :=
  w_app w = w_app w0 /\
  w_localStorage w = w_localStorage w0 /\
  w_timers w = w_timers w0 /\
  w_defaultPrevented w = w_defaultPrevented w0 /\
  w_pastDocs w = w_doc w0 :: w_pastDocs w0 /\
  P (d_ops (w_doc w)).

(** The render is under way and nothing has been saved. *)
Definition quiet (w0 : World) : World -> Prop :=
  rendering (fun ops => savedFiles ops = []) w0.

(** The document in use has received the calls [base], and then others. *)
Definition extends (base : list DocOp) (w : World) : Prop :=
  exists l, d_ops (w_doc w) = base ++ l.

(** An invariant that survives the calls [harmless] selects, changes of the
    font state, and writes to the console and the network log. *)
Class Stable (harmless : DocOp -> bool) (I : World -> Prop) : Prop := {
  stable_op : forall op w, harmless op = true -> I w -> I (set_doc (recordOp op) w);
  stable_state : forall f w, (forall d, d_ops (f d) = d_ops d) -> I w -> I (set_doc f w);
  stable_console : forall f w, I w -> I (set_console f w);
  stable_network : forall f w, I w -> I (set_network f w)
}.

Definition notSave (op : DocOp) : bool :=
  match op with OpSave _ => false | _ => true end.

Definition anyOp (op : DocOp) : bool := true.

(** What one replacement, and what [sanitizeText], does to one code unit. *)
Definition substUnit (from to x : N) : N := if from =? x then to else x.

Definition sanitizeUnit (c : N) : N :=
  substUnit (chr "Â") (chr "A") (substUnit (chr "â") (chr "a")
  (substUnit (chr "Ç") (chr "C") (substUnit (chr "ç") (chr "c")
  (substUnit (chr "Ö") (chr "O") (substUnit (chr "ö") (chr "o")
  (substUnit (chr "İ") (chr "I") (substUnit (chr "ı") (chr "i")
  (substUnit (chr "Ş") (chr "S") (substUnit (chr "ş") (chr "s")
  (substUnit (chr "Ü") (chr "U") (substUnit (chr "ü") (chr "u")
  (substUnit (chr "Ğ") (chr "G") (substUnit (chr "ğ") (chr "g") c))))))))))))).

(** ** Observations on the fonts, the decorations and the session *)

(** What a mirror gives: its body when the response is ok and can be read. *)
Definition mirrorBody (env : Env) (url : jsstring) : option (list N) :=
  match fetch env url with
  | FetchResponse true _ (Some buf) => Some buf
  | _ => None
  end.

(** The error with which a mirror that gives no body fails. *)
Definition mirrorError (env : Env) (url : jsstring) : JsError :=
  match fetch env url with
  | FetchResponse false status _ => HttpError status url
  | _ => FetchFailed url
  end.

(** The warning logged for a failed mirror. *)
Definition mirrorWarning (env : Env) (url : jsstring) : LogEntry :=
  {| log_level := levelWarn; log_msg := js "Failed to fetch font from " ++ url;
     log_err := Some (mirrorError env url) |}.

(** Adds to the network log and the console. *)
Definition logged (net : list NetCall) (con : list LogEntry) (w : World) : World :=
  set_console (fun l => l ++ con) (set_network (fun l => l ++ net) w).

(** Calls that set a colour or a line width, or draw a shape. *)
Definition isShape (op : DocOp) : bool :=
  match op with
  | OpSetDrawColor _ _ _ | OpSetFillColor _ _ _ | OpSetLineWidth _
  | OpRect _ _ _ _ _ | OpCircle _ _ _ _ | OpEllipse _ _ _ _ _ | OpLine _ _ _ _ => true
  | _ => false
  end.

(** The document after the calls [l]. *)
Definition appendOps (l : list DocOp) (d : DocState) : DocState :=
  {| d_family := d_family d; d_style := d_style d; d_fontSize := d_fontSize d;
     d_ops := d_ops d ++ l |}.

(** [m] sends shape calls to the document and does nothing else: [n] of
    them when it ends normally, at most [n] when a call throws. *)
Definition shapes {A} (n : nat) (m : JS A) : Prop :=
  forall w, exists l,
    (m w).2 = set_doc (appendOps l) w
    /\ forallb isShape l = true
    /\ (length l <= n)%nat
    /\ (forall a, (m w).1 = Ok a -> length l = n).

(** The body [fetchFirstAvailable] returns for [urls]: that of the first
    mirror that gives one. *)
Fixpoint firstBody (env : Env) (urls : list jsstring) : option (list N) :=
  match urls with
  | [] => None
  | url :: rest =>
      match mirrorBody env url with
      | Some buf => Some buf
      | None => firstBody env rest
      end
  end.

(** The mirror lists of [loadCustomFonts]. *)
Definition regularMirrors : list jsstring :=
  [ js "https://cdnjs.cloudflare.com/ajax/libs/pdfmake/0.1.66/fonts/Roboto/Roboto-Regular.ttf";
    js "https://fonts.gstatic.com/s/roboto/v30/KFOmCnqEu92Fr1Me5Q.ttf" ].

Definition boldMirrors : list jsstring :=
  [ js "https://cdnjs.cloudflare.com/ajax/libs/pdfmake/0.1.66/fonts/Roboto/Roboto-Medium.ttf";
    js "https://fonts.gstatic.com/s/roboto/v30/KFOlCnqEu92Fr1MmWUlfBBc4.ttf" ].

(** The four calls that register the fonts. *)
Definition fontCalls (env : Env) (regularBuf boldBuf : list N) : list DocOp :=
  [ OpAddFileToVFS (js "Roboto-Regular.ttf") (arrayBufferToBase64 env regularBuf);
    OpAddFont (js "Roboto-Regular.ttf") (js "Roboto") normal;
    OpAddFileToVFS (js "Roboto-Bold.ttf") (arrayBufferToBase64 env boldBuf);
    OpAddFont (js "Roboto-Bold.ttf") (js "Roboto") bold ].

(** The console entry of the [catch] of [loadCustomFonts]. *)
Definition criticalEntry (e : JsError) : LogEntry :=
  {| log_level := levelError;
     log_msg := js "CRITICAL: Font loading failed. Turkish characters will be transliterated.";
     log_err := Some e |}.

(** The page is loaded again: the component state starts afresh, the
    browser keeps its store. *)
Definition reloaded (w : World) : World := set_app (fun _ => Offline.app) w.

(** A run of submissions, one name after the other. *)
Definition submitAll (env : Env) (names : list jsstring) (w : World) : World :=
  fold_left (fun w n => submit env n w) names w.

(** The address service, and the console entry when it cannot be reached. *)
Definition ipLookup : jsstring := js "https://api.ipify.org?format=json".

Definition ipCheckFailed (e : JsError) : LogEntry :=
  {| log_level := levelError; log_msg := js "IP check failed"; log_err := Some e |}.

(** What reading the count under [key] gives: the count of the record the
    key holds; nothing when the key holds no text or the empty text; or the
    error that [getItem] or [JSON.parse] throws. *)
Definition storedCount (env : Env) (store : gmap jsstring jsstring) (key : jsstring)
  : Result (option Z) :=
  if getItem_throws env store key then Throw (StorageError key)
  else match store !! key with
       | Some text =>
           if truthy text
           then match JSON_parsed env text with
                | Some stats => Ok (Some (us_count stats))
                | None => Throw (SyntaxError text)
                end
           else Ok None
       | None => Ok None
       end.

(** Every call the document has received passes the test [harmless]. *)
Definition allOps (harmless : DocOp -> bool) (w : World) : Prop :=
  forallb harmless (d_ops (w_doc w)) = true.

(** No line has a letter of the replacement table. *)
Definition cleanLines (lines : list jsstring) : bool :=
  forallb (fun line => negb (hasTurkishDiacritic line)) lines.

(** A call that draws no letter of the table. *)
Definition cleanOp (op : DocOp) : bool :=
  match op with
  | OpText lines _ _ _ => cleanLines lines
  | _ => true
  end.

(** [doc.splitTextToSize] invents no letter: the lines of a text without
    letters of the table have none either. *)
Definition wrapsFaithfully (env : Env) : Prop :=
  forall family style size text maxWidth,
    hasTurkishDiacritic text = false ->
    cleanLines (splitTextToSize env family style size text maxWidth) = true.

(** A [doc.setFont] call names the typeface of the render. *)
Definition fontOp (fontLoaded : bool) (op : DocOp) : bool :=
  match op with
  | OpSetFont family _ => bool_decide (family = typeface fontLoaded)
  | _ => true
  end.

(** ** Turkish letters, and the texts of a document *)

(** The letters of Turkish writing outside ASCII, by code point, taken from
    the language and not from the table of [sanitizeText]: the letters of
    the alphabet that carry a mark, capital and small (U+00C7 and U+00E7 c
    with cedilla, U+011E and U+011F g with breve, U+0130 dotted capital I
    and U+0131 dotless i, U+00D6 and U+00F6 o with diaeresis, U+015E and
    U+015F s with cedilla, U+00DC and U+00FC u with diaeresis) ... *)
Definition alphabetLetters : list N :=
  [199; 231; 286; 287; 304; 305; 214; 246; 350; 351; 220; 252].

(** ... and the vowels written with a circumflex (U+00C2 and U+00E2 a,
    U+00CE and U+00EE i, U+00DB and U+00FB u). *)
Definition circumflexVowels : list N := [194; 226; 206; 238; 219; 251].

(** A letter of either list; a letter of the alphabet list; a code unit of
    the ASCII range. *)
Definition isTurkishLetter (c : N) : bool :=
  existsb (N.eqb c) (alphabetLetters ++ circumflexVowels).

Definition isAlphabetLetter (c : N) : bool := existsb (N.eqb c) alphabetLetters.

Definition isAscii (c : N) : bool := c <? 128.

(** A call that draws no text. *)
Definition notText (op : DocOp) : bool :=
  match op with OpText _ _ _ _ => false | _ => true end.

(** The texts drawn so far are [texts]. *)
Definition textsAre (texts : list (list jsstring)) (w : World) : Prop :=
  textsOf (d_ops (w_doc w)) = texts.

(** The texts drawn so far are [texts], and the current font is [family],
    [style] at [size]. *)
Definition drawing (texts : list (list jsstring)) (family : jsstring) (style : FontStyle)
           (size : Q) (w : World) : Prop :=
  textsOf (d_ops (w_doc w)) = texts
  /\ d_family (w_doc w) = family /\ d_style (w_doc w) = style
  /\ d_fontSize (w_doc w) = size.

(** * Proofs *)

(** ** Transliteration *)

Lemma replaceChar_map (c d : N) (s : jsstring) :
  replaceChar c [d] s = map (substUnit c d) s.
Proof.
  unfold replaceChar, replaceEach, substUnit.
  induction s as [|x s IH]; simpl; [reflexivity|].
  rewrite IH. destruct (c =? x); reflexivity.
Qed.

Ltac literal_units :=
  repeat match goal with
  | |- context [js ?s] =>
      let v := eval vm_compute in (js s) in change (js s) with v
  | |- context [chr ?s] =>
      let v := eval vm_compute in (chr s) in change (chr s) with v
  end.

Lemma sanitizeText_map (s : jsstring) : sanitizeText s = map sanitizeUnit s.
Proof.
  unfold sanitizeText, sanitizeUnit. literal_units.
  rewrite !replaceChar_map, !map_map.
  reflexivity.
Qed.

Lemma substUnit_other (from to x : N) : x <> from -> substUnit from to x = x.
Proof.
  intro H. unfold substUnit. destruct (N.eqb_spec from x); congruence.
Qed.

Lemma turkishDiacritics_units :
  turkishDiacritics = [287; 286; 252; 220; 351; 350; 305; 304; 246; 214; 231; 199; 226; 194].
Proof. vm_compute. reflexivity. Qed.

Lemma sanitizeUnit_units (c : N) :
  sanitizeUnit c =
  substUnit 194 65 (substUnit 226 97 (substUnit 199 67 (substUnit 231 99
  (substUnit 214 79 (substUnit 246 111 (substUnit 304 73 (substUnit 305 105
  (substUnit 350 83 (substUnit 351 115 (substUnit 220 85 (substUnit 252 117
  (substUnit 286 71 (substUnit 287 103 c))))))))))))).
Proof. unfold sanitizeUnit. literal_units. reflexivity. Qed.

(** A unit is either one of the fourteen letters, and then its image is a
    plain letter, or it is left alone. *)
Lemma sanitizeUnit_cases (c : N) :
  (isTurkishDiacritic c = true /\ isTurkishDiacritic (sanitizeUnit c) = false
   /\ sanitizeUnit (sanitizeUnit c) = sanitizeUnit c)
  \/ (isTurkishDiacritic c = false /\ sanitizeUnit c = c).
Proof.
  unfold isTurkishDiacritic.
  rewrite (sanitizeUnit_units (sanitizeUnit c)), (sanitizeUnit_units c).
  rewrite turkishDiacritics_units.
  destruct (existsb (N.eqb c) _) eqn:Hc.
  - left. apply existsb_exists in Hc.
    destruct Hc as (k & Hk & Hck). apply N.eqb_eq in Hck. subst k.
    simpl in Hk.
    repeat (destruct Hk as [<-|Hk]; [vm_compute; repeat split; reflexivity|]).
    destruct Hk.
  - right. split; [reflexivity|].
    simpl in Hc. repeat (apply orb_false_elim in Hc; destruct Hc as [? Hc]).
    repeat match goal with
    | H : (c =? _) = false |- _ => apply N.eqb_neq in H
    end.
    repeat match goal with
    | |- context [substUnit ?k ?d c] => rewrite (substUnit_other k d c) by assumption
    end.
    reflexivity.
Qed.

Lemma sanitizeUnit_idempotent (c : N) : sanitizeUnit (sanitizeUnit c) = sanitizeUnit c.
Proof.
  destruct (sanitizeUnit_cases c) as [(_ & _ & H)|(_ & H)]; [exact H|].
  rewrite !H. reflexivity.
Qed.

Lemma sanitizeUnit_clean (c : N) : isTurkishDiacritic (sanitizeUnit c) = false.
Proof.
  destruct (sanitizeUnit_cases c) as [(_ & H & _)|(Hc & H)]; [exact H|].
  rewrite H. exact Hc.
Qed.

Lemma sanitizeText_clean (x : jsstring) : hasTurkishDiacritic (sanitizeText x) = false.
Proof.
  rewrite sanitizeText_map. unfold hasTurkishDiacritic.
  induction x as [|c x IH]; simpl; [reflexivity|].
  rewrite sanitizeUnit_clean, IH. reflexivity.
Qed.

(** C4 fails on the vowels with a circumflex other than a: [sanitizeText]
    replaces the circumflexed a, as it does the letters of the alphabet, but
    has no entry for the circumflexed i and u, so these letters of Turkish
    writing pass through and the output is not ASCII. *)
Lemma sanitizeText_keeps_circumflex_i_u :
  sanitizeText (js "millî sükûn") = js "millî sukûn"
  /\ existsb isTurkishLetter (sanitizeText (js "millî sükûn")) = true
  /\ forallb isAscii (sanitizeText (js "millî sükûn")) = false
  /\ sanitizeText (js "hâlâ") = js "hala".
Proof. vm_compute. repeat split. Qed.

(** A unit is one of the fourteen letters, and then its image is ASCII, or
    it is left alone. *)
Lemma sanitizeUnit_split (c : N) :
  (existsb (N.eqb c) (alphabetLetters ++ [194; 226]) = true
   /\ isAscii (sanitizeUnit c) = true)
  \/ (existsb (N.eqb c) (alphabetLetters ++ [194; 226]) = false /\ sanitizeUnit c = c).
Proof.
  rewrite (sanitizeUnit_units c). unfold alphabetLetters. cbn [app].
  destruct (existsb (N.eqb c) _) eqn:Hc.
  - left. split; [reflexivity|]. apply existsb_exists in Hc.
    destruct Hc as (k & Hk & Hck). apply N.eqb_eq in Hck. subst k.
    simpl in Hk.
    repeat (destruct Hk as [<-|Hk]; [vm_compute; reflexivity|]).
    destruct Hk.
  - right. split; [reflexivity|].
    simpl in Hc. repeat (apply orb_false_elim in Hc; destruct Hc as [? Hc]).
    repeat match goal with
    | H : (c =? _) = false |- _ => apply N.eqb_neq in H
    end.
    repeat match goal with
    | |- context [substUnit ?k ?d c] => rewrite (substUnit_other k d c) by assumption
    end.
    reflexivity.
Qed.

Lemma ascii_not_alphabet (c : N) :
  isAscii c = true -> existsb (N.eqb c) (alphabetLetters ++ [194; 226]) = false.
Proof.
  unfold isAscii. intro H. apply N.ltb_lt in H.
  apply not_true_is_false. intro E. apply existsb_exists in E.
  destruct E as (k & Hk & Hck). apply N.eqb_eq in Hck. subst k. simpl in Hk.
  repeat (destruct Hk as [<-|Hk]; [lia|]). destruct Hk.
Qed.

Lemma sanitizeUnit_no_alphabet (c : N) :
  existsb (N.eqb (sanitizeUnit c)) (alphabetLetters ++ [194; 226]) = false.
Proof.
  destruct (sanitizeUnit_split c) as [(_ & Ha)|(Hc & ->)].
  - apply ascii_not_alphabet, Ha.
  - exact Hc.
Qed.

Lemma sanitizeText_no_alphabet (x : jsstring) :
  existsb (fun c => existsb (N.eqb c) (alphabetLetters ++ [194; 226])) (sanitizeText x) = false.
Proof.
  rewrite sanitizeText_map.
  induction x as [|c x IH]; [reflexivity|]. cbn [map existsb].
  rewrite sanitizeUnit_no_alphabet, IH. reflexivity.
Qed.

(** X13 ([sanitizeText]). The transliteration is idempotent and keeps the
    length of the text; its output has none of the twelve marked letters of
    the Turkish alphabet and no circumflexed a; it leaves an ASCII text as
    it is; and it turns a text written with ASCII characters, those letters
    and the circumflexed a into an ASCII text. *)
Theorem sanitizeText_idempotent_and_ascii :
  forall x : jsstring,
    sanitizeText (sanitizeText x) = sanitizeText x
    /\ length (sanitizeText x) = length x
    /\ existsb (fun c => existsb (N.eqb c) (alphabetLetters ++ [194; 226]))
               (sanitizeText x) = false
    /\ (forallb isAscii x = true -> sanitizeText x = x)
    /\ (forallb (fun c => isAscii c || existsb (N.eqb c) (alphabetLetters ++ [194; 226])) x
        = true -> forallb isAscii (sanitizeText x) = true).
Proof.
  intro x. split; [|split; [|split; [|split]]].
  - rewrite !sanitizeText_map, map_map.
    apply map_ext. intro c. apply sanitizeUnit_idempotent.
  - rewrite sanitizeText_map. apply length_map.
  - apply sanitizeText_no_alphabet.
  - rewrite sanitizeText_map. intro H.
    induction x as [|c x IH]; [reflexivity|]. cbn [forallb] in H.
    apply andb_true_iff in H as [Hc Hx]. cbn [map]. rewrite (IH Hx). f_equal.
    destruct (sanitizeUnit_split c) as [(E & _)|(_ & E)]; [|exact E].
    rewrite (ascii_not_alphabet c Hc) in E. discriminate E.
  - rewrite sanitizeText_map. intro H.
    induction x as [|c x IH]; [reflexivity|]. cbn [forallb] in H.
    apply andb_true_iff in H as [Hc Hx]. cbn [map forallb]. rewrite (IH Hx), andb_true_r.
    destruct (sanitizeUnit_split c) as [(_ & Ha)|(E & ->)]; [exact Ha|].
    rewrite E, orb_false_r in Hc. exact Hc.
Qed.

(** ** Rules of the program logic *)

Lemma bind_run {A B} (m : JS A) (k : A -> JS B) (w : World) :
  (m ≫= k) w = match m w with
               | (Ok a, w') => k a w'
               | (Throw e, w') => (Throw e, w')
               end.
Proof. reflexivity. Qed.

Lemma hoare_bind {A B} (I : World -> Prop) (J : A -> World -> Prop)
      (m : JS A) (k : A -> JS B) Q E :
  hoare I m J E -> (forall a, hoare (J a) (k a) Q E) -> hoare I (m ≫= k) Q E.
Proof.
  intros Hm Hk w Hw. rewrite bind_run.
  specialize (Hm w Hw). destruct (m w) as [[a|e] w']; [|exact Hm].
  apply (Hk a w' Hm).
Qed.

Lemma hoare_weaken {A} (I : World -> Prop) (m : JS A) (Q Q' : A -> World -> Prop)
      (E E' : JsError -> World -> Prop) :
  hoare I m Q E -> (forall a w, Q a w -> Q' a w) -> (forall e w, E e w -> E' e w) ->
  hoare I m Q' E'.
Proof.
  intros Hm HQ HE w Hw. specialize (Hm w Hw).
  destruct (m w) as [[a|e] w']; auto.
Qed.

Lemma hoare_keeps_bind {A B} (I : World -> Prop) (m : JS A) (k : A -> JS B) Q E :
  keeps I m -> (forall e w, I w -> E e w) -> (forall a, hoare I (k a) Q E) ->
  hoare I (m ≫= k) Q E.
Proof.
  intros Hm HE Hk. apply hoare_bind with (J := fun _ => I); [|exact Hk].
  apply hoare_weaken with (1 := Hm); auto.
Qed.

Section Keeps.

Context {I : World -> Prop}.

Lemma keeps_ret {A} (a : A) : keeps I (mret a).
Proof. intros w Hw. exact Hw. Qed.

Lemma keeps_throw {A} (e : JsError) : keeps I (@throw A e).
Proof. intros w Hw. exact Hw. Qed.

Lemma keeps_get : keeps I get.
Proof. intros w Hw. exact Hw. Qed.

Lemma keeps_bind {A B} (m : JS A) (k : A -> JS B) :
  keeps I m -> (forall a, keeps I (k a)) -> keeps I (m ≫= k).
Proof. intros Hm Hk. apply hoare_bind with (J := fun _ => I); assumption. Qed.

Lemma keeps_modify (f : World -> World) :
  (forall w, I w -> I (f w)) -> keeps I (modify f).
Proof. intros Hf w Hw. apply Hf, Hw. Qed.

Lemma keeps_call (env : Env) (op : DocOp) :
  (forall w, I w -> I (set_doc (recordOp op) w)) -> keeps I (call env op).
Proof.
  intros Hop w Hw. unfold call.
  destruct (doc_throws env (d_ops (w_doc w)) op); apply Hop, Hw.
Qed.

Lemma keeps_try_catch {A} (m : JS A) (h : JsError -> JS A) :
  keeps I m -> (forall e, keeps I (h e)) -> keeps I (try_catch m h).
Proof.
  intros Hm Hh w Hw. unfold try_catch.
  specialize (Hm w Hw). destruct (m w) as [[a|e] w']; [exact Hm|].
  apply (Hh e w' Hm).
Qed.

Lemma keeps_forEach {A} (xs : list A) (body : A -> JS unit) :
  (forall x, keeps I (body x)) -> keeps I (forEach xs body).
Proof.
  intros Hb. induction xs as [|x xs IH]; simpl.
  - apply keeps_ret.
  - apply keeps_bind; [apply Hb | intros _; exact IH].
Qed.

End Keeps.

(** ** Stable invariants *)

Lemma savedFiles_app (l1 l2 : list DocOp) :
  savedFiles (l1 ++ l2) = savedFiles l1 ++ savedFiles l2.
Proof. unfold savedFiles. apply flat_map_app. Qed.

#[global] Instance quiet_stable (w0 : World) : Stable notSave (quiet w0).
Proof.
  split.
  - intros op w Hop (Ha & Hs & Ht & Hp & Hd & Hn).
    repeat split; try assumption. simpl.
    rewrite savedFiles_app, Hn. destruct op; try discriminate Hop; reflexivity.
  - intros f w Hf (Ha & Hs & Ht & Hp & Hd & Hn).
    repeat split; try assumption. simpl. rewrite Hf. exact Hn.
  - intros f w H. exact H.
  - intros f w H. exact H.
Qed.

#[global] Instance extends_stable (base : list DocOp) : Stable anyOp (extends base).
Proof.
  split.
  - intros op w _ (l & Hl). exists (l ++ [op]). simpl. rewrite Hl, app_assoc. reflexivity.
  - intros f w Hf (l & Hl). exists l. simpl. rewrite Hf. exact Hl.
  - intros f w H. exact H.
  - intros f w H. exact H.
Qed.

Section StableKeeps.

Context {harmless : DocOp -> bool} {I : World -> Prop} `{!Stable harmless I}.
Variable env : Env.

Lemma keeps_draw (op : DocOp) : harmless op = true -> keeps I (call env op).
Proof. intro H. apply keeps_call. intros w. apply stable_op, H. Qed.

Lemma keeps_doc_setFont family style :
  harmless (OpSetFont family style) = true -> keeps I (doc_setFont env family style).
Proof.
  intro H. apply keeps_bind; [apply keeps_draw, H | intros _].
  apply keeps_modify. intro w. apply stable_state. reflexivity.
Qed.

Lemma keeps_doc_setFontSize size :
  harmless (OpSetFontSize size) = true -> keeps I (doc_setFontSize env size).
Proof.
  intro H. apply keeps_bind; [apply keeps_draw, H | intros _].
  apply keeps_modify. intro w. apply stable_state. reflexivity.
Qed.

Lemma keeps_setFont fl style :
  (forall family, harmless (OpSetFont family style) = true) ->
  keeps I (setFont env fl style).
Proof. intro H. destruct fl; apply keeps_doc_setFont, H. Qed.

Lemma keeps_doc_getTextWidth text : keeps I (doc_getTextWidth env text).
Proof. apply keeps_bind; [apply keeps_get | intros w; apply keeps_ret]. Qed.

Lemma keeps_doc_splitTextToSize text width :
  keeps I (doc_splitTextToSize env text width).
Proof. apply keeps_bind; [apply keeps_get | intros w; apply keeps_ret]. Qed.

Lemma keeps_console_warn msg e : keeps I (console_warn msg e).
Proof. apply keeps_modify. intro w. apply stable_console. Qed.

Lemma keeps_console_error msg e : keeps I (console_error msg e).
Proof. apply keeps_modify. intro w. apply stable_console. Qed.

Lemma keeps_log_fetch url :
  keeps I (modify (set_network (fun l => l ++ [NetFetch url]))).
Proof. apply keeps_modify. intro w. apply stable_network. Qed.

End StableKeeps.

(** Programs on which every call is of a harmless kind keep a stable
    invariant; the goals on [harmless] are closed by evaluation. *)
Ltac keeps_auto :=
  repeat lazymatch goal with
  | |- keeps _ (mret _) => apply keeps_ret
  | |- keeps _ (throw _) => apply keeps_throw
  | |- keeps _ get => apply keeps_get
  | |- keeps _ (doc_setFont _ _ _) => apply keeps_doc_setFont; reflexivity
  | |- keeps _ (doc_setFontSize _ _) => apply keeps_doc_setFontSize; reflexivity
  | |- keeps _ (setFont _ _ _) => apply keeps_setFont; reflexivity
  | |- keeps _ (doc_getTextWidth _ _) => apply keeps_doc_getTextWidth
  | |- keeps _ (doc_splitTextToSize _ _ _) => apply keeps_doc_splitTextToSize
  | |- keeps _ (doc_pageWidth _) => apply keeps_ret
  | |- keeps _ (doc_pageHeight _) => apply keeps_ret
  | |- keeps _ (console_warn _ _) => apply keeps_console_warn
  | |- keeps _ (console_error _ _) => apply keeps_console_error
  | |- keeps _ (call _ _) => apply keeps_draw; reflexivity
  | |- keeps _ (_ ≫= _) => apply keeps_bind; [|intro]
  | |- keeps _ (forEach _ _) => apply keeps_forEach; intro
  | |- keeps _ (try_catch _ _) => apply keeps_try_catch; [|intro]
  | |- keeps _ (if ?b then _ else _) => destruct b
  end.

Section StablePrograms.

Context {harmless : DocOp -> bool} {I : World -> Prop} `{!Stable harmless I}.
Hypothesis harmless_notSave : forall op, notSave op = true -> harmless op = true.
Variable env : Env.

Ltac keeps_here :=
  repeat lazymatch goal with
  | |- harmless _ = true => apply harmless_notSave; reflexivity
  | |- forall _, harmless _ = true => intro
  | |- keeps _ (mret _) => apply keeps_ret
  | |- keeps _ (throw _) => apply keeps_throw
  | |- keeps _ get => apply keeps_get
  | |- keeps _ (doc_setFont _ _ _) => apply keeps_doc_setFont
  | |- keeps _ (doc_setFontSize _ _) => apply keeps_doc_setFontSize
  | |- keeps _ (setFont _ _ _) => apply keeps_setFont
  | |- keeps _ (doc_getTextWidth _ _) => apply keeps_doc_getTextWidth
  | |- keeps _ (doc_splitTextToSize _ _ _) => apply keeps_doc_splitTextToSize
  | |- keeps _ (console_warn _ _) => apply keeps_console_warn
  | |- keeps _ (console_error _ _) => apply keeps_console_error
  | |- keeps _ (call _ _) => apply keeps_draw
  | |- keeps _ (_ ≫= _) => apply keeps_bind; [|intro]
  | |- keeps _ (forEach _ _) => apply keeps_forEach; intro
  | |- keeps _ (try_catch _ _) => apply keeps_try_catch; [|intro]
  | |- keeps _ (if ?b then _ else _) => destruct b
  end.

Lemma keeps_drawAtom x y scale : keeps I (drawAtom env x y scale).
Proof. unfold drawAtom. keeps_here. Qed.

Lemma keeps_drawDNAHelix x y height scale : keeps I (drawDNAHelix env x y height scale).
Proof. unfold drawDNAHelix. cbv zeta. keeps_here. Qed.

Lemma keeps_drawMicroscope x y scale : keeps I (drawMicroscope env x y scale).
Proof. unfold drawMicroscope. keeps_here. Qed.

Lemma keeps_do_fetch url : keeps I (do_fetch env url).
Proof.
  unfold do_fetch. apply keeps_bind; [apply keeps_log_fetch | intros _].
  destruct (fetch env url); keeps_here.
Qed.

Lemma keeps_fetchMirrors urls lastErr : keeps I (fetchMirrors env urls lastErr).
Proof.
  revert lastErr. induction urls as [|url rest IH]; intro lastErr; simpl.
  - apply keeps_throw.
  - apply keeps_bind.
    + apply keeps_try_catch; [|intro; keeps_here].
      apply keeps_bind; [apply keeps_do_fetch | intros [[ok status] body]].
      destruct (negb ok); [apply keeps_throw|].
      destruct body; keeps_here.
    + intros [buf|e]; [apply keeps_ret | apply IH].
Qed.

Lemma keeps_loadCustomFonts : keeps I (loadCustomFonts env).
Proof.
  unfold loadCustomFonts, fetchFirstAvailable.
  apply keeps_try_catch; [|intro; keeps_here].
  apply keeps_bind; [apply keeps_fetchMirrors | intro].
  apply keeps_bind; [apply keeps_fetchMirrors | intro].
  cbv zeta. keeps_here.
Qed.

Lemma keeps_shrinkName cleanName maxNameWidth nameFontSize :
  keeps I (shrinkName env cleanName maxNameWidth nameFontSize).
Proof.
  funelim (shrinkName env cleanName maxNameWidth nameFontSize).
  apply keeps_bind; [apply keeps_doc_getTextWidth | intro width].
  destruct (negb (Qle_bool width maxNameWidth)); [|apply keeps_ret].
  destruct (Z_lt_dec 20 nameFontSize); [|apply keeps_ret].
  apply keeps_bind; [apply keeps_doc_setFontSize; keeps_here | intros _].
  intros w Hw.
  match goal with
  | IH : Q -> _ -> unit -> World -> _ |- _ => exact (IH width l tt w w Hw)
  end.
Qed.

End StablePrograms.

Ltac keeps_render :=
  lazymatch goal with
  | |- keeps _ (drawAtom _ _ _ _) => apply keeps_drawAtom
  | |- keeps _ (drawDNAHelix _ _ _ _ _) => apply keeps_drawDNAHelix
  | |- keeps _ (drawMicroscope _ _ _ _) => apply keeps_drawMicroscope
  | |- keeps _ (shrinkName _ _ _ _) => apply keeps_shrinkName
  | |- keeps _ (loadCustomFonts _) => apply keeps_loadCustomFonts
  | |- _ => idtac
  end;
  try (intros ? ?; (assumption || reflexivity));
  keeps_auto.

(** ** The render changes the document only, and saves it last *)

Lemma rendering_weaken (P P' : list DocOp -> Prop) (w0 w : World) :
  (forall ops, P ops -> P' ops) -> rendering P w0 w -> rendering P' w0 w.
Proof.
  intros HP (Ha & Hs & Ht & Hp & Hd & Hn). repeat split; auto.
Qed.

Lemma quiet_save (w0 : World) (file : jsstring) (w : World) :
  quiet w0 w ->
  rendering (fun ops => savedFiles ops = [file]) w0 (set_doc (recordOp (OpSave file)) w).
Proof.
  intros (Ha & Hs & Ht & Hp & Hd & Hn).
  repeat split; try assumption. simpl.
  rewrite savedFiles_app, Hn. reflexivity.
Qed.

(** However the render ends, it has touched nothing but the new document,
    the console and the network; the document was saved at most once, under
    the name derived from the participant's name, and exactly once when the
    render ends normally. *)
Lemma generateCertificatePDF_saves (env : Env) (w0 : World) (input : CertificateInput) :
  let file := safeFileName (cd_name (data input)) ++ fileSuffix in
  hoare (eq w0) (generateCertificatePDF env input)
    (fun _ => rendering (fun ops => savedFiles ops = [file]) w0)
    (fun _ => rendering (fun ops => savedFiles ops = [] \/ savedFiles ops = [file]) w0).
Proof.
  intro file. unfold generateCertificatePDF.
  apply hoare_bind with (J := fun _ => quiet w0).
  { intros w <-. repeat split; reflexivity. }
  intros _.
  assert (HE : forall (e : JsError) w, quiet w0 w ->
            rendering (fun ops => savedFiles ops = [] \/ savedFiles ops = [file]) w0 w).
  { intros _ w Hw. revert Hw. apply rendering_weaken. auto. }
  repeat (cbv beta zeta; apply hoare_keeps_bind; [solve [keeps_render] | exact HE | intro]).
  cbv beta zeta.
  intros w Hw. unfold call.
  clear HE. subst file.
  destruct (doc_throws env _ _).
  - eapply rendering_weaken; [|exact (quiet_save w0 _ w Hw)]. auto.
  - exact (quiet_save w0 _ w Hw).
Qed.

(** ** Runs that end normally *)

Lemma wp_ok_bind {A B} (m : JS A) (k : A -> JS B) Q w :
  wp_ok m (fun a w' => wp_ok (k a) Q w') w -> wp_ok (m ≫= k) Q w.
Proof.
  unfold wp_ok. rewrite bind_run. destruct (m w) as [[a|e] w']; auto.
Qed.

Lemma wp_ok_skip {A B} (m : JS A) (k : A -> JS B) Q w :
  (forall a w', wp_ok (k a) Q w') -> wp_ok (m ≫= k) Q w.
Proof.
  intro H. apply wp_ok_bind. unfold wp_ok at 1. destruct (m w) as [[a|e] w']; auto.
Qed.

Lemma wp_ok_keeps {A B} (I : World -> Prop) (m : JS A) (k : A -> JS B) Q w :
  keeps I m -> I w -> (forall a w', I w' -> wp_ok (k a) Q w') -> wp_ok (m ≫= k) Q w.
Proof.
  intros Hm Hw Hk. apply wp_ok_bind. unfold wp_ok at 1.
  specialize (Hm w Hw). destruct (m w) as [[a|e] w']; auto.
Qed.

Lemma wp_ok_keeps_last {A} (I : World -> Prop) (m : JS A) (Q : A -> World -> Prop) w :
  keeps I m -> I w -> (forall a w', I w' -> Q a w') -> wp_ok m Q w.
Proof.
  intros Hm Hw Hk. unfold wp_ok.
  specialize (Hm w Hw). destruct (m w) as [[a|e] w']; auto.
Qed.

Lemma wp_ok_call env op (Q : unit -> World -> Prop) w :
  Q tt (set_doc (recordOp op) w) -> wp_ok (call env op) Q w.
Proof. intro H. unfold wp_ok, call. destruct (doc_throws env _ _); auto. Qed.

Lemma wp_ok_doc_setFont env family style (Q : unit -> World -> Prop) w :
  Q tt (set_doc (withFont family style) (set_doc (recordOp (OpSetFont family style)) w)) ->
  wp_ok (doc_setFont env family style) Q w.
Proof.
  intro H. unfold doc_setFont. apply wp_ok_bind, wp_ok_call. exact H.
Qed.

Lemma wp_ok_doc_setFontSize env size (Q : unit -> World -> Prop) w :
  Q tt (set_doc (withFontSize size) (set_doc (recordOp (OpSetFontSize size)) w)) ->
  wp_ok (doc_setFontSize env size) Q w.
Proof.
  intro H. unfold doc_setFontSize. apply wp_ok_bind, wp_ok_call. exact H.
Qed.

Lemma setFont_typeface env fl style :
  setFont env fl style = doc_setFont env (typeface fl) style.
Proof. destruct fl; reflexivity. Qed.

Lemma nameSizes_spec (s : Z) :
  In s nameSizes <-> (20 <= s <= 40 /\ s mod 2 = 0)%Z.
Proof.
  change nameSizes with [40; 38; 36; 34; 32; 30; 28; 26; 24; 22; 20]%Z.
  split.
  - intros H. unfold In in H.
    repeat (destruct H as [<-|H]; [split; [lia|reflexivity]|]). destruct H.
  - intros [H1 H2]. unfold In.
    assert (exists k, s = 2 * k)%Z as [k ->] by (exists (s / 2)%Z; apply Z_div_exact_2; lia).
    lia.
Qed.

Lemma nameSizes_step (s : Z) : In s nameSizes -> (20 < s)%Z -> In (s - 2)%Z nameSizes.
Proof.
  rewrite !nameSizes_spec. intros [H1 H2] H.
  assert (exists k, s = 2 * k)%Z as [k ->] by (exists (s / 2)%Z; apply Z_div_exact_2; lia).
  split; [lia|].
  replace (2 * k - 2)%Z with ((k - 1) * 2)%Z by lia. apply Z_mod_mult.
Qed.

(** The loop, started at a size of the grid at which every larger size of
    the grid was too wide. *)
Lemma wp_ok_shrinkName env fl cleanName (sz : Z) (w : World) (l0 : list DocOp) :
  d_family (w_doc w) = typeface fl -> d_style (w_doc w) = bold ->
  d_fontSize (w_doc w) = inject_Z sz ->
  d_ops (w_doc w) = l0 ++ [OpSetFontSize (inject_Z sz)] ->
  In sz nameSizes ->
  (forall s, In s nameSizes -> (sz < s)%Z -> nameFits env fl cleanName s = false) ->
  wp_ok (shrinkName env cleanName (pageWidth env - 90)%Q sz)
    (fun r w' =>
       In r nameSizes /\ (r <= sz)%Z
       /\ (nameFits env fl cleanName sz = true -> r = sz)
       /\ (nameFits env fl cleanName sz = false -> (20 < sz)%Z -> (r < sz)%Z)
       /\ (r = 20%Z \/ nameFits env fl cleanName r = true)
       /\ (forall s, In s nameSizes -> (r < s)%Z -> nameFits env fl cleanName s = false)
       /\ exists l1, d_ops (w_doc w') = l1 ++ [OpSetFontSize (inject_Z r)])
    w.
Proof.
  remember (Z.to_nat (sz - 20)) as n eqn:Hn.
  revert sz w l0 Hn. induction n as [n IH] using lt_wf_ind.
  intros sz w l0 Hn Hf Hs Hz Ho Hg Hw.
  rewrite shrinkName_equation_1.
  apply wp_ok_bind. unfold doc_getTextWidth. apply wp_ok_bind.
  unfold wp_ok at 1, get. unfold wp_ok at 1. unfold mret, JS_ret, ret.
  rewrite Hf, Hs, Hz.
  fold (nameFits env fl cleanName sz).
  destruct (nameFits env fl cleanName sz) eqn:Hfit; cbv beta iota delta [negb].
  - unfold wp_ok. repeat split; auto; try lia. eauto.
  - destruct (Z_lt_dec 20 sz) as [Hlt|Hge].
    + apply wp_ok_bind, wp_ok_doc_setFontSize.
      assert (Hg' : In (sz - 2)%Z nameSizes) by (apply nameSizes_step; assumption).
      set (w2 := set_doc (withFontSize (inject_Z (sz - 2)))
                   (set_doc (recordOp (OpSetFontSize (inject_Z (sz - 2)))) w)).
      assert (Hw' : forall s, In s nameSizes -> (sz - 2 < s)%Z ->
                      nameFits env fl cleanName s = false).
      { intros s Hs1 Hs2.
        destruct (Z.eq_dec s sz) as [->|Hne]; [exact Hfit|].
        apply Hw; [exact Hs1|].
        apply nameSizes_spec in Hs1. apply nameSizes_spec in Hg.
        destruct Hs1 as [_ Hs1]. destruct Hg as [_ Hg].
        assert (exists k, s = 2 * k)%Z as [k ->]
          by (exists (s / 2)%Z; apply Z_div_exact_2; lia).
        assert (exists j, sz = 2 * j)%Z as [j ->]
          by (exists (sz / 2)%Z; apply Z_div_exact_2; lia).
        lia. }
      assert (Hm : (Z.to_nat (sz - 2 - 20) < n)%nat) by lia.
      pose proof (IH _ Hm (sz - 2)%Z w2 (d_ops (w_doc w)) eq_refl Hf Hs eq_refl eq_refl
                    Hg' Hw') as Hrec.
      unfold wp_ok in *.
      destruct (shrinkName env cleanName _ _ w2) as [[r|e] w'']; [|exact Logic.I].
      destruct Hrec as (G1 & G2 & G3 & G4 & G5 & G6 & G7).
      repeat split; auto; try lia.
    + unfold wp_ok.
      assert (sz = 20)%Z by (apply nameSizes_spec in Hg; lia). subst sz.
      repeat split; auto; try lia. eauto.
Qed.

Lemma wp_ok_conseq {A} (m : JS A) (Q1 Q2 : A -> World -> Prop) w :
  wp_ok m Q1 w -> (forall a w', Q1 a w' -> Q2 a w') -> wp_ok m Q2 w.
Proof.
  unfold wp_ok. destruct (m w) as [[a|e] w']; auto.
Qed.

Lemma wp_ok_ret {A} (a : A) (Q : A -> World -> Prop) w : Q a w -> wp_ok (mret a) Q w.
Proof. intro H. exact H. Qed.

Lemma wp_ok_splitTextToSize env family style size text maxWidth
      (Q : list jsstring -> World -> Prop) w :
  d_family (w_doc w) = family -> d_style (w_doc w) = style ->
  d_fontSize (w_doc w) = size ->
  Q (splitTextToSize env family style size text maxWidth) w ->
  wp_ok (doc_splitTextToSize env text maxWidth) Q w.
Proof.
  intros <- <- <- H. exact H.
Qed.

Section RenderSuccess.

Local Open Scope Q_scope.

(** A render that ends normally has drawn the name right after setting its
    resolved size, and the impact message (or the default sentence) later. *)
Lemma render_success (env : Env) (input : CertificateInput) (w : World) :
  let fl := fontsLoaded env w in
  let cleanName := t fl (toLocaleUpperCase_tr env (cd_name (data input))) in
  let impactRaw := trim (default [] (cd_impactMessage (data input))) in
  let impactText :=
    t fl (if (0 <? length impactRaw)%nat then impactRaw else defaultImpact) in
  wp_ok (generateCertificatePDF env input)
    (fun _ w' =>
       exists size pre mid post,
         d_ops (w_doc w')
         = pre ++ [OpSetFontSize (inject_Z size);
                   OpText [cleanName] (pageWidth env / 2) 122 centered]
               ++ mid
               ++ [OpText (splitTextToSize env (typeface fl) normal 12.5 impactText
                                           (pageWidth env - 100))
                          (pageWidth env / 2) 142 (centeredLines 1.5)]
               ++ post
         /\ In size nameSizes
         /\ (nameFits env fl cleanName 40 = true -> size = 40%Z)
         /\ (nameFits env fl cleanName 40 = false -> (size < 40)%Z)
         /\ (size = 20%Z \/ nameFits env fl cleanName size = true)
         /\ (forall s, In s nameSizes -> (size < s)%Z ->
                       nameFits env fl cleanName s = false))
    w.
Proof.
  intros fl cleanName impactRaw impactText.
  unfold generateCertificatePDF.
  apply wp_ok_bind. unfold new_jsPDF. unfold wp_ok at 1, modify.
  apply wp_ok_bind. unfold wp_ok at 1.
  destruct (loadCustomFonts env _) as [[b|e] W1] eqn:Hload; [|exact Logic.I].
  assert (Hb : b = fl).
  { unfold fl, fontsLoaded. rewrite bind_run. unfold new_jsPDF, modify.
    rewrite Hload. reflexivity. }
  rewrite Hb. clear Hload Hb b. cbv beta zeta.
  unfold doc_pageWidth, doc_pageHeight.
  (* up to the name *)
  repeat lazymatch goal with
  | |- wp_ok (setFont _ _ bold ≫= (fun _ => call _ (OpSetTextColor 15 23 42) ≫= _)) _ _ =>
      fail
  | |- wp_ok (ret _ ≫= _) _ _ => apply wp_ok_bind; unfold wp_ok at 1, ret; cbv beta zeta
  | |- wp_ok (_ ≫= _) _ _ => apply wp_ok_skip; intros ? ?; cbv beta zeta
  end.
  (* the name *)
  match goal with |- wp_ok _ _ ?x => generalize x; intros W end.
  rewrite !setFont_typeface.
  apply wp_ok_bind, wp_ok_doc_setFont.
  apply wp_ok_bind, wp_ok_call.
  apply wp_ok_bind, wp_ok_doc_setFontSize.
  apply wp_ok_bind.
  eapply wp_ok_conseq.
  { apply (wp_ok_shrinkName env fl cleanName 40 _ (d_ops (w_doc W) ++
             [OpSetFont (typeface fl) bold; OpSetTextColor 15 23 42])).
    - reflexivity.
    - reflexivity.
    - reflexivity.
    - unfold set_doc, withFontSize, recordOp, withFont; cbv beta iota delta [w_doc d_ops].
      rewrite <- !app_assoc. reflexivity.
    - apply nameSizes_spec. split; [lia | reflexivity].
    - intros s Hs Hlt. apply nameSizes_spec in Hs. lia. }
  intros size W2 (G1 & G2 & G3 & G4 & G5 & G6 & pre & Hpre). cbv beta.
  apply wp_ok_bind, wp_ok_call.
  (* between the name and the impact message *)
  set (base := pre ++ [OpSetFontSize (inject_Z size);
                       OpText [cleanName] (pageWidth env / 2) 122 centered]).
  match goal with |- wp_ok _ _ ?x =>
    assert (HI : extends base x)
      by (exists []; unfold base; simpl; rewrite Hpre, <- !app_assoc; reflexivity);
    generalize x HI; clear HI; intros W3 HI
  end.
  repeat lazymatch goal with
  | |- wp_ok (doc_setFont _ _ normal ≫= _) _ _ => fail
  | |- wp_ok (_ ≫= _) _ _ =>
      apply wp_ok_keeps with (I := extends base);
      [solve [keeps_render] | exact HI | clear HI; intros ? ? HI; cbv beta zeta]
  end.
  (* the impact message *)
  destruct HI as (lB & HlB).
  match goal with |- wp_ok _ _ ?x => generalize x HlB; clear HlB; intros W4 HlB end.
  apply wp_ok_bind, wp_ok_doc_setFont.
  apply wp_ok_bind, wp_ok_doc_setFontSize.
  apply wp_ok_bind, wp_ok_call.
  apply wp_ok_bind.
  apply (wp_ok_splitTextToSize env (typeface fl) normal 12.5); [reflexivity..|].
  apply wp_ok_bind, wp_ok_call.
  fold impactRaw. fold impactText.
  set (mid := lB ++ [OpSetFont (typeface fl) normal; OpSetFontSize 12.5;
                     OpSetTextColor 71 85 105]).
  set (base2 := base ++ mid ++
         [OpText (splitTextToSize env (typeface fl) normal 12.5 impactText
                                  (pageWidth env - 100))
                 (pageWidth env / 2) 142 (centeredLines 1.5)]).
  match goal with |- wp_ok _ _ ?x =>
    assert (HI : extends base2 x)
      by (exists []; unfold base2, mid; simpl; rewrite HlB, <- !app_assoc; reflexivity);
    generalize x HI; clear HI; intros W5 HI
  end.
  (* to the end *)
  repeat lazymatch goal with
  | |- wp_ok (_ ≫= _) _ _ =>
      apply wp_ok_keeps with (I := extends base2);
      [solve [keeps_render] | exact HI | clear HI; intros ? ? HI; cbv beta zeta]
  end.
  apply wp_ok_keeps_last with (I := extends base2); [solve [keeps_render] | exact HI |].
  intros _ wf (post & Hpost).
  exists size, pre, mid, post. split.
  - rewrite Hpost. unfold base2, base. rewrite <- !app_assoc. reflexivity.
  - repeat split; auto. intro H. apply G4; [exact H | lia].
Qed.

End RenderSuccess.

(** ** The message composer never throws *)

Lemma generateImpactMessage_run (env : Env) (n : jsstring) (w : World) :
  exists msg w',
    generateImpactMessage env n w = (Ok msg, w')
    /\ w_app w' = w_app w /\ w_doc w' = w_doc w /\ w_pastDocs w' = w_pastDocs w
    /\ w_localStorage w' = w_localStorage w /\ w_timers w' = w_timers w
    /\ w_defaultPrevented w' = w_defaultPrevented w
    /\ msg = match generateContent env (apiKey env) (js "gemini-3-flash-preview")
                                   (prompt n) 0.7%Q 100 with
             | Ok (RespText (Some text)) =>
                 if truthy (trim text) then trim text else fallbackMessage
             | _ => fallbackMessage
             end.
Proof.
  unfold generateImpactMessage, try_catch, models_generateContent, response_text_trim.
  rewrite !bind_run. unfold modify, console_error, modify.
  destruct (generateContent env _ _ _ _ _) as [[[text|]|]|e];
    unfold mret, JS_ret, ret, throw; rewrite ?bind_run.
  - destruct (truthy (trim text)); do 2 eexists; repeat split.
  - do 2 eexists; repeat split.
  - do 2 eexists; repeat split.
  - do 2 eexists; repeat split.
Qed.

(** ** The three ways through the submit handler *)

Lemma handleGenerate_blank (env : Env) (w : World) :
  truthy (trim (name (w_app w))) = false ->
  handleGenerate env w = (Ok tt, set_defaultPrevented (fun _ => true) w).
Proof.
  intro H. unfold handleGenerate. rewrite bind_run. unfold get.
  cbv zeta. rewrite bind_run. unfold modify. rewrite H. reflexivity.
Qed.

Lemma handleGenerate_blocked (env : Env) (w : World) :
  truthy (trim (name (w_app w))) = true -> (2 <= count (w_app w))%Z ->
  handleGenerate env w = (Ok tt, blockedWorld w).
Proof.
  intros H Hc. unfold handleGenerate. rewrite bind_run. unfold get.
  cbv zeta. rewrite bind_run. unfold modify. rewrite H.
  replace (count (w_app w) >=? 2)%Z with true
    by (symmetry; rewrite Z.geb_leb; apply Z.leb_le; lia).
  reflexivity.
Qed.

Lemma handleGenerate_permitted (env : Env) (w : World) :
  truthy (trim (name (w_app w))) = true -> (count (w_app w) < 2)%Z ->
  handleGenerate env w =
  match attempt env w with
  | (Ok _, w1) =>
      let key := storageKeyOf (ip (w_app w)) in
      let w2 := (setCount (count (w_app w) + 1) w1).2 in
      if setItem_throws env (w_localStorage w2) key (issuedRecord env w)
      then
        (Ok tt,
         (setLoading false
            (setError (Some pdfErrorMessage)
               (console_error [] (Some (StorageError key)) w2).2).2).2)
      else
        (Ok tt,
         (setLoading false
           (setTimeout ClearSuccess 5000
             (setName []
               (setIsSuccess true
                 (set_localStorage (fun m => <[key := issuedRecord env w]> m) w2)).2).2).2).2)
  | (Throw e, w1) =>
      (Ok tt,
       (setLoading false
          (setError (Some pdfErrorMessage) (console_error [] (Some e) w1).2).2).2)
  end.
Proof.
  intros H Hc. unfold handleGenerate, attempt. rewrite bind_run. unfold get.
  cbv zeta. rewrite bind_run. unfold modify at 1. rewrite H.
  replace (count (w_app w) >=? 2)%Z with false
    by (symmetry; rewrite Z.geb_leb; apply Z.leb_gt; lia).
  change (negb true) with false. cbv beta iota.
  generalize (generateCertificatePDF env) as gen.
  generalize (generateImpactMessage env (name (w_app w))) as gim. intros gim gen.
  unfold issuedRecord.
  generalize (JSON_stringify env {| us_count := count (w_app w) + 1;
                                    us_lastGenerated := toISOString env |}) as record.
  intro record.
  unfold try_finally, try_catch.
  unfold setLoading, setError, setCount, setIsSuccess, setName, setTimeout,
    localStorage_setItem, console_error, modify, get.
  rewrite !bind_run. simpl.
  destruct (gim _) as [[impact|e] w1]; [|reflexivity].
  rewrite !bind_run.
  destruct (gen _ w1) as [[[]|e] w2]; [|reflexivity].
  rewrite !bind_run. simpl.
  destruct (setItem_throws env (w_localStorage w2) _ record); reflexivity.
Qed.

(** The attempt leaves the form state as the handler prepared it, touches
    neither the store nor the timers, and makes one new document, saved at
    most once. *)
Lemma attempt_frame (env : Env) (w : World) :
  let file := safeFileName (name (w_app w)) ++ fileSuffix in
  let w1 := (attempt env w).2 in
  w_pastDocs w1 = w_doc w :: w_pastDocs w
  /\ w_localStorage w1 = w_localStorage w
  /\ w_timers w1 = w_timers w
  /\ w_app w1 = {| name := name (w_app w); ip := ip (w_app w); count := count (w_app w);
                   loading := true; error := None; isSuccess := isSuccess (w_app w) |}
  /\ match (attempt env w).1 with
     | Ok _ => savedFiles (d_ops (w_doc w1)) = [file]
     | Throw _ => savedFiles (d_ops (w_doc w1)) = [] \/ savedFiles (d_ops (w_doc w1)) = [file]
     end.
Proof.
  intros file w1. subst w1. unfold attempt. rewrite bind_run.
  set (wp := ((modify (set_defaultPrevented (fun _ => true)) ;; setLoading true ;;
               setError None) w).2).
  destruct (generateImpactMessage_run env (name (w_app w)) wp)
    as (msg & w' & Hrun & Ha & Hd & Hp & Hs & Ht & _ & _).
  rewrite Hrun.
  pose proof (generateCertificatePDF_saves env w'
                {| data := {| cd_name := name (w_app w);
                              cd_date := toLocaleDateString_tr env;
                              cd_impactMessage := Some msg |};
                   extras := noExtras |} w' eq_refl) as Hgen.
  cbv zeta in Hgen.
  destruct (generateCertificatePDF env _ w') as [[[]|e] w2];
    destruct Hgen as (Ga & Gs & Gt & _ & Gd & Gn);
    cbv beta iota delta [fst snd];
    (split; [rewrite Gd, Hd, Hp; reflexivity|]);
    (split; [rewrite Gs, Hs; reflexivity|]);
    (split; [rewrite Gt, Ht; reflexivity|]);
    (split; [rewrite Ga, Ha; reflexivity|]); exact Gn.
Qed.

Lemma cons_neq {A} (x : A) (l : list A) : x :: l <> l.
Proof.
  intro H. apply (f_equal (@length A)) in H. simpl in H. lia.
Qed.

(** A permitted submission: what the handler leaves, by the way the attempt
    ended and, when it ended normally, by whether the store took the record. *)
Lemma permitted_outcome (env : Env) (w : World) :
  truthy (trim (name (w_app w))) = true -> (count (w_app w) < 2)%Z ->
  let w' := (handleGenerate env w).2 in
  let key := storageKeyOf (ip (w_app w)) in
  w_pastDocs w' = w_doc w :: w_pastDocs w
  /\ w_doc w' = w_doc (attempt env w).2
  /\ match (attempt env w).1 with
     | Ok _ =>
         if setItem_throws env (w_localStorage w) key (issuedRecord env w)
         then
           w_app w' = {| name := name (w_app w); ip := ip (w_app w);
                         count := count (w_app w) + 1; loading := false;
                         error := Some pdfErrorMessage;
                         isSuccess := isSuccess (w_app w) |}
           /\ w_localStorage w' = w_localStorage w
         else
           w_app w' = {| name := []; ip := ip (w_app w); count := count (w_app w) + 1;
                         loading := false; error := None; isSuccess := true |}
           /\ w_localStorage w' = <[key := issuedRecord env w]> (w_localStorage w)
     | Throw _ =>
         w_app w' = {| name := name (w_app w); ip := ip (w_app w);
                       count := count (w_app w); loading := false;
                       error := Some pdfErrorMessage;
                       isSuccess := isSuccess (w_app w) |}
         /\ w_localStorage w' = w_localStorage w
     end.
Proof.
  intros H Hc w' key. subst w' key. rewrite (handleGenerate_permitted env w H Hc).
  destruct (attempt_frame env w) as (Hd & Hs & Ht & Ha & _).
  generalize (issuedRecord env w) as record. intro record.
  destruct (attempt env w) as [[[]|e] w1]; cbv beta iota zeta delta [fst snd] in *.
  - unfold setCount, modify. cbv beta iota delta [fst snd].
    change (w_localStorage (set_app _ w1)) with (w_localStorage w1). rewrite Hs.
    destruct (setItem_throws env (w_localStorage w) _ record).
    + split; [exact Hd|]. split; [reflexivity|].
      unfold setLoading, setError, console_error, modify.
      cbv beta iota delta [fst snd].
      split; simpl; [rewrite Ha | rewrite Hs]; reflexivity.
    + split; [exact Hd|]. split; [reflexivity|].
      unfold setLoading, setTimeout, setName, setIsSuccess, modify.
      cbv beta iota delta [fst snd].
      split; simpl; [rewrite Ha | rewrite Hs]; reflexivity.
  - split; [exact Hd|]. split; [reflexivity|].
    unfold setLoading, setError, console_error, modify.
    cbv beta iota delta [fst snd].
    split; simpl; [rewrite Ha | rewrite Hs]; reflexivity.
Qed.

(** The three ways a permitted submission ends: issued and recorded; issued
    but not recorded, because the store threw; not issued. *)
Lemma permitted_cases (env : Env) (w : World) :
  truthy (trim (name (w_app w))) = true -> (count (w_app w) < 2)%Z ->
  let w' := (handleGenerate env w).2 in
  let key := storageKeyOf (ip (w_app w)) in
  ((attempt env w).1 = Ok tt
   /\ setItem_throws env (w_localStorage w) key (issuedRecord env w) = false
   /\ w_app w' = {| name := []; ip := ip (w_app w); count := count (w_app w) + 1;
                    loading := false; error := None; isSuccess := true |}
   /\ w_localStorage w' = <[key := issuedRecord env w]> (w_localStorage w))
  \/ ((attempt env w).1 = Ok tt
      /\ setItem_throws env (w_localStorage w) key (issuedRecord env w) = true
      /\ w_app w' = {| name := name (w_app w); ip := ip (w_app w);
                       count := count (w_app w) + 1; loading := false;
                       error := Some pdfErrorMessage;
                       isSuccess := isSuccess (w_app w) |}
      /\ w_localStorage w' = w_localStorage w)
  \/ ((exists e, (attempt env w).1 = Throw e)
      /\ w_app w' = {| name := name (w_app w); ip := ip (w_app w);
                       count := count (w_app w); loading := false;
                       error := Some pdfErrorMessage;
                       isSuccess := isSuccess (w_app w) |}
      /\ w_localStorage w' = w_localStorage w).
Proof.
  intros H Hc w' key.
  destruct (permitted_outcome env w H Hc) as (_ & _ & Ho). fold w' key in Ho.
  destruct (attempt env w).1 as [[]|e].
  - destruct (setItem_throws env (w_localStorage w) key (issuedRecord env w));
      destruct Ho as (Ha & Hs); [right; left | left]; repeat split; assumption.
  - destruct Ho as (Ha & Hs). right. right. split; [eauto|]. split; assumption.
Qed.

(** ** The submit handler: claims *)

(** C10. When the name is empty or only whitespace, the submit handler
    returns at once: it generates no message, makes and delivers no
    document, leaves the counter, the stored record and the form state as
    they were, and sets no error.  Only the default action of the event is
    prevented. *)
Theorem blank_name_is_noop :
  forall (env : Env) (w : World),
    truthy (trim (name (w_app w))) = false ->
    handleGenerate env w = (Ok tt, set_defaultPrevented (fun _ => true) w)
    /\ (let w' := (handleGenerate env w).2 in
        w_app w' = w_app w /\ w_network w' = w_network w
        /\ w_doc w' = w_doc w /\ w_pastDocs w' = w_pastDocs w
        /\ w_localStorage w' = w_localStorage w
        /\ w_console w' = w_console w /\ w_timers w' = w_timers w).
Proof.
  intros env w H. rewrite (handleGenerate_blank env w H).
  split; [reflexivity|]. cbv zeta. repeat split.
Qed.

Lemma blank_name_is_noop_witness :
  let w := typed (js "   ") mounted in
  truthy (trim (name (w_app w))) = false
  /\ handleGenerate Offline.env w = (Ok tt, set_defaultPrevented (fun _ => true) w).
Proof.
  intro w. split; [vm_compute; reflexivity|].
  apply (blank_name_is_noop Offline.env w). vm_compute. reflexivity.
Defined.

(** C7. The display shows [max(0, 2 - count)], that is 2, 1, 0, 0 for the
    counts 0, 1, 2, 3; the form gives way to the limit panel, and a
    submission with a name is blocked, exactly when [count >= 2]. *)
Theorem remaining_display_and_gate :
  map remaining [0; 1; 2; 3]%Z = [2; 1; 0; 0]%Z
  /\ (forall s : AppState,
        v_remaining (render s) = Z.max 0 (2 - count s)
        /\ (v_panel (render s) = LimitPanel <-> (2 <= count s)%Z))
  /\ (forall (env : Env) (w : World),
        truthy (trim (name (w_app w))) = true ->
        (handleGenerate env w = (Ok tt, blockedWorld w) <-> (2 <= count (w_app w))%Z)).
Proof.
  split; [reflexivity|]. split.
  - intro s. split; [reflexivity|].
    unfold render, limitReached. cbv beta iota delta [v_panel].
    rewrite Z.geb_leb. destruct (Z.leb_spec 2 (count s)); split; intro; try lia;
      try reflexivity; discriminate.
  - intros env w H. split.
    + intro Hb. destruct (Z_lt_ge_dec (count (w_app w)) 2) as [Hc|Hc]; [|lia].
      exfalso.
      destruct (permitted_outcome env w H Hc) as (Hd & _).
      rewrite Hb in Hd. cbv beta iota delta [snd] in Hd.
      exact (cons_neq _ _ (eq_sym Hd)).
    + intro Hc. apply handleGenerate_blocked; assumption.
Qed.

(** C6, as the code has it.  The gate lets the first two issuing calls of a
    client through and blocks the third: from a count of 0 the first and the
    second submission each reach the renderer, and once both have been
    delivered (the count is 2) the third is blocked. *)
Theorem gate_permits_two_then_blocks :
  forall (env : Env) (w : World) (n1 n2 n3 : jsstring),
    count (w_app w) = 0%Z ->
    truthy (trim n1) = true -> truthy (trim n2) = true -> truthy (trim n3) = true ->
    let w1 := submit env n1 w in
    let w2 := submit env n2 w1 in
    w_pastDocs w1 = w_doc w :: w_pastDocs w
    /\ w_pastDocs w2 = w_doc w1 :: w_pastDocs w1
    /\ (count (w_app w2) = 2%Z ->
        handleGenerate env (typed n3 w2) = (Ok tt, blockedWorld (typed n3 w2))
        /\ count (w_app (submit env n3 w2)) = 2%Z
        /\ error (w_app (submit env n3 w2)) = Some limitMessage
        /\ w_pastDocs (submit env n3 w2) = w_pastDocs w2).
Proof.
  intros env w n1 n2 n3 H0 H1 H2 H3 w1 w2.
  assert (P1 : (count (w_app (typed n1 w)) < 2)%Z) by (simpl; lia).
  destruct (permitted_outcome env (typed n1 w) H1 P1) as (Hd1 & _ & _).
  fold (submit env n1 w) in Hd1. fold w1 in Hd1.
  assert (C1 : (count (w_app w1) <= 1)%Z).
  { unfold w1, submit.
    destruct (permitted_cases env (typed n1 w) H1 P1)
      as [(_ & _ & -> & _)|[(_ & _ & -> & _)|(_ & -> & _)]]; simpl; lia. }
  assert (P2 : (count (w_app (typed n2 w1)) < 2)%Z) by (simpl; lia).
  destruct (permitted_outcome env (typed n2 w1) H2 P2) as (Hd2 & _ & _).
  fold (submit env n2 w1) in Hd2. fold w2 in Hd2.
  split; [exact Hd1|]. split; [exact Hd2|].
  intro C2.
  assert (Hb : handleGenerate env (typed n3 w2) = (Ok tt, blockedWorld (typed n3 w2))).
  { apply handleGenerate_blocked; [exact H3 | simpl; lia]. }
  split; [exact Hb|]. unfold submit. rewrite Hb.
  repeat split. simpl. exact C2.
Qed.

Lemma gate_permits_two_then_blocks_witness :
  let w1 := submit Offline.env (js "Ada") mounted in
  let w2 := submit Offline.env (js "Grace") w1 in
  count (w_app mounted) = 0%Z
  /\ count (w_app w2) = 2%Z
  /\ handleGenerate Offline.env (typed (js "Alan") w2)
     = (Ok tt, blockedWorld (typed (js "Alan") w2)).
Proof.
  intros w1 w2. split; [vm_compute; reflexivity|].
  split; [vm_compute; reflexivity|].
  apply (gate_permits_two_then_blocks Offline.env mounted (js "Ada") (js "Grace") (js "Alan"));
    vm_compute; reflexivity.
Defined.

(** C6, as stated, fails: with two certificates issued, the third call of
    the same client is already blocked. *)
Lemma third_call_is_blocked :
  let w2 := submit Offline.env (js "Grace") (submit Offline.env (js "Ada") mounted) in
  let w3 := submit Offline.env (js "Alan") w2 in
  count (w_app w2) = 2%Z
  /\ error (w_app w3) = Some limitMessage
  /\ w_doc w3 = w_doc w2 /\ w_pastDocs w3 = w_pastDocs w2
  /\ w_localStorage w3 = w_localStorage w2.
Proof. vm_compute. repeat split. Qed.

(** C1, as the code has it.  For a submission with a name that the gate lets
    through (the count is below 2), the handler makes one document; it is
    saved at most once, and exactly once, under the derived file name, when
    generation and delivery end normally.  In that case the counter goes to
    [count + 1] and the handler writes the record of [count + 1] under the
    client key: when the store takes it, that record is what the key holds;
    when [localStorage.setItem] throws, nothing is stored and the PDF error
    is shown.  When generation or delivery throws, the counter and the store
    are unchanged.  No other key of the store is ever touched. *)
Theorem permitted_issuance_counts :
  forall (env : Env) (w : World),
    truthy (trim (name (w_app w))) = true ->
    (count (w_app w) < 2)%Z ->
    let w' := (handleGenerate env w).2 in
    let key := storageKeyOf (ip (w_app w)) in
    let record := JSON_stringify env {| us_count := count (w_app w) + 1;
                                        us_lastGenerated := toISOString env |} in
    w_pastDocs w' = w_doc w :: w_pastDocs w
    /\ (length (savedFiles (d_ops (w_doc w'))) <= 1)%nat
    /\ (forall k, k <> key -> w_localStorage w' !! k = w_localStorage w !! k)
    /\ match (attempt env w).1 with
       | Ok _ =>
           savedFiles (d_ops (w_doc w')) = [safeFileName (name (w_app w)) ++ fileSuffix]
           /\ count (w_app w') = (count (w_app w) + 1)%Z
           /\ if setItem_throws env (w_localStorage w) key record
              then w_localStorage w' = w_localStorage w
                   /\ error (w_app w') = Some pdfErrorMessage
                   /\ isSuccess (w_app w') = isSuccess (w_app w)
              else w_localStorage w' !! key = Some record
                   /\ error (w_app w') = None
                   /\ isSuccess (w_app w') = true
       | Throw _ =>
           count (w_app w') = count (w_app w)
           /\ w_localStorage w' = w_localStorage w
           /\ error (w_app w') = Some pdfErrorMessage
       end.
Proof.
  intros env w H Hc w' key record.
  destruct (permitted_outcome env w H Hc) as (Hd & Hdoc & Ho).
  destruct (attempt_frame env w) as (_ & _ & _ & _ & Hn).
  fold w' key in Hd, Hdoc, Ho. rewrite <- Hdoc in Hn.
  change (issuedRecord env w) with record in Ho.
  split; [exact Hd|].
  destruct (attempt env w).1.
  - rewrite Hn. split; [simpl; lia|].
    destruct (setItem_throws env (w_localStorage w) key record);
      destruct Ho as (Ha & Hs); rewrite Ha, Hs.
    + split; [reflexivity|]. repeat split.
    + split.
      { intros k Hk. apply lookup_insert_ne. intro E. apply Hk. symmetry. exact E. }
      split; [reflexivity|]. split; [reflexivity|].
      split; [apply lookup_insert_eq|]. split; reflexivity.
  - destruct Ho as (Ha & Hs). split.
    + destruct Hn as [-> | ->]; simpl; lia.
    + rewrite Ha, Hs. repeat split.
Qed.

Lemma permitted_issuance_counts_witness :
  let w := typed (js "Ada") mounted in
  truthy (trim (name (w_app w))) = true
  /\ (count (w_app w) < 2)%Z
  /\ count (w_app (handleGenerate Offline.env w).2) = 1%Z
  /\ w_localStorage (handleGenerate Offline.env w).2 !! storageKeyOf (ip (w_app w))
     = Some (Offline.stringify {| us_count := 1;
                                  us_lastGenerated := js "2025-01-01T09:00:00.000Z" |})
  /\ count (w_app (handleGenerate Offline.envStoreFull w).2) = 1%Z
  /\ w_localStorage (handleGenerate Offline.envStoreFull w).2 = w_localStorage w
  /\ count (w_app (handleGenerate Offline.envNoSave w).2) = 0%Z.
Proof.
  intro w.
  assert (H : truthy (trim (name (w_app w))) = true) by (vm_compute; reflexivity).
  assert (Hc : (count (w_app w) < 2)%Z) by (vm_compute; reflexivity).
  split; [exact H|]. split; [exact Hc|].
  assert (P : count (w_app (handleGenerate Offline.env w).2) = 1%Z
              /\ w_localStorage (handleGenerate Offline.env w).2
                   !! storageKeyOf (ip (w_app w))
                 = Some (Offline.stringify {| us_count := 1;
                           us_lastGenerated := js "2025-01-01T09:00:00.000Z" |})).
  { pose proof (permitted_issuance_counts Offline.env w H Hc) as P.
    cbv zeta in P. destruct P as (_ & _ & _ & P).
    replace (attempt Offline.env w).1 with (@Ok unit tt) in P by (vm_compute; reflexivity).
    destruct P as (_ & P & Q).
    replace (setItem_throws Offline.env _ _ _) with false in Q by reflexivity.
    destruct Q as (Q & _). split; [rewrite P; vm_compute; reflexivity|].
    rewrite Q. vm_compute. reflexivity. }
  destruct P as (P1 & P2). split; [exact P1|]. split; [exact P2|].
  assert (Q : count (w_app (handleGenerate Offline.envStoreFull w).2) = 1%Z
              /\ w_localStorage (handleGenerate Offline.envStoreFull w).2
                 = w_localStorage w).
  { pose proof (permitted_issuance_counts Offline.envStoreFull w H Hc) as P.
    cbv zeta in P. destruct P as (_ & _ & _ & P).
    replace (attempt Offline.envStoreFull w).1 with (@Ok unit tt) in P
      by (vm_compute; reflexivity).
    destruct P as (_ & P & Q).
    replace (setItem_throws Offline.envStoreFull _ _ _) with true in Q by reflexivity.
    destruct Q as (Q & _). split; [rewrite P; vm_compute; reflexivity | exact Q]. }
  destruct Q as (Q1 & Q2). split; [exact Q1|]. split; [exact Q2|].
  pose proof (permitted_issuance_counts Offline.envNoSave w H Hc) as P.
  cbv zeta in P. destruct P as (_ & _ & _ & P).
  replace (attempt Offline.envNoSave w).1
    with (@Throw unit (DocError (OpSave (js "Ada_GonulluKatilimSertifikasi.pdf")))) in P
    by (vm_compute; reflexivity).
  destruct P as (P & _). rewrite P. vm_compute. reflexivity.
Defined.

(** C1, as stated, fails: a submission with a name made when the count has
    reached 2 produces no document at all (no jsPDF instance is made and
    [doc.save] is not called); a render in which a [doc.text] call throws
    ends without any call of [doc.save]; and when the store is full the
    document is generated and saved, yet no record is persisted. *)
Lemma blocked_or_failed_submission_saves_nothing :
  let w2 := submit Offline.env (js "Grace") (submit Offline.env (js "Ada") mounted) in
  let w := typed (js "Alan") w2 in
  let full := (handleGenerate Offline.envStoreFull (typed (js "Ada") mounted)).2 in
  truthy (trim (name (w_app w))) = true
  /\ w_doc (handleGenerate Offline.env w).2 = w_doc w
  /\ w_pastDocs (handleGenerate Offline.env w).2 = w_pastDocs w
  /\ count (w_app (handleGenerate Offline.env w).2) = count (w_app w)
  /\ savedFiles (d_ops (w_doc (handleGenerate Offline.envNoText (typed (js "Ada") mounted)).2)) = []
  /\ savedFiles (d_ops (w_doc full)) = [js "Ada_GonulluKatilimSertifikasi.pdf"]
  /\ w_localStorage full = w_localStorage mounted
  /\ w_localStorage mounted = ∅.
Proof. vm_compute. repeat split. Qed.


(** ** The file name *)

Lemma replaceEach_app p r (s1 s2 : jsstring) :
  replaceEach p r (s1 ++ s2) = replaceEach p r s1 ++ replaceEach p r s2.
Proof. unfold replaceEach. apply flat_map_app. Qed.

Lemma underscore_units : js "_" = [95].
Proof. vm_compute. reflexivity. Qed.

Lemma safeFileName_one_pass (b : bool) (s : jsstring) :
  replaceEach (fun c => negb (isWordChar c)) (js "_")
    (replaceRunsFrom isWhiteSpace (js "_") b s)
  = underscored b s.
Proof.
  revert b. induction s as [|c s IH]; intro b; [reflexivity|].
  cbn [replaceRunsFrom underscored].
  destruct (isWhiteSpace c).
  - rewrite replaceEach_app, IH. f_equal.
    destruct b; [reflexivity|]. rewrite underscore_units. reflexivity.
  - change (c :: replaceRunsFrom isWhiteSpace (js "_") false s)
      with ([c] ++ replaceRunsFrom isWhiteSpace (js "_") false s).
    rewrite replaceEach_app, IH. f_equal.
    unfold replaceEach. cbn [flat_map]. rewrite app_nil_r.
    destruct (isWordChar c); reflexivity.
Qed.

Lemma underscored_word_chars (b : bool) (s : jsstring) :
  forallb isWordChar (underscored b s) = true.
Proof.
  revert b. induction s as [|c s IH]; intro b; [reflexivity|].
  cbn [underscored].
  destruct (isWhiteSpace c); rewrite forallb_app, IH, andb_true_r.
  - destruct b; [reflexivity|]. rewrite underscore_units. reflexivity.
  - destruct (isWordChar c) eqn:Hc.
    + cbn [forallb]. rewrite Hc. reflexivity.
    + rewrite underscore_units. reflexivity.
Qed.

(** C3, as the code has it.  Whatever the fonts did, the file is saved under
    the name made from the transliterated, trimmed participant name by
    replacing every run of whitespace by one underscore and every other
    character outside [A-Za-z0-9_] by an underscore (it is replaced, not
    removed), followed by the fixed suffix; every character of the stem is in
    the class.  For "Ahmet Yılmaz", fonts failed, the name is
    Ahmet_Yilmaz_GonulluKatilimSertifikasi.pdf. *)
Theorem file_name_derivation :
  forall (env : Env) (input : CertificateInput) (w : World),
    let stem := underscored false (trim (sanitizeText (cd_name (data input)))) in
    let r := (generateCertificatePDF env input w).1 in
    let w' := (generateCertificatePDF env input w).2 in
    safeFileName (cd_name (data input)) = stem
    /\ forallb isWordChar stem = true
    /\ (forall f, In f (savedFiles (d_ops (w_doc w'))) -> f = stem ++ fileSuffix)
    /\ (r = Ok tt -> savedFiles (d_ops (w_doc w')) = [stem ++ fileSuffix])
    /\ (fontsLoaded Offline.env mounted = false
        /\ savedFiles (d_ops (w_doc (generateCertificatePDF Offline.env
              (certificateFor (js "Ahmet Yılmaz") (js "01.01.2025") (Some [])) mounted).2))
           = [js "Ahmet_Yilmaz_GonulluKatilimSertifikasi.pdf"]).
Proof.
  intros env input w stem r w'.
  assert (Hstem : safeFileName (cd_name (data input)) = stem).
  { unfold safeFileName, replaceRuns. apply safeFileName_one_pass. }
  split; [exact Hstem|]. split; [apply underscored_word_chars|].
  pose proof (generateCertificatePDF_saves env w input w eq_refl) as H.
  cbv zeta in H. rewrite Hstem in H. fold stem in H.
  subst r w'. destruct (generateCertificatePDF env input w) as [[[]|e] w1];
    cbv beta iota delta [fst snd]; destruct H as (_ & _ & _ & _ & _ & Hn).
  - rewrite Hn. split; [|split; [reflexivity | vm_compute; split; reflexivity]].
    intros f [<-|[]]. reflexivity.
  - split; [|split; [discriminate | vm_compute; split; reflexivity]].
    destruct Hn as [-> | ->]; intros f; [intros [] | intros [<-|[]]; reflexivity].
Qed.

(** C3, as stated, fails: a character outside the class is not stripped.  For
    O'Neil the file is O_Neil_..., where stripping gives ONeil_.... *)
Lemma apostrophe_is_replaced_not_stripped :
  let input := certificateFor (js "O'Neil") (js "01.01.2025") (Some []) in
  savedFiles (d_ops (w_doc (generateCertificatePDF Offline.env input mounted).2))
  = [js "O_Neil_GonulluKatilimSertifikasi.pdf"]
  /\ strippedFileName (js "O'Neil") = js "ONeil_GonulluKatilimSertifikasi.pdf"
  /\ safeFileName (js "O'Neil") ++ fileSuffix <> strippedFileName (js "O'Neil").
Proof. vm_compute. repeat split. discriminate. Qed.

(** ** The name and the impact message *)


(** * Further properties of the code *)

(** ** The font mirrors *)

Lemma logged_nil (w : World) : logged [] [] w = w.
Proof.
  unfold logged, set_console, set_network. destruct w; simpl.
  rewrite !app_nil_r. reflexivity.
Qed.

Lemma logged_logged net1 con1 net2 con2 w :
  logged net2 con2 (logged net1 con1 w) = logged (net1 ++ net2) (con1 ++ con2) w.
Proof.
  unfold logged, set_console, set_network. simpl. rewrite !app_assoc. reflexivity.
Qed.

(** One round of the loop of [fetchFirstAvailable]. *)
Lemma fetchMirrors_cons (env : Env) (url : jsstring) (rest : list jsstring)
      (lastErr : option JsError) (w : World) :
  fetchMirrors env (url :: rest) lastErr w =
  match mirrorBody env url with
  | Some buf => (Ok buf, logged [NetFetch url] [] w)
  | None =>
      fetchMirrors env rest (Some (mirrorError env url))
        (logged [NetFetch url] [mirrorWarning env url] w)
  end.
Proof.
  cbn [fetchMirrors]. rewrite bind_run. unfold try_catch, do_fetch.
  rewrite !bind_run. unfold modify, mirrorBody, mirrorError, mirrorWarning, logged.
  unfold mirrorError.
  destruct (fetch env url) as [|[|] status [buf|]];
    unfold throw, mret, JS_ret, ret, console_warn, modify; rewrite ?bind_run;
    cbv beta iota delta [negb];
    unfold throw, mret, JS_ret, ret, console_warn, modify; rewrite ?bind_run.
  - f_equal.
  - destruct w; unfold set_console, set_network; simpl; rewrite app_nil_r; reflexivity.
  - reflexivity.
  - reflexivity.
  - reflexivity.
Qed.

Lemma fetchMirrors_run (env : Env) (urls : list jsstring) (lastErr : option JsError)
      (w : World) :
  match fetchMirrors env urls lastErr w with
  | (Ok buf, w') =>
      exists pre url post,
        urls = pre ++ url :: post
        /\ Forall (fun u => mirrorBody env u = None) pre
        /\ mirrorBody env url = Some buf
        /\ w' = logged (map NetFetch (pre ++ [url])) (map (mirrorWarning env) pre) w
  | (Throw e, w') =>
      Forall (fun u => mirrorBody env u = None) urls
      /\ e = default AllMirrorsFailed
               (match last urls with
                | Some u => Some (mirrorError env u)
                | None => lastErr
                end)
      /\ w' = logged (map NetFetch urls) (map (mirrorWarning env) urls) w
  end.
Proof.
  revert lastErr w. induction urls as [|url rest IH]; intros lastErr w.
  - cbn [fetchMirrors]. unfold throw. rewrite logged_nil. repeat split. constructor.
  - rewrite fetchMirrors_cons. destruct (mirrorBody env url) as [buf|] eqn:Hb.
    + exists [], url, rest. repeat split; [constructor | exact Hb].
    + specialize (IH (Some (mirrorError env url))
                     (logged [NetFetch url] [mirrorWarning env url] w)).
      destruct (fetchMirrors env rest _ _) as [[buf|e] w'].
      * destruct IH as (pre & u & post & -> & Hpre & Hu & ->).
        exists (url :: pre), u, post. repeat split.
        -- constructor; assumption.
        -- exact Hu.
        -- rewrite logged_logged. reflexivity.
      * destruct IH as (Hall & -> & ->). repeat split.
        -- constructor; assumption.
        -- rewrite last_cons. destruct (last rest); reflexivity.
        -- rewrite logged_logged. reflexivity.
Qed.

(** X2 ([fetchFirstAvailable]). The mirrors are tried strictly in order, and
    the result is the body of the first one that answers ok with a readable
    body: every mirror before it was requested once, failed and was warned
    about, none after it is requested.  When no mirror gives a body, all were
    requested and warned about, and the error thrown is the one of the last
    mirror (or the fixed one for an empty list). *)
Theorem fetchFirstAvailable_first_success :
  forall (env : Env) (urls : list jsstring) (w : World),
    match fetchFirstAvailable env urls w with
    | (Ok buf, w') =>
        exists pre url post,
          urls = pre ++ url :: post
          /\ Forall (fun u => mirrorBody env u = None) pre
          /\ mirrorBody env url = Some buf
          /\ w_network w' = w_network w ++ map NetFetch (pre ++ [url])
          /\ w_console w' = w_console w ++ map (mirrorWarning env) pre
    | (Throw e, w') =>
        Forall (fun u => mirrorBody env u = None) urls
        /\ e = match last urls with
               | Some u => mirrorError env u
               | None => AllMirrorsFailed
               end
        /\ w_network w' = w_network w ++ map NetFetch urls
        /\ w_console w' = w_console w ++ map (mirrorWarning env) urls
    end.
Proof.
  intros env urls w. unfold fetchFirstAvailable.
  pose proof (fetchMirrors_run env urls None w) as H.
  destruct (fetchMirrors env urls None w) as [[buf|e] w'].
  - destruct H as (pre & url & post & Hu & Hpre & Hb & ->).
    exists pre, url, post. repeat split; assumption.
  - destruct H as (Hall & -> & ->). repeat split; [assumption|].
    destruct (last urls); reflexivity.
Qed.

(** ** The decorations *)

Lemma set_doc_appendOps_nil (w : World) : set_doc (appendOps []) w = w.
Proof.
  destruct w as [a d p c n s t v]. destruct d. unfold set_doc, appendOps. simpl.
  rewrite app_nil_r. reflexivity.
Qed.

Lemma set_doc_appendOps_app (l1 l2 : list DocOp) (w : World) :
  set_doc (appendOps l2) (set_doc (appendOps l1) w) = set_doc (appendOps (l1 ++ l2)) w.
Proof.
  unfold set_doc, appendOps. simpl. rewrite app_assoc. reflexivity.
Qed.

Lemma shapes_ret {A} (a : A) : shapes 0 (mret a).
Proof.
  intro w. exists []. rewrite set_doc_appendOps_nil. repeat split; auto.
Qed.

Lemma shapes_call (env : Env) (op : DocOp) : isShape op = true -> shapes 1 (call env op).
Proof.
  intros Hop w. exists [op]. unfold call.
  destruct (doc_throws env _ _); cbn [fst snd]; repeat split; auto;
    cbn [forallb]; rewrite Hop; reflexivity.
Qed.

Lemma shapes_bind {A B} (n1 n2 : nat) (m : JS A) (k : A -> JS B) :
  shapes n1 m -> (forall a, shapes n2 (k a)) -> shapes (n1 + n2) (m ≫= k).
Proof.
  intros Hm Hk w. rewrite bind_run.
  destruct (Hm w) as (l1 & Hw1 & Hs1 & Hl1 & Hn1).
  destruct (m w) as [[a|e] w1]; cbn [fst snd] in *.
  - destruct (Hk a w1) as (l2 & Hw2 & Hs2 & Hl2 & Hn2).
    exists (l1 ++ l2). rewrite Hw2. subst w1. rewrite set_doc_appendOps_app.
    split; [reflexivity|]. split; [rewrite forallb_app, Hs1, Hs2; reflexivity|].
    rewrite length_app. specialize (Hn1 a eq_refl). split; [lia|].
    intros b Hb. rewrite (Hn2 b Hb). lia.
  - exists l1. split; [exact Hw1|]. split; [exact Hs1|]. split; [lia|].
    intros b Hb. discriminate.
Qed.

Lemma shapes_forEach {A} (n : nat) (xs : list A) (body : A -> JS unit) :
  (forall x, shapes n (body x)) -> shapes (length xs * n) (forEach xs body).
Proof.
  intro Hb. induction xs as [|x xs IH]; cbn [forEach length Nat.mul].
  - apply shapes_ret.
  - apply shapes_bind; [apply Hb | intros _; exact IH].
Qed.

Ltac shapes_auto :=
  repeat lazymatch goal with
  | |- shapes _ (call _ _ ≫= _) =>
      apply (shapes_bind 1); [apply shapes_call; reflexivity | intros _]
  | |- shapes _ (call _ _) => apply shapes_call; reflexivity
  end.

Lemma shapes_drawAtom (env : Env) (x y scale : Q) :
  shapes 12 (drawAtom env x y scale).
Proof. unfold drawAtom. shapes_auto. Qed.

Lemma shapes_drawDNAHelix (env : Env) (x y height scale : Q) :
  shapes 72 (drawDNAHelix env x y height scale).
Proof.
  unfold drawDNAHelix. cbv zeta.
  apply (shapes_forEach 6 (seq 0 12)). intro i. shapes_auto.
Qed.

Lemma shapes_drawMicroscope (env : Env) (x y scale : Q) :
  shapes 10 (drawMicroscope env x y scale).
Proof. unfold drawMicroscope. shapes_auto. Qed.

(** X4 ([drawAtom], [drawDNAHelix], [drawMicroscope]). A decoration only
    sends colour, line-width and shape calls to the document (no text, no
    font, no save) and leaves everything else as it was: 12, 72 and 10 calls
    when it ends normally, fewer when a call throws. *)
Theorem decorations_only_draw_shapes :
  forall (env : Env) (x y height scale : Q),
    shapes 12 (drawAtom env x y scale)
    /\ shapes 72 (drawDNAHelix env x y height scale)
    /\ shapes 10 (drawMicroscope env x y scale).
Proof.
  intros env x y height scale. split; [|split].
  - apply shapes_drawAtom.
  - apply shapes_drawDNAHelix.
  - apply shapes_drawMicroscope.
Qed.

(** ** Loading the fonts *)

Lemma firstBody_found env pre url post buf :
  Forall (fun u => mirrorBody env u = None) pre -> mirrorBody env url = Some buf ->
  firstBody env (pre ++ url :: post) = Some buf.
Proof.
  intros Hpre Hu. induction Hpre as [|u pre Hu' _ IH]; simpl.
  - rewrite Hu. reflexivity.
  - rewrite Hu'. exact IH.
Qed.

Lemma firstBody_none env urls :
  Forall (fun u => mirrorBody env u = None) urls -> firstBody env urls = None.
Proof.
  intros H. induction H as [|u urls Hu _ IH]; simpl; [reflexivity|].
  rewrite Hu. exact IH.
Qed.

Lemma fetchMirrors_firstBody (env : Env) (urls : list jsstring) (w : World) :
  exists net con,
    (fetchMirrors env urls None w).2 = logged net con w
    /\ match firstBody env urls with
       | Some buf => (fetchMirrors env urls None w).1 = Ok buf
       | None => (exists e, (fetchMirrors env urls None w).1 = Throw e)
                 /\ net = map NetFetch urls
       end.
Proof.
  pose proof (fetchMirrors_run env urls None w) as H.
  destruct (fetchMirrors env urls None w) as [[buf|e] w'].
  - destruct H as (pre & url & post & -> & Hpre & Hb & ->).
    do 2 eexists. split; [reflexivity|].
    rewrite (firstBody_found env pre url post buf Hpre Hb). reflexivity.
  - destruct H as (Hall & _ & ->). do 2 eexists. split; [reflexivity|].
    rewrite (firstBody_none env urls Hall). split; [eauto | reflexivity].
Qed.

Lemma call_bind_run {B} (env : Env) (op : DocOp) (k : unit -> JS B) (w : World) :
  (call env op ≫= k) w =
  if doc_throws env (d_ops (w_doc w)) op
  then (Throw (DocError op), set_doc (recordOp op) w)
  else k tt (set_doc (recordOp op) w).
Proof.
  rewrite bind_run. unfold call. destruct (doc_throws env _ _); reflexivity.
Qed.

Lemma console_error_then {B} net con msg e (b : B) w :
  (console_error msg e ≫= fun _ => mret b) (logged net con w)
  = (Ok b, logged net (con ++ [{| log_level := levelError; log_msg := msg;
                                  log_err := e |}]) w).
Proof.
  rewrite bind_run.
  unfold console_error, modify, logged, set_console, set_network, mret, JS_ret, ret.
  simpl. rewrite app_assoc. reflexivity.
Qed.

Lemma record_logged op net con l w :
  set_doc (recordOp op) (logged net con (set_doc (appendOps l) w))
  = logged net con (set_doc (appendOps (l ++ [op])) w).
Proof.
  unfold set_doc, recordOp, logged, appendOps, set_console, set_network. simpl.
  rewrite app_assoc. reflexivity.
Qed.

(** Every way through [loadCustomFonts]: it ends normally, having written to
    the network log and the console and sent the calls [l] to the document. *)
Lemma loadCustomFonts_run (env : Env) (w : World) :
  exists b net con l,
    loadCustomFonts env w = (Ok b, logged net con (set_doc (appendOps l) w))
    /\ (b = false -> exists e, last con = Some (criticalEntry e))
    /\ match firstBody env regularMirrors, firstBody env boldMirrors with
       | Some regularBuf, Some boldBuf =>
           l `prefix_of` fontCalls env regularBuf boldBuf
           /\ (b = true -> l = fontCalls env regularBuf boldBuf)
       | Some _, None => b = false /\ l = []
       | None, _ => b = false /\ l = [] /\ net = map NetFetch regularMirrors
       end.
Proof.
  unfold loadCustomFonts, try_catch, fetchFirstAvailable.
  rewrite bind_run.
  change [js "https://cdnjs.cloudflare.com/ajax/libs/pdfmake/0.1.66/fonts/Roboto/Roboto-Regular.ttf";
          js "https://fonts.gstatic.com/s/roboto/v30/KFOmCnqEu92Fr1Me5Q.ttf"]
    with regularMirrors.
  change [js "https://cdnjs.cloudflare.com/ajax/libs/pdfmake/0.1.66/fonts/Roboto/Roboto-Medium.ttf";
          js "https://fonts.gstatic.com/s/roboto/v30/KFOlCnqEu92Fr1MmWUlfBBc4.ttf"]
    with boldMirrors.
  destruct (fetchMirrors_firstBody env regularMirrors w) as (net1 & con1 & Hw1 & H1).
  destruct (fetchMirrors env regularMirrors None w) as [r1 w1].
  cbv beta iota delta [fst snd] in Hw1, H1. subst w1.
  destruct (firstBody env regularMirrors) as [regularBuf|].
  - subst r1. rewrite bind_run.
    destruct (fetchMirrors_firstBody env boldMirrors (logged net1 con1 w))
      as (net2 & con2 & Hw2 & H2).
    destruct (fetchMirrors env boldMirrors None _) as [r2 w2].
    cbv beta iota delta [fst snd] in Hw2, H2. subst w2.
    rewrite logged_logged.
    destruct (firstBody env boldMirrors) as [boldBuf|].
    + subst r2. cbv zeta.
      generalize (net1 ++ net2) (con1 ++ con2). intros net con.
      replace (logged net con w) with (logged net con (set_doc (appendOps []) w))
        by (rewrite set_doc_appendOps_nil; reflexivity).
      unfold fontCalls.
      repeat (rewrite call_bind_run, record_logged; cbn [app];
              match goal with
              | |- context [doc_throws env ?h ?op] => destruct (doc_throws env h op)
              end;
              [ rewrite console_error_then;
                do 4 eexists; split; [reflexivity|];
                split; [intros _; eexists; apply last_snoc|];
                split; [|intro; discriminate];
                repeat (apply prefix_cons); apply prefix_nil
              | ]).
      do 4 eexists. split; [reflexivity|].
      split; [intro; discriminate|].
      split; [reflexivity | intros _; reflexivity].
    + destruct H2 as ((e & He) & _). subst r2.
      rewrite console_error_then.
      do 3 eexists. exists []. split; [rewrite set_doc_appendOps_nil; reflexivity|].
      split; [intros _; eexists; apply last_snoc|].
      split; reflexivity.
  - destruct H1 as ((e & He) & Hnet). subst r1.
    rewrite console_error_then.
    do 3 eexists. exists []. split; [rewrite set_doc_appendOps_nil; reflexivity|].
    split; [intros _; eexists; apply last_snoc|].
    split; [reflexivity|]. split; [reflexivity|]. exact Hnet.
Qed.

(** X3 ([loadCustomFonts]). Loading the fonts never throws and touches
    neither the form state, the store, the timers nor the current font of the
    document.  An answer [false] is always announced by the CRITICAL console
    error.  The document receives the four registration calls, in order, when
    the answer is [true], a prefix of them when a call threw, and nothing at
    all when a font could not be fetched; the bold font is not even requested
    when the regular one could not be fetched. *)
Theorem loadCustomFonts_outcome :
  forall (env : Env) (w : World),
    exists b w',
      loadCustomFonts env w = (Ok b, w')
      /\ w_app w' = w_app w /\ w_pastDocs w' = w_pastDocs w
      /\ w_localStorage w' = w_localStorage w /\ w_timers w' = w_timers w
      /\ d_family (w_doc w') = d_family (w_doc w)
      /\ d_style (w_doc w') = d_style (w_doc w)
      /\ d_fontSize (w_doc w') = d_fontSize (w_doc w)
      /\ (b = false -> exists e, last (w_console w') = Some (criticalEntry e))
      /\ match firstBody env regularMirrors, firstBody env boldMirrors with
         | Some regularBuf, Some boldBuf =>
             exists l, d_ops (w_doc w') = d_ops (w_doc w) ++ l
                       /\ l `prefix_of` fontCalls env regularBuf boldBuf
                       /\ (b = true -> l = fontCalls env regularBuf boldBuf)
         | Some _, None => b = false /\ d_ops (w_doc w') = d_ops (w_doc w)
         | None, _ =>
             b = false /\ d_ops (w_doc w') = d_ops (w_doc w)
             /\ w_network w' = w_network w ++ map NetFetch regularMirrors
         end.
Proof.
  intros env w.
  destruct (loadCustomFonts_run env w) as (b & net & con & l & Hrun & Hcon & Hcase).
  exists b, (logged net con (set_doc (appendOps l) w)).
  split; [exact Hrun|]. repeat (split; [reflexivity|]).
  split.
  { intro Hb. destruct (Hcon Hb) as (e & He). exists e.
    unfold logged, set_console. cbn [w_console]. 
    destruct con as [|c con] using rev_ind; [discriminate|].
    rewrite app_assoc, last_snoc. rewrite last_snoc in He. exact He. }
  destruct (firstBody env regularMirrors) as [regularBuf|].
  - destruct (firstBody env boldMirrors) as [boldBuf|].
    + destruct Hcase as (Hp & Hl). exists l. repeat split; assumption.
    + destruct Hcase as (Hb & ->). split; [exact Hb|]. simpl. apply app_nil_r.
  - destruct Hcase as (Hb & -> & ->). split; [exact Hb|].
    split; [simpl; apply app_nil_r | reflexivity].
Qed.

(** ** Encoding a font file *)

Lemma appendChunks_all (rounds : nat) (bytes binary : list N) :
  (length bytes <= rounds)%nat -> appendChunks rounds bytes binary = binary ++ bytes.
Proof.
  revert bytes binary. induction rounds as [|rounds IH]; intros bytes binary Hlen.
  - destruct bytes; [|simpl in Hlen; lia]. simpl. rewrite app_nil_r. reflexivity.
  - destruct bytes as [|b bytes]; [simpl; rewrite app_nil_r; reflexivity|].
    cbn [appendChunks].
    assert (Hc : (1 <= N.to_nat chunkSize)%nat) by (unfold chunkSize; lia).
    generalize dependent (N.to_nat chunkSize). intros c Hc.
    rewrite IH.
    + rewrite <- app_assoc, firstn_skipn. reflexivity.
    + rewrite length_skipn. simpl in *. lia.
Qed.

(** X1 ([arrayBufferToBase64]). Cutting the buffer into chunks of 0x8000
    bytes is invisible: the result is [btoa] of the whole buffer as one
    binary string, whatever its length. *)
Theorem arrayBufferToBase64_encodes_whole_buffer :
  forall (env : Env) (buffer : list N),
    arrayBufferToBase64 env buffer = btoa env buffer.
Proof.
  intros env buffer. unfold arrayBufferToBase64.
  rewrite appendChunks_all by lia. reflexivity.
Qed.

(** ** The file name *)

Lemma length_sanitizeText (s : jsstring) : length (sanitizeText s) = length s.
Proof. rewrite sanitizeText_map. apply length_map. Qed.

Lemma length_trimStart (s : jsstring) : (length (trimStart s) <= length s)%nat.
Proof.
  induction s as [|c s IH]; simpl; [lia|]. destruct (isWhiteSpace c); simpl; lia.
Qed.

Lemma length_trim (s : jsstring) : (length (trim s) <= length s)%nat.
Proof.
  unfold trim, trimEnd. rewrite length_rev.
  etransitivity; [apply length_trimStart|]. rewrite length_rev. apply length_trimStart.
Qed.

Lemma length_underscored (b : bool) (s : jsstring) :
  (length (underscored b s) <= length s)%nat.
Proof.
  revert b. induction s as [|c s IH]; intro b; [simpl; lia|].
  cbn [underscored]. rewrite underscore_units.
  destruct (isWhiteSpace c); [destruct b | destruct (isWordChar c)];
    rewrite length_app; cbn [length];
    match goal with |- context [underscored ?x s] => specialize (IH x) end; lia.
Qed.

Lemma wordChar_bounds (c : N) :
  isWordChar c = true -> 48 <= c <= 122.
Proof.
  unfold isWordChar.
  rewrite !orb_true_iff, !andb_true_iff, !N.leb_le, N.eqb_eq. lia.
Qed.

Lemma wordChar_not_whiteSpace (c : N) : isWordChar c = true -> isWhiteSpace c = false.
Proof.
  intro H. apply wordChar_bounds in H. apply not_true_is_false. unfold isWhiteSpace.
  rewrite !orb_true_iff, !andb_true_iff, !N.leb_le, !N.eqb_eq. lia.
Qed.

Lemma wordChar_sanitizeUnit (c : N) : isWordChar c = true -> sanitizeUnit c = c.
Proof.
  intro H. apply wordChar_bounds in H. rewrite sanitizeUnit_units.
  repeat match goal with
  | |- context [substUnit ?k ?d c] => rewrite (substUnit_other k d c) by lia
  end.
  reflexivity.
Qed.

Lemma trimStart_word (s : jsstring) :
  forallb isWordChar s = true -> trimStart s = s.
Proof.
  destruct s as [|c s]; [reflexivity|]. cbn [forallb trimStart].
  intro H. apply andb_true_iff in H. destruct H as [Hc _].
  rewrite (wordChar_not_whiteSpace c Hc). reflexivity.
Qed.

Lemma forallb_rev {A} (p : A -> bool) (l : list A) : forallb p (rev l) = forallb p l.
Proof.
  induction l as [|x l IH]; [reflexivity|]. simpl.
  rewrite forallb_app, IH. simpl. rewrite andb_true_r. apply andb_comm.
Qed.

Lemma trim_word (s : jsstring) : forallb isWordChar s = true -> trim s = s.
Proof.
  intro H. unfold trim, trimEnd. rewrite (trimStart_word s H).
  rewrite trimStart_word by (rewrite forallb_rev; exact H). apply rev_involutive.
Qed.

Lemma sanitizeText_word (s : jsstring) : forallb isWordChar s = true -> sanitizeText s = s.
Proof.
  intro H. rewrite sanitizeText_map.
  induction s as [|c s IH]; [reflexivity|]. cbn [forallb] in H.
  apply andb_true_iff in H. destruct H as [Hc Hs].
  cbn [map]. rewrite (wordChar_sanitizeUnit c Hc), (IH Hs). reflexivity.
Qed.

Lemma underscored_word (s : jsstring) :
  forallb isWordChar s = true -> underscored false s = s.
Proof.
  induction s as [|c s IH]; [reflexivity|]. cbn [forallb]. intro H.
  apply andb_true_iff in H. destruct H as [Hc Hs].
  cbn [underscored]. rewrite (wordChar_not_whiteSpace c Hc), Hc, (IH Hs). reflexivity.
Qed.

(** X7 (the file name of [generateCertificatePDF]). Deriving the file name
    from a derived file name changes nothing, and the derived name is never
    longer than the participant's name. *)
Theorem safeFileName_idempotent_and_short :
  forall name : jsstring,
    safeFileName (safeFileName name) = safeFileName name
    /\ (length (safeFileName name) <= length name)%nat.
Proof.
  intro name.
  assert (Hone : forall n, safeFileName n = underscored false (trim (sanitizeText n))).
  { intro n. unfold safeFileName, replaceRuns. apply safeFileName_one_pass. }
  assert (Hw : forallb isWordChar (safeFileName name) = true).
  { rewrite Hone. apply underscored_word_chars. }
  split.
  - rewrite (Hone (safeFileName name)).
    rewrite (sanitizeText_word _ Hw), (trim_word _ Hw). apply underscored_word, Hw.
  - rewrite Hone. etransitivity; [apply length_underscored|].
    etransitivity; [apply length_trim|]. rewrite length_sanitizeText. lia.
Qed.

(** ** The message composer *)


(** ** The handler and the mount effect *)

Lemma permitted_finish (env : Env) (w : World) :
  truthy (trim (name (w_app w))) = true -> (count (w_app w) < 2)%Z ->
  let w' := (handleGenerate env w).2 in
  (handleGenerate env w).1 = Ok tt
  /\ w_defaultPrevented w' = true
  /\ loading (w_app w') = false
  /\ match (attempt env w).1 with
     | Ok _ =>
         if setItem_throws env (w_localStorage w) (storageKeyOf (ip (w_app w)))
                           (issuedRecord env w)
         then w_timers w' = w_timers w
         else w_timers w' = w_timers w ++ [(5000%Z, ClearSuccess)]
     | Throw _ => w_timers w' = w_timers w
     end.
Proof.
  intros H Hc w'. subst w'. rewrite (handleGenerate_permitted env w H Hc).
  destruct (attempt_frame env w) as (_ & Hs & Ht & _ & _).
  assert (Hv : w_defaultPrevented (attempt env w).2 = true).
  { unfold attempt. rewrite bind_run.
    set (wp := ((modify (set_defaultPrevented (fun _ => true)) ;; setLoading true ;;
                 setError None) w).2).
    destruct (generateImpactMessage_run env (name (w_app w)) wp)
      as (msg & w1 & Hrun & _ & _ & _ & _ & _ & Hv & _).
    rewrite Hrun.
    pose proof (generateCertificatePDF_saves env w1
                  {| data := {| cd_name := name (w_app w);
                                cd_date := toLocaleDateString_tr env;
                                cd_impactMessage := Some msg |};
                     extras := noExtras |} w1 eq_refl) as Hgen.
    cbv zeta in Hgen.
    destruct (generateCertificatePDF env _ w1) as [[[]|e] w2];
      destruct Hgen as (_ & _ & _ & Gv & _); cbv beta iota delta [snd];
      rewrite Gv, Hv; reflexivity. }
  generalize (issuedRecord env w) as record. intro record.
  destruct (attempt env w) as [[[]|e] w1]; cbv beta iota zeta delta [fst snd] in *.
  - unfold setCount, modify. cbv beta iota delta [fst snd].
    change (w_localStorage (set_app _ w1)) with (w_localStorage w1). rewrite Hs.
    destruct (setItem_throws env (w_localStorage w) _ record);
      unfold setLoading, setTimeout, setName, setIsSuccess, setError, console_error, modify;
      cbv beta iota delta [fst snd]; simpl; rewrite Ht, Hv; repeat split.
  - unfold setLoading, setError, console_error, modify;
      cbv beta iota delta [fst snd]; simpl; rewrite Ht, Hv; repeat split.
Qed.

(** X10 ([handleGenerate]). The handler never throws and always prevents
    the default submission.  A submission that passes both guards always
    ends with [loading] reset, in one of two states: success (success flag
    set, no error, the name cleared, one timer of 5000 ms to clear the flag)
    or failure (the PDF error message shown, the name and the success flag
    kept, no timer). *)
Theorem handleGenerate_never_throws :
  forall (env : Env) (w : World),
    let w' := (handleGenerate env w).2 in
    (handleGenerate env w).1 = Ok tt
    /\ w_defaultPrevented w' = true
    /\ (truthy (trim (name (w_app w))) = true -> (count (w_app w) < 2)%Z ->
        loading (w_app w') = false
        /\ ((isSuccess (w_app w') = true /\ error (w_app w') = None
             /\ name (w_app w') = []
             /\ w_timers w' = w_timers w ++ [(5000%Z, ClearSuccess)])
            \/ (error (w_app w') = Some pdfErrorMessage
                /\ name (w_app w') = name (w_app w)
                /\ isSuccess (w_app w') = isSuccess (w_app w)
                /\ w_timers w' = w_timers w))).
Proof.
  intros env w w'. subst w'.
  destruct (truthy (trim (name (w_app w)))) eqn:H.
  - destruct (Z_lt_ge_dec (count (w_app w)) 2) as [Hc|Hc].
    + destruct (permitted_finish env w H Hc) as (Hr & Hv & Hl & Ht).
      split; [exact Hr|]. split; [exact Hv|]. intros _ _. split; [exact Hl|].
      destruct (permitted_cases env w H Hc)
        as [(Ea & Es & Ha & _)|[(Ea & Es & Ha & _)|((e & Ea) & Ha & _)]];
        rewrite Ea in Ht; rewrite ?Es in Ht; rewrite Ha; [left|right|right];
        repeat split; exact Ht.
    + rewrite (handleGenerate_blocked env w H) by lia.
      split; [reflexivity|]. split; [reflexivity|]. intros _ Hlt. lia.
  - rewrite (handleGenerate_blank env w H).
    split; [reflexivity|]. split; [reflexivity|]. intro; discriminate.
Qed.

Ltac world_simpl :=
  cbn [w_app w_doc w_pastDocs w_console w_network w_localStorage w_timers
       w_defaultPrevented set_app set_doc set_pastDocs set_console set_network
       set_localStorage set_timers set_defaultPrevented fst snd
       name ip count loading error isSuccess].

(** One submission: the counter stays or goes up by one below the cap, and
    a record is written only with the new count. *)
Lemma submit_step (env : Env) (n : jsstring) (w : World) :
  let w' := submit env n w in
  (count (w_app w') = count (w_app w)
   \/ ((count (w_app w) < 2)%Z /\ count (w_app w') = (count (w_app w) + 1)%Z))
  /\ (forall k s, w_localStorage w' !! k = Some s ->
        w_localStorage w !! k = Some s
        \/ ((count (w_app w) < 2)%Z
            /\ s = JSON_stringify env {| us_count := count (w_app w) + 1;
                                         us_lastGenerated := toISOString env |})).
Proof.
  intro w'. subst w'. unfold submit.
  destruct (truthy (trim (name (w_app (typed n w))))) eqn:H.
  - destruct (Z_lt_ge_dec (count (w_app (typed n w))) 2) as [Hc|Hc].
    + destruct (permitted_cases env (typed n w) H Hc)
        as [(_ & _ & Ha & Hs)|[(_ & _ & Ha & Hs)|(_ & Ha & Hs)]];
        rewrite Ha, Hs; simpl in Hc |- *.
      * split; [right; split; [exact Hc | reflexivity]|].
        intros k s Hk. destruct (decide (storageKeyOf (ip (w_app w)) = k)) as [<-|Hne].
        -- rewrite lookup_insert_eq in Hk. injection Hk as <-.
           right. split; [exact Hc | reflexivity].
        -- rewrite lookup_insert_ne in Hk by exact Hne. left. exact Hk.
      * split; [right; split; [exact Hc | reflexivity]|].
        intros k s Hk. left. exact Hk.
      * split; [left; reflexivity|]. intros k s Hk. left. exact Hk.
    + rewrite (handleGenerate_blocked env (typed n w) H) by lia.
      split; [left; reflexivity|]. intros k s Hk. left. exact Hk.
  - rewrite (handleGenerate_blank env (typed n w) H).
    split; [left; reflexivity|]. intros k s Hk. left. exact Hk.
Qed.

(** X11 ([handleGenerate], repeated). Over any sequence of submissions,
    whatever the names and however the renders and the store writes end, the
    counter never decreases and never passes 2, and every text written to the
    store is the JSON text of a record with a count of 1 or 2. *)
Theorem counter_never_passes_the_cap :
  forall (env : Env) (names : list jsstring) (w : World),
    (0 <= count (w_app w) <= 2)%Z ->
    let w' := submitAll env names w in
    (count (w_app w) <= count (w_app w') <= 2)%Z
    /\ (forall k s, w_localStorage w' !! k = Some s ->
          w_localStorage w !! k = Some s
          \/ exists stats, s = JSON_stringify env stats /\ (1 <= us_count stats <= 2)%Z).
Proof.
  intros env names. induction names as [|n names IH]; intros w Hc w'.
  - subst w'. simpl. split; [lia|]. intros k s Hk. left. exact Hk.
  - subst w'. cbn [submitAll fold_left].
    destruct (submit_step env n w) as (Hcount & Hstore).
    assert (Hc1 : (0 <= count (w_app (submit env n w)) <= 2)%Z) by lia.
    specialize (IH (submit env n w) Hc1). cbv zeta in IH. unfold submitAll in IH.
    destruct IH as (IHc & IHs). split; [lia|].
    intros k s Hk. destruct (IHs k s Hk) as [Hk1|Hb]; [|right; exact Hb].
    destruct (Hstore k s Hk1) as [Hk0|(Hlt & Hs)]; [left; exact Hk0|].
    right. eexists. split; [exact Hs|]. simpl. lia.
Qed.

Lemma counter_never_passes_the_cap_witness :
  let names := [js "Ada"; js "   "; js "Grace"; js "Alan"; js "Kurt"] in
  (0 <= count (w_app mounted) <= 2)%Z
  /\ (count (w_app (submitAll Offline.env names mounted)) <= 2)%Z
  /\ count (w_app (submitAll Offline.env names mounted)) = 2%Z.
Proof.
  intro names.
  assert (H : (0 <= count (w_app mounted) <= 2)%Z) by (vm_compute; split; discriminate).
  split; [exact H|]. split.
  - apply (counter_never_passes_the_cap Offline.env names mounted H).
  - vm_compute. reflexivity.
Defined.

(** The block that reads the stored count, as both branches of
    [fetchIpAndCheckLimit] have it. *)
Lemma readCount_run (env : Env) (key : jsstring) (w : World) :
  (stored ← localStorage_getItem env key;
   match stored with
   | Some text =>
       if truthy text
       then stats ← JSON_parse env text;
            setCount (us_count stats)
       else mret tt
   | None => mret tt
   end) w
  = match storedCount env (w_localStorage w) key with
    | Ok (Some z) => (Ok tt, (setCount z w).2)
    | Ok None => (Ok tt, w)
    | Throw e => (Throw e, w)
    end.
Proof.
  unfold storedCount, localStorage_getItem. rewrite !bind_run. unfold get.
  destruct (getItem_throws env (w_localStorage w) key); [reflexivity|].
  unfold mret, JS_ret, ret.
  destruct (w_localStorage w !! key) as [text|]; [|reflexivity].
  destruct (truthy text); [|reflexivity].
  rewrite bind_run. unfold JSON_parse.
  destruct (JSON_parsed env text) as [stats|]; reflexivity.
Qed.

(** Every way through the mount effect. *)
Lemma fetchIpAndCheckLimit_run (env : Env) (w : World) :
  fetchIpAndCheckLimit env w =
  let fallback (e : JsError) (w1 : World) :=
    let w2 := (console_error (js "IP check failed") (Some e) w1).2 in
    match storedCount env (w_localStorage w) (js "cert_stats_generic") with
    | Ok (Some z) => (Ok tt, (setCount z w2).2)
    | Ok None => (Ok tt, w2)
    | Throw e' => (Throw e', w2)
    end in
  let w0 := set_network (fun l => l ++ [NetFetch ipLookup]) w in
  match fetch_ip env with
  | Some a =>
      let w1 := (setIp (Some a) w0).2 in
      match storedCount env (w_localStorage w) (js "cert_stats_" ++ a) with
      | Ok (Some z) => (Ok tt, (setCount z w1).2)
      | Ok None => (Ok tt, w1)
      | Throw e => fallback e w1
      end
  | None => fallback (FetchFailed ipLookup) w0
  end.
Proof.
  cbv zeta. unfold fetchIpAndCheckLimit, try_catch, ipLookup.
  rewrite bind_run. unfold modify at 1. cbv beta iota.
  destruct (fetch_ip env) as [a|].
  - rewrite bind_run. unfold setIp at 1, modify at 1. cbv beta iota.
    rewrite readCount_run.
    change (w_localStorage (set_app _ (set_network _ w))) with (w_localStorage w).
    destruct (storedCount env (w_localStorage w) (js "cert_stats_" ++ a)) as [[z|]|e];
      [reflexivity | reflexivity |].
    rewrite bind_run. unfold console_error at 1, modify at 1. cbv beta iota.
    rewrite readCount_run.
    change (w_localStorage (set_console _ _)) with (w_localStorage w).
    destruct (storedCount env (w_localStorage w) (js "cert_stats_generic")) as [[z|]|e'];
      reflexivity.
  - unfold throw. rewrite bind_run. unfold console_error at 1, modify at 1. cbv beta iota.
    rewrite readCount_run.
    change (w_localStorage (set_console _ _)) with (w_localStorage w).
    destruct (storedCount env (w_localStorage w) (js "cert_stats_generic")) as [[z|]|e'];
      reflexivity.
Qed.

(** X9 ([fetchIpAndCheckLimit]). The mount effect makes one request to the
    address service and never writes to the store.  When the lookup answers
    and the record under the key of that address can be read, the counter
    is set to its count (left as it was when the key holds nothing) and the
    console is untouched.  When the lookup fails, or [getItem] or
    [JSON.parse] throws on that key, 'IP check failed' is logged with the
    error and the generic key is read instead; if that read throws as well,
    the effect itself throws and the counter is left as it was. *)
Theorem fetchIpAndCheckLimit_outcome :
  forall (env : Env) (w : World),
    let r := (fetchIpAndCheckLimit env w).1 in
    let w' := (fetchIpAndCheckLimit env w).2 in
    let store := w_localStorage w in
    let tried :=
      match fetch_ip env with
      | Some a => storedCount env store (js "cert_stats_" ++ a)
      | None => Throw (FetchFailed ipLookup)
      end in
    w_localStorage w' = store
    /\ w_network w' = w_network w ++ [NetFetch ipLookup]
    /\ ip (w_app w') = match fetch_ip env with Some a => Some a | None => ip (w_app w) end
    /\ match tried with
       | Ok c =>
           r = Ok tt /\ w_console w' = w_console w
           /\ count (w_app w') = default (count (w_app w)) c
       | Throw e =>
           w_console w' = w_console w ++ [ipCheckFailed e]
           /\ match storedCount env store (js "cert_stats_generic") with
              | Ok c => r = Ok tt /\ count (w_app w') = default (count (w_app w)) c
              | Throw e' => r = Throw e' /\ count (w_app w') = count (w_app w)
              end
       end.
Proof.
  intros env w. cbv zeta. rewrite fetchIpAndCheckLimit_run. cbv zeta.
  unfold ipCheckFailed.
  destruct (fetch_ip env) as [a|].
  - destruct (storedCount env (w_localStorage w) (js "cert_stats_" ++ a)) as [[z|]|e].
    + unfold setCount, setIp, modify. world_simpl. repeat split.
    + unfold setIp, modify. world_simpl. repeat split.
    + destruct (storedCount env (w_localStorage w) (js "cert_stats_generic")) as [[z|]|e'];
        unfold setCount, setIp, console_error, modify; world_simpl; repeat split.
  - destruct (storedCount env (w_localStorage w) (js "cert_stats_generic")) as [[z|]|e'];
      unfold setCount, console_error, modify; world_simpl; repeat split.
Qed.

(** X12 ([handleGenerate] then [fetchIpAndCheckLimit]). The count of an
    issuance that was recorded survives a reload of the page: when the
    component state starts afresh and the mount effect gets the same answer
    from the address service, the counter is restored to the incremented
    count, provided the store took the record, gives it back, and
    [JSON.parse] reads from the text of the record the count written.  The
    handler writes under [ip || 'generic'] and the effect reads under the
    address as received, so an empty address string is excluded. *)
Theorem count_survives_reload :
  forall (env : Env) (w : World),
    truthy (trim (name (w_app w))) = true ->
    (count (w_app w) < 2)%Z ->
    (attempt env w).1 = Ok tt ->
    ip (w_app w) = fetch_ip env ->
    fetch_ip env <> Some [] ->
    let key := storageKeyOf (fetch_ip env) in
    let record := JSON_stringify env {| us_count := count (w_app w) + 1;
                                        us_lastGenerated := toISOString env |} in
    setItem_throws env (w_localStorage w) key record = false ->
    getItem_throws env (<[key := record]> (w_localStorage w)) key = false ->
    truthy record = true ->
    us_count <$> JSON_parsed env record = Some (count (w_app w) + 1)%Z ->
    fetchIpAndCheckLimit env (reloaded (handleGenerate env w).2)
    = (Ok tt, (fetchIpAndCheckLimit env (reloaded (handleGenerate env w).2)).2)
    /\ count (w_app (fetchIpAndCheckLimit env (reloaded (handleGenerate env w).2)).2)
       = (count (w_app w) + 1)%Z.
Proof.
  intros env w H Hc Hok Hip Hne key record Hset Hget Htruthy Hparse.
  destruct (permitted_cases env w H Hc)
    as [(_ & _ & _ & Hs)|[(_ & Es & _)|((e & Ea) & _)]].
  2: { rewrite Hip in Es. change (issuedRecord env w) with record in Es.
       fold key in Es. congruence. }
  2: { congruence. }
  rewrite Hip in Hs. change (issuedRecord env w) with record in Hs. fold key in Hs.
  set (w' := (handleGenerate env w).2) in *.
  assert (Hkey : key = match fetch_ip env with
                       | Some a => js "cert_stats_" ++ a
                       | None => js "cert_stats_generic"
                       end).
  { unfold key, storageKeyOf. destruct (fetch_ip env) as [[|c a]|]; [congruence|..];
      reflexivity. }
  assert (Hread : storedCount env (w_localStorage (reloaded w')) key
                  = Ok (Some (count (w_app w) + 1)%Z)).
  { unfold storedCount. change (w_localStorage (reloaded w')) with (w_localStorage w').
    rewrite Hs, Hget, lookup_insert_eq, Htruthy.
    destruct (JSON_parsed env record) as [stats|]; [|discriminate Hparse].
    injection Hparse as ->. reflexivity. }
  rewrite fetchIpAndCheckLimit_run. cbv zeta.
  clearbody key. subst key.
  destruct (fetch_ip env) as [a|]; rewrite Hread;
    unfold setCount, setIp, console_error, modify; world_simpl; split; reflexivity.
Qed.

Lemma count_survives_reload_witness :
  let w := typed (js "Ada") mounted in
  truthy (trim (name (w_app w))) = true
  /\ ip (w_app w) = fetch_ip Offline.env
  /\ count (w_app (fetchIpAndCheckLimit Offline.env
                     (reloaded (handleGenerate Offline.env w).2)).2)
     = (count (w_app w) + 1)%Z.
Proof.
  intro w. split; [vm_compute; reflexivity|]. split; [vm_compute; reflexivity|].
  apply (count_survives_reload Offline.env w).
  - vm_compute. reflexivity.
  - vm_compute. reflexivity.
  - vm_compute. reflexivity.
  - vm_compute. reflexivity.
  - vm_compute. discriminate.
  - reflexivity.
  - reflexivity.
  - vm_compute. reflexivity.
  - vm_compute. reflexivity.
Defined.

(** ** Invariants of a render *)

#[global] Instance allOps_stable (harmless : DocOp -> bool) :
  Stable harmless (allOps harmless).
Proof.
  split.
  - intros op w Hop Hw. unfold allOps in *. simpl.
    rewrite forallb_app, Hw. simpl. rewrite Hop. reflexivity.
  - intros f w Hf Hw. unfold allOps in *. simpl. rewrite Hf. exact Hw.
  - intros f w Hw. exact Hw.
  - intros f w Hw. exact Hw.
Qed.

Lemma hasTurkishDiacritic_app (s1 s2 : jsstring) :
  hasTurkishDiacritic (s1 ++ s2) = hasTurkishDiacritic s1 || hasTurkishDiacritic s2.
Proof. unfold hasTurkishDiacritic. apply existsb_app. Qed.

Lemma clean_comma : hasTurkishDiacritic (js ", ") = false.
Proof. vm_compute. reflexivity. Qed.

Lemma clean_colon : hasTurkishDiacritic (js ": ") = false.
Proof. vm_compute. reflexivity. Qed.

Lemma forallb_prefix {A} (P : A -> bool) (l l' : list A) :
  l `prefix_of` l' -> forallb P l' = true -> forallb P l = true.
Proof.
  intros [k ->]. rewrite forallb_app. intros [H _]%andb_true_iff. exact H.
Qed.

Lemma keeps_split (env : Env) {B} (I : World -> Prop) text maxWidth
      (k : list jsstring -> JS B) :
  (forall family style size,
      keeps I (k (splitTextToSize env family style size text maxWidth))) ->
  keeps I (doc_splitTextToSize env text maxWidth ≫= k).
Proof.
  intros H w Hw. rewrite bind_run. unfold doc_splitTextToSize.
  rewrite bind_run. unfold get, mret, JS_ret, ret.
  apply (H _ _ _ w Hw).
Qed.

Section Invariant.

Variable harmless : DocOp -> bool.
Hypothesis harmless_shape : forall op, isShape op = true -> harmless op = true.
Hypothesis harmless_size : forall size, harmless (OpSetFontSize size) = true.
Hypothesis harmless_addFile : forall file data, harmless (OpAddFileToVFS file data) = true.
Hypothesis harmless_addFont : forall file family style, harmless (OpAddFont file family style) = true.
Variable env : Env.

Lemma allOps_appendOps (l : list DocOp) (w : World) :
  forallb harmless l = true -> allOps harmless w ->
  allOps harmless (set_doc (appendOps l) w).
Proof.
  intros Hl Hw. unfold allOps in *. simpl. rewrite forallb_app, Hw, Hl. reflexivity.
Qed.

Lemma shapes_keep {A} (n : nat) (m : JS A) : shapes n m -> keeps (allOps harmless) m.
Proof.
  intros Hm w Hw. destruct (Hm w) as (l & Hw' & Hs & _).
  assert (H : allOps harmless (m w).2).
  { rewrite Hw'. apply allOps_appendOps; [|exact Hw].
    rewrite forallb_forall in *. intros op Hop. apply harmless_shape, Hs, Hop. }
  destruct (m w) as [[a|e] w']; exact H.
Qed.

Lemma shrinkName_keeps cleanName maxNameWidth nameFontSize :
  keeps (allOps harmless) (shrinkName env cleanName maxNameWidth nameFontSize).
Proof.
  funelim (shrinkName env cleanName maxNameWidth nameFontSize).
  apply keeps_bind; [apply keeps_doc_getTextWidth | intro width].
  destruct (negb (Qle_bool width maxNameWidth)); [|apply keeps_ret].
  destruct (Z_lt_dec 20 nameFontSize); [|apply keeps_ret].
  apply keeps_bind; [apply keeps_doc_setFontSize, harmless_size | intros _].
  intros w Hw.
  match goal with
  | IH : Q -> _ -> unit -> World -> _ |- _ => exact (IH width l tt w w Hw)
  end.
Qed.

Lemma fontCalls_harmless regularBuf boldBuf :
  forallb harmless (fontCalls env regularBuf boldBuf) = true.
Proof.
  unfold fontCalls. cbn [forallb].
  rewrite !harmless_addFile, !harmless_addFont. reflexivity.
Qed.

(** The start of a render: a new document, then the fonts; what follows runs
    with the answer of [loadCustomFonts]. *)
Lemma render_start (w : World) (k : bool -> JS unit) :
  keeps (allOps harmless) (k (fontsLoaded env w)) ->
  allOps harmless ((new_jsPDF ;; (loadCustomFonts env ≫= k)) w).2.
Proof.
  intro Hk. unfold fontsLoaded in Hk. rewrite bind_run in Hk. rewrite bind_run.
  change (new_jsPDF w) with (Ok tt, (new_jsPDF w).2) in Hk |- *.
  cbv beta iota in Hk |- *. rewrite bind_run.
  destruct (loadCustomFonts_run env (new_jsPDF w).2) as (b & net & con & l & Hrun & _ & Hl).
  rewrite Hrun in Hk |- *.
  assert (Hw1 : allOps harmless (logged net con (set_doc (appendOps l) (new_jsPDF w).2))).
  { unfold logged. apply stable_console, stable_network.
    apply allOps_appendOps; [|reflexivity].
    destruct (firstBody env regularMirrors) as [regularBuf|].
    - destruct (firstBody env boldMirrors) as [boldBuf|].
      + destruct Hl as [Hl _]. apply (forallb_prefix _ _ _ Hl), fontCalls_harmless.
      + destruct Hl as [_ ->]. reflexivity.
    - destruct Hl as (_ & -> & _). reflexivity. }
  specialize (Hk _ Hw1).
  destruct (k b _) as [[[]|e] w']; exact Hk.
Qed.

End Invariant.

Lemma shape_is_clean (op : DocOp) : isShape op = true -> cleanOp op = true.
Proof. destruct op; intro H; try discriminate H; reflexivity. Qed.

Lemma shape_is_fontOp fl (op : DocOp) : isShape op = true -> fontOp fl op = true.
Proof. destruct op; intro H; try discriminate H; reflexivity. Qed.

Lemma fontOp_setFont fl style : fontOp fl (OpSetFont (typeface fl) style) = true.
Proof. apply bool_decide_eq_true_2. reflexivity. Qed.

Lemma keeps_setFont_typeface env fl style :
  keeps (allOps (fontOp fl)) (setFont env fl style).
Proof.
  rewrite setFont_typeface. apply keeps_doc_setFont, fontOp_setFont.
Qed.

Lemma cleanOps_texts (ops : list DocOp) :
  forallb cleanOp ops = true -> forallb cleanLines (textsOf ops) = true.
Proof.
  induction ops as [|op ops IH]; [reflexivity|].
  cbn [forallb]. intros [Hop Hops]%andb_true_iff.
  change (textsOf (op :: ops))
    with (match op with OpText l _ _ _ => [l] | _ => [] end ++ textsOf ops).
  rewrite forallb_app, (IH Hops), andb_true_r.
  destruct op; try reflexivity. cbn [forallb]. rewrite andb_true_r. exact Hop.
Qed.

Lemma fontOps_typeface fl (ops : list DocOp) :
  forallb (fontOp fl) ops = true ->
  Forall (fun op => match op with
                    | OpSetFont family _ => family = typeface fl
                    | _ => True
                    end) ops.
Proof.
  rewrite forallb_forall. intro H. apply List.Forall_forall. intros op Hop.
  specialize (H op Hop).
  destruct op; try exact Logic.I. apply bool_decide_eq_true_1 in H. exact H.
Qed.

(** One step through the body of [generateCertificatePDF]; [text] settles a
    [doc.text] call and [font] a call of the [setFont] closure. *)
Ltac render_step harmless text font :=
  cbv beta zeta;
  lazymatch goal with
  | |- keeps _ (doc_splitTextToSize _ _ _ ≫= _) => apply keeps_split; intros ? ? ?
  | |- keeps _ (call _ (OpText _ _ _ _)) => apply keeps_draw; text
  | |- keeps _ (call _ (OpSave _)) => apply keeps_draw; exact eq_refl
  | |- keeps _ (drawAtom _ _ _ _) =>
      apply (shapes_keep harmless) with (n := 12%nat); [|apply shapes_drawAtom]
  | |- keeps _ (drawDNAHelix _ _ _ _ _) =>
      apply (shapes_keep harmless) with (n := 72%nat); [|apply shapes_drawDNAHelix]
  | |- keeps _ (drawMicroscope _ _ _ _) =>
      apply (shapes_keep harmless) with (n := 10%nat); [|apply shapes_drawMicroscope]
  | |- keeps _ (shrinkName _ _ _ _) => apply shrinkName_keeps; reflexivity
  | |- keeps _ (mret _) => apply keeps_ret
  | |- keeps _ (doc_setFontSize _ _) => apply keeps_doc_setFontSize; reflexivity
  | |- keeps _ (setFont _ _ _) => font
  | |- keeps _ (doc_pageWidth _) => apply keeps_ret
  | |- keeps _ (doc_pageHeight _) => apply keeps_ret
  | |- keeps _ (call _ _) => apply keeps_draw; reflexivity
  | |- keeps _ (_ ≫= _) => apply keeps_bind; [|intro]
  | |- keeps _ (if ?b then _ else _) => destruct b
  end.

Section Clean.

Variable env : Env.
Hypothesis Hwrap : wrapsFaithfully env.
Variable input : CertificateInput.
Hypothesis Hdate : hasTurkishDiacritic (cd_date (data input)) = false.
Hypothesis Hno :
  hasTurkishDiacritic (default [] (certificateNo (extras input))) = false.

Ltac clean_text :=
  cbv beta iota delta [cleanOp t];
  lazymatch goal with
  | |- cleanLines (splitTextToSize _ _ _ _ _ _) = true =>
      apply Hwrap, sanitizeText_clean
  | |- _ =>
      cbv beta iota delta [cleanLines forallb];
      repeat match goal with
      | |- context [if truthy ?x then _ else _] => destruct (truthy x)
      end;
      rewrite ?hasTurkishDiacritic_app, ?sanitizeText_clean, ?Hdate, ?Hno,
        ?clean_comma, ?clean_colon;
      reflexivity
  end.

Lemma render_clean (w : World) :
  fontsLoaded env w = false ->
  allOps cleanOp (generateCertificatePDF env input w).2.
Proof.
  intro Hfl. unfold generateCertificatePDF.
  apply render_start; try reflexivity. rewrite Hfl.
  repeat render_step cleanOp clean_text ltac:(apply keeps_setFont; reflexivity).
  all: apply shape_is_clean.
Qed.

End Clean.

Lemma render_typeface (env : Env) (input : CertificateInput) (w : World) :
  allOps (fontOp (fontsLoaded env w)) (generateCertificatePDF env input w).2.
Proof.
  unfold generateCertificatePDF.
  apply render_start; try reflexivity.
  generalize (fontsLoaded env w) as fl. intro fl.
  repeat render_step (fontOp fl) ltac:(reflexivity) ltac:(apply keeps_setFont_typeface).
  all: apply shape_is_fontOp.
Qed.

(** X5 ([generateCertificatePDF], [sanitizeText]). When the fonts could not
    be loaded, the date and the certificate number are given without letters
    of the replacement table, and wrapping invents no such letter, then no
    line of any text drawn on the certificate has one, however the render
    ends: the institution, unit, title, paragraphs, name, labels, location
    and coordinator are all transliterated. *)
Theorem no_diacritics_without_fonts (env : Env) (input : CertificateInput) (w : World) :
  wrapsFaithfully env ->
  fontsLoaded env w = false ->
  hasTurkishDiacritic (cd_date (data input)) = false ->
  hasTurkishDiacritic (default [] (certificateNo (extras input))) = false ->
  forallb cleanLines
    (textsOf (d_ops (w_doc (generateCertificatePDF env input w).2))) = true.
Proof.
  intros Hwrap Hfl Hdate Hno. apply cleanOps_texts.
  exact (render_clean env Hwrap input Hdate Hno w Hfl).
Qed.

Lemma no_diacritics_without_fonts_witness :
  forallb cleanLines
    (textsOf (d_ops (w_doc (generateCertificatePDF Offline.env
       (numbered (certificateFor (js "Ayşe Öztürk") (js "01.01.2025") None)
                 (js "TPB-2025-001"))
       mounted).2))) = true.
Proof.
  apply no_diacritics_without_fonts.
  - intros family style size text maxWidth H.
    unfold cleanLines, Offline.env, splitTextToSize. cbn [forallb].
    rewrite H. reflexivity.
  - vm_compute. reflexivity.
  - vm_compute. reflexivity.
  - vm_compute. reflexivity.
Defined.

(** X6 ([generateCertificatePDF]). Every [doc.setFont] call of a render
    names one typeface: Roboto when [loadCustomFonts] answered [true] in this
    render, the built-in Times when it answered [false]; this holds however
    the render ends. *)
Theorem render_uses_one_typeface (env : Env) (input : CertificateInput) (w : World) :
  Forall (fun op => match op with
                    | OpSetFont family _ => family = typeface (fontsLoaded env w)
                    | _ => True
                    end)
         (d_ops (w_doc (generateCertificatePDF env input w).2)).
Proof. apply fontOps_typeface, render_typeface. Qed.

(** ** The texts drawn by a render *)

Lemma textsOf_app (l1 l2 : list DocOp) : textsOf (l1 ++ l2) = textsOf l1 ++ textsOf l2.
Proof. unfold textsOf. apply flat_map_app. Qed.

Lemma textsOf_notText (op : DocOp) : notText op = true -> textsOf [op] = [].
Proof. destruct op; intro H; try discriminate H; reflexivity. Qed.

#[global] Instance textsAre_stable (texts : list (list jsstring)) :
  Stable notText (textsAre texts).
Proof.
  split.
  - intros op w Hop Hw. unfold textsAre in *. simpl.
    rewrite textsOf_app, Hw, (textsOf_notText op Hop). apply app_nil_r.
  - intros f w Hf Hw. unfold textsAre in *. simpl. rewrite Hf. exact Hw.
  - intros f w Hw. exact Hw.
  - intros f w Hw. exact Hw.
Qed.

Section StableRender.

Context {harmless : DocOp -> bool} {I : World -> Prop} `{!Stable harmless I}.
Hypothesis harmless_shape : forall op, isShape op = true -> harmless op = true.
Hypothesis harmless_size : forall size, harmless (OpSetFontSize size) = true.
Hypothesis harmless_addFile : forall file data, harmless (OpAddFileToVFS file data) = true.
Hypothesis harmless_addFont : forall file family style, harmless (OpAddFont file family style) = true.
Variable env : Env.

Lemma stable_appendOps (l : list DocOp) (w : World) :
  forallb harmless l = true -> I w -> I (set_doc (appendOps l) w).
Proof.
  induction l as [|op l IH] using rev_ind; intros Hl Hw.
  - rewrite set_doc_appendOps_nil. exact Hw.
  - rewrite forallb_app in Hl. apply andb_true_iff in Hl as [Hl Hop].
    cbn [forallb] in Hop. rewrite andb_true_r in Hop.
    replace (set_doc (appendOps (l ++ [op])) w)
      with (set_doc (recordOp op) (set_doc (appendOps l) w)).
    + apply stable_op; [exact Hop | apply IH; assumption].
    + unfold set_doc, appendOps, recordOp. simpl. rewrite app_assoc. reflexivity.
Qed.

Lemma keeps_shapes {A} (n : nat) (m : JS A) : shapes n m -> keeps I m.
Proof.
  intros Hm w Hw. destruct (Hm w) as (l & Hw' & Hs & _).
  assert (H : I (m w).2).
  { rewrite Hw'. apply stable_appendOps; [|exact Hw].
    rewrite forallb_forall in *. intros op Hop. apply harmless_shape, Hs, Hop. }
  destruct (m w) as [[a|e] w']; exact H.
Qed.

Lemma keeps_shrinkName_sizes cleanName maxNameWidth nameFontSize :
  keeps I (shrinkName env cleanName maxNameWidth nameFontSize).
Proof.
  funelim (shrinkName env cleanName maxNameWidth nameFontSize).
  apply keeps_bind; [apply keeps_doc_getTextWidth | intro width].
  destruct (negb (Qle_bool width maxNameWidth)); [|apply keeps_ret].
  destruct (Z_lt_dec 20 nameFontSize); [|apply keeps_ret].
  apply keeps_bind; [apply keeps_doc_setFontSize, harmless_size | intros _].
  intros w Hw.
  match goal with
  | IH : Q -> _ -> unit -> World -> _ |- _ => exact (IH width l tt w w Hw)
  end.
Qed.

Lemma keeps_fontCalls : keeps I (loadCustomFonts env).
Proof.
  intros w Hw.
  destruct (loadCustomFonts_run env w) as (b & net & con & l & -> & _ & Hl).
  unfold logged. apply stable_console, stable_network.
  apply stable_appendOps; [|exact Hw].
  assert (Hf : forall r b', forallb harmless (fontCalls env r b') = true).
  { intros r b'. unfold fontCalls. cbn [forallb].
    rewrite !harmless_addFile, !harmless_addFont. reflexivity. }
  destruct (firstBody env regularMirrors) as [regularBuf|].
  - destruct (firstBody env boldMirrors) as [boldBuf|].
    + destruct Hl as [[k Hk] _]. specialize (Hf regularBuf boldBuf).
      rewrite Hk, forallb_app in Hf. apply andb_true_iff in Hf as [Hf _]. exact Hf.
    + destruct Hl as [_ ->]. reflexivity.
  - destruct Hl as (_ & -> & _). reflexivity.
Qed.

(** The start of a render that ends normally: a new document, then the
    fonts; what follows runs with the answer of [loadCustomFonts]. *)
Lemma wp_ok_render_start (w : World) (k : bool -> JS unit) (Q : unit -> World -> Prop) :
  I (new_jsPDF w).2 ->
  (forall w1, I w1 -> wp_ok (k (fontsLoaded env w)) Q w1) ->
  wp_ok (new_jsPDF ;; (loadCustomFonts env ≫= k)) Q w.
Proof.
  intros H0 Hk. unfold wp_ok. rewrite bind_run.
  change (new_jsPDF w) with (Ok tt, (new_jsPDF w).2).
  cbv beta iota. rewrite bind_run.
  pose proof (keeps_fontCalls _ H0) as H1.
  unfold fontsLoaded in Hk. rewrite bind_run in Hk.
  change (new_jsPDF w) with (Ok tt, (new_jsPDF w).2) in Hk. cbv beta iota in Hk.
  destruct (loadCustomFonts env (new_jsPDF w).2) as [[b|e] w1]; [|exact Logic.I].
  exact (Hk w1 H1).
Qed.

End StableRender.

(** ** The texts of a certificate *)

Lemma wp_ok_assoc {A B C} (m : JS A) (f : A -> JS B) (k : B -> JS C) Q w :
  wp_ok (m ≫= fun a => f a ≫= k) Q w -> wp_ok ((m ≫= f) ≫= k) Q w.
Proof.
  unfold wp_ok. rewrite !bind_run. destruct (m w) as [[a|e] w']; [|auto].
  rewrite bind_run. auto.
Qed.

Lemma wp_ok_text {B} env lines x y options (k : unit -> JS B) Q texts w :
  textsAre texts w ->
  (forall w', textsAre (texts ++ [lines]) w' -> wp_ok (k tt) Q w') ->
  wp_ok (call env (OpText lines x y options) ≫= k) Q w.
Proof.
  intros Hw Hk. apply wp_ok_bind, wp_ok_call. apply Hk.
  unfold textsAre in *. simpl. rewrite textsOf_app, Hw. reflexivity.
Qed.

(** [setFont(style)] and [doc.setFontSize(size)]: the font is known. *)
Lemma wp_ok_font {B} env family style size (k : unit -> JS B) Q texts w :
  textsAre texts w ->
  (forall w', drawing texts family style size w' -> wp_ok (k tt) Q w') ->
  wp_ok (doc_setFont env family style ≫= fun _ => doc_setFontSize env size ≫= k) Q w.
Proof.
  intros Hw Hk. apply wp_ok_bind, wp_ok_doc_setFont.
  apply wp_ok_bind, wp_ok_doc_setFontSize. apply Hk.
  unfold textsAre, drawing in *. simpl.
  rewrite !textsOf_app, Hw. simpl. rewrite !app_nil_r. repeat split.
Qed.

Lemma wp_ok_size {B} env size' (k : unit -> JS B) Q texts family style size w :
  drawing texts family style size w ->
  (forall w', drawing texts family style size' w' -> wp_ok (k tt) Q w') ->
  wp_ok (doc_setFontSize env size' ≫= k) Q w.
Proof.
  intros (Ht & Hf & Hs & Hz) Hk. apply wp_ok_bind, wp_ok_doc_setFontSize. apply Hk.
  unfold drawing. simpl. rewrite textsOf_app, Ht. simpl. rewrite app_nil_r.
  repeat split; assumption.
Qed.

Lemma wp_ok_colour {B} env op (k : unit -> JS B) Q texts family style size w :
  notText op = true ->
  drawing texts family style size w ->
  (forall w', drawing texts family style size w' -> wp_ok (k tt) Q w') ->
  wp_ok (call env op ≫= k) Q w.
Proof.
  intros Hop (Ht & Hf & Hs & Hz) Hk. apply wp_ok_bind, wp_ok_call. apply Hk.
  unfold drawing. simpl. rewrite textsOf_app, Ht, (textsOf_notText op Hop), app_nil_r.
  repeat split; assumption.
Qed.

(** A wrapped paragraph: [doc.splitTextToSize] then [doc.text]. *)
Lemma wp_ok_paragraph {B} env text maxWidth x y options (k : unit -> JS B) Q
      texts family style size w :
  drawing texts family style size w ->
  (forall w', drawing (texts ++ [splitTextToSize env family style size text maxWidth])
                      family style size w' -> wp_ok (k tt) Q w') ->
  wp_ok (doc_splitTextToSize env text maxWidth
           ≫= fun lines => call env (OpText lines x y options) ≫= k) Q w.
Proof.
  intros (Ht & Hf & Hs & Hz) Hk. apply wp_ok_bind.
  apply (wp_ok_splitTextToSize env family style size); [assumption..|].
  apply wp_ok_bind, wp_ok_call. apply Hk.
  unfold drawing. simpl. rewrite textsOf_app, Ht. repeat split; assumption.
Qed.

Lemma drawing_texts texts family style size w :
  drawing texts family style size w -> textsAre texts w.
Proof. intros (Ht & _). exact Ht. Qed.

Lemma wp_ok_pure {A B} (a : A) (k : A -> JS B) Q w :
  wp_ok (k a) Q w -> wp_ok (mret a ≫= k) Q w.
Proof. intro H. exact H. Qed.

Lemma wp_ok_setFont_size {B} env fl style size (k : unit -> JS B) Q texts w :
  textsAre texts w ->
  (forall w', drawing texts (typeface fl) style size w' -> wp_ok (k tt) Q w') ->
  wp_ok (setFont env fl style ≫= fun _ => doc_setFontSize env size ≫= k) Q w.
Proof. rewrite setFont_typeface. apply wp_ok_font. Qed.

Lemma shape_notText (op : DocOp) : isShape op = true -> notText op = true.
Proof. destruct op; intro H; try discriminate H; reflexivity. Qed.

Ltac texts_keeps :=
  lazymatch goal with
  | |- keeps _ (drawAtom _ _ _ _) =>
      apply keeps_shapes with (n := 12%nat); [exact shape_notText | apply shapes_drawAtom]
  | |- keeps _ (drawDNAHelix _ _ _ _ _) =>
      apply keeps_shapes with (n := 72%nat); [exact shape_notText | apply shapes_drawDNAHelix]
  | |- keeps _ (drawMicroscope _ _ _ _) =>
      apply keeps_shapes with (n := 10%nat); [exact shape_notText | apply shapes_drawMicroscope]
  | |- keeps _ (shrinkName _ _ _ _) => apply keeps_shrinkName_sizes; reflexivity
  | |- keeps _ (setFont _ _ _) => apply keeps_setFont; reflexivity
  | |- keeps _ (doc_setFontSize _ _) => apply keeps_doc_setFontSize; reflexivity
  | |- keeps _ (call _ (OpSave _)) => apply keeps_draw; exact eq_refl
  | |- keeps _ (call _ _) => apply keeps_draw; reflexivity
  end.

(** One step of a render that ends normally, with the texts drawn so far in
    the hypothesis [H]. *)
Ltac texts_step H :=
  cbv beta zeta;
  lazymatch goal with
  | |- wp_ok ((_ ≫= _) ≫= _) _ _ => apply wp_ok_assoc
  | |- wp_ok ((if ?b then _ else _) ≫= _) _ _ => destruct b; cbv beta iota
  | |- wp_ok (mret ?a ≫= ?k) _ _ => apply (wp_ok_pure a k)
  | |- wp_ok (doc_pageWidth ?e ≫= ?k) _ _ => apply (wp_ok_pure (pageWidth e) k)
  | |- wp_ok (doc_pageHeight ?e ≫= ?k) _ _ => apply (wp_ok_pure (pageHeight e) k)
  | |- wp_ok (doc_splitTextToSize _ _ _ ≫= _) _ ?w =>
      lazymatch type of H with
      | drawing ?L ?f ?s ?z w =>
          apply (wp_ok_paragraph _ _ _ _ _ _ _ _ L f s z w H);
          clear H; intros ? H; cbn [app] in H
      end
  | |- wp_ok (call _ (OpText _ _ _ _) ≫= _) _ ?w =>
      lazymatch type of H with
      | drawing _ _ _ _ _ => apply drawing_texts in H
      | _ => idtac
      end;
      lazymatch type of H with
      | textsAre ?L w =>
          apply (wp_ok_text _ _ _ _ _ _ _ L w H); clear H; intros ? H; cbn [app] in H
      end
  | |- wp_ok (setFont _ _ _ ≫= (fun _ => doc_setFontSize _ _ ≫= _)) _ ?w =>
      lazymatch type of H with
      | drawing _ _ _ _ _ => apply drawing_texts in H
      | _ => idtac
      end;
      lazymatch type of H with
      | textsAre ?L w =>
          apply (wp_ok_setFont_size _ _ _ _ _ _ L w H); clear H; intros ? H
      end
  | |- wp_ok (doc_setFontSize _ _ ≫= _) _ ?w =>
      lazymatch type of H with
      | drawing ?L ?f ?s ?z w =>
          apply (wp_ok_size _ _ _ _ L f s z w H); clear H; intros ? H
      | textsAre ?L w =>
          apply wp_ok_keeps with (I := textsAre L);
          [solve [texts_keeps] | exact H | clear H; intros ? ? H]
      end
  | |- wp_ok (call _ _ ≫= _) _ ?w =>
      lazymatch type of H with
      | drawing ?L ?f ?s ?z w =>
          apply (wp_ok_colour _ _ _ _ L f s z w); [reflexivity | exact H |];
          clear H; intros ? H
      | textsAre ?L w =>
          apply wp_ok_keeps with (I := textsAre L);
          [solve [texts_keeps] | exact H | clear H; intros ? ? H]
      end
  | |- wp_ok (_ ≫= _) _ ?w =>
      lazymatch type of H with
      | drawing _ _ _ _ _ => apply drawing_texts in H
      | _ => idtac
      end;
      lazymatch type of H with
      | textsAre ?L w =>
          apply wp_ok_keeps with (I := textsAre L);
          [solve [texts_keeps] | exact H | clear H; intros ? ? H]
      end
  end.

Section RenderTexts.

Local Open Scope Q_scope.

Lemma render_texts (env : Env) (input : CertificateInput) (w : World) :
  let t := t (fontsLoaded env w) in
  let family := typeface (fontsLoaded env w) in
  let pageWidth := pageWidth env in
  let institution := default (js "Tıpta Profesyonellik Bloğu") (institution (extras input)) in
  let unit := default (js "Bilimsel Araştırmalar ve Uygulamalar") (departmentOrUnit (extras input)) in
  let coordinatorTitle := default (js "Koordinatör") (coordinatorTitle (extras input)) in
  let coordinatorName := default [] (coordinatorName (extras input)) in
  let location := default [] (location (extras input)) in
  let certificateNo := default [] (certificateNo (extras input)) in
  let introRaw := js "Bu sertifika, yürütülen bilimsel çalışmalara gönüllü katılımı ve sunduğu değerli katkılar nedeniyle aşağıda adı yazılı katılımcıya takdim edilmiştir." in
  let impactRaw := trim (default [] (cd_impactMessage (data input))) in
  let impactTextBase :=
    if (0 <? length impactRaw)%nat then impactRaw else defaultImpact in
  let closingRaw := js "Sayın katılımcımıza teşekkür eder, akademik ve mesleki yaşamında başarılarının devamını dileriz." in
  let dateLabel := t (js "Düzenlenme Tarihi") in
  let locPart := if truthy location then t location ++ js ", " else [] in
  wp_ok (generateCertificatePDF env input)
    (fun _ w' =>
       textsOf (d_ops (w_doc w'))
       = [ [t institution];
           [t unit];
           [t (js "GÖNÜLLÜ KATILIM SERTİFİKASI")];
           splitTextToSize env family normal 14 (t introRaw) (pageWidth - 90);
           [t (toLocaleUpperCase_tr env (cd_name (data input)))];
           splitTextToSize env family normal 12.5 (t impactTextBase) (pageWidth - 100);
           splitTextToSize env family normal 12.5 (t closingRaw) (pageWidth - 90);
           [locPart ++ dateLabel ++ js ": " ++ cd_date (data input)] ]
         ++ (if truthy certificateNo
             then [[t (js "Belge No") ++ js ": " ++ certificateNo]] else [])
         ++ [[t coordinatorTitle]]
         ++ (if truthy (trim coordinatorName) then [[t coordinatorName]] else []))
    w.
Proof.
  cbv zeta. unfold generateCertificatePDF.
  apply (wp_ok_render_start (I := textsAre []));
    [reflexivity | reflexivity | reflexivity |].
  intros w1 H. generalize (fontsLoaded env w) as fl. intro fl.
  repeat texts_step H.
  all: lazymatch type of H with
       | textsAre ?L _ =>
           apply wp_ok_keeps_last with (I := textsAre L);
           [solve [texts_keeps] | exact H | intros _ wf Hf; cbn [app]; exact Hf]
       end.
Qed.

End RenderTexts.

Lemma sanitizeText_no_alphabetLetter (x : jsstring) :
  existsb isAlphabetLetter (sanitizeText x) = false.
Proof.
  pose proof (sanitizeText_no_alphabet x) as H.
  induction (sanitizeText x) as [|c s IH]; [reflexivity|].
  cbn [existsb] in *. apply orb_false_elim in H as [Hc Hs].
  rewrite (IH Hs), orb_false_r. unfold isAlphabetLetter.
  rewrite existsb_app in Hc. apply orb_false_elim in Hc as [Hc _]. exact Hc.
Qed.

(** * The texts of the certificate: claims *)

Section DrawnTexts.

Local Open Scope Q_scope.

(** C5. In a render that ends normally the name, upper-cased by the Turkish
    convention and, when the fonts failed, transliterated by [sanitizeText]
    (so that it has no marked letter of the Turkish alphabet), is drawn right
    after its size was set to a size of the sequence 40, 38, ..., 20: the
    starting size 40 when the name fits there; a strictly smaller one when
    it is too wide at 40; in any case the largest size of the sequence at
    which the name fits, or the floor 20 when it fits at none above it. *)
Theorem name_shrinks_to_fit :
  forall (env : Env) (input : CertificateInput) (w w' : World),
    generateCertificatePDF env input w = (Ok tt, w') ->
    let fl := fontsLoaded env w in
    let upper := toLocaleUpperCase_tr env (cd_name (data input)) in
    let cleanName := if fl then upper else sanitizeText upper in
    (fl = false -> existsb isAlphabetLetter cleanName = false)
    /\ exists size pre post,
      d_ops (w_doc w')
      = pre ++ [OpSetFontSize (inject_Z size);
                OpText [cleanName] (pageWidth env / 2) 122 centered] ++ post
      /\ In size nameSizes
      /\ (nameFits env fl cleanName 40 = true -> size = 40%Z)
      /\ (nameFits env fl cleanName 40 = false -> (size < 40)%Z)
      /\ (size = 20%Z \/ nameFits env fl cleanName size = true)
      /\ (forall s, In s nameSizes -> (size < s)%Z ->
                    nameFits env fl cleanName s = false).
Proof.
  intros env input w w' Hrun fl upper cleanName. split.
  { intro Hfl. unfold cleanName. rewrite Hfl. apply sanitizeText_no_alphabetLetter. }
  pose proof (render_success env input w) as H. cbv zeta in H.
  unfold wp_ok in H. rewrite Hrun in H.
  destruct H as (size & pre & mid & post & Hops & Hrest).
  unfold t in Hops, Hrest. fold fl upper cleanName in Hops, Hrest.
  exists size, pre. eexists. split; [|exact Hrest].
  rewrite Hops. reflexivity.
Qed.

Lemma name_shrinks_to_fit_witness :
  let input := certificateFor longName (js "01.01.2025") None in
  let fl := fontsLoaded Offline.env mounted in
  let upper := toLocaleUpperCase_tr Offline.env (cd_name (data input)) in
  let cleanName := if fl then upper else sanitizeText upper in
  exists w',
    generateCertificatePDF Offline.env input mounted = (Ok tt, w')
    /\ fl = false
    /\ cleanName = js "ABDURRAHMAN GAZI KAHRAMANMARASLIOGLU"
    /\ nameFits Offline.env fl cleanName 40 = false
    /\ exists size pre post,
         d_ops (w_doc w')
         = pre ++ [OpSetFontSize (inject_Z size);
                   OpText [cleanName] (pageWidth Offline.env / 2) 122 centered] ++ post
         /\ (size < 40)%Z /\ In size nameSizes.
Proof.
  intros input fl upper cleanName.
  eexists. split; [vm_compute; reflexivity|].
  split; [vm_compute; reflexivity|].
  split; [vm_compute; reflexivity|].
  assert (Hfit : nameFits Offline.env fl cleanName 40 = false) by (vm_compute; reflexivity).
  split; [exact Hfit|].
  edestruct (name_shrinks_to_fit Offline.env input mounted)
    as (_ & size & pre & post & Hops & Hin & _ & Hlt & _).
  { vm_compute. reflexivity. }
  exists size, pre, post. split; [exact Hops|]. split; [|exact Hin].
  apply Hlt. exact Hfit.
Defined.

(** C9. In a render that ends normally the texts of the certificate are
    exactly these, in this order; each is transliterated by [sanitizeText]
    when the fonts failed, the date and the certificate number apart.  The
    sixth is the impact paragraph, the only place of the impact text: it is
    the fixed default sentence when the message is empty or only whitespace,
    and the trimmed message, without the default sentence, otherwise; the
    paragraph is what [splitTextToSize] makes of that text.  The default
    sentence transliterates to the plain sentence given last. *)
Theorem impact_message_or_default :
  forall (env : Env) (input : CertificateInput) (w w' : World),
    generateCertificatePDF env input w = (Ok tt, w') ->
    let fl := fontsLoaded env w in
    let tr (text : jsstring) := if fl then text else sanitizeText text in
    let paragraph (size : Q) (text : jsstring) (margin : Q) :=
      splitTextToSize env (typeface fl) normal size (tr text) (pageWidth env - margin) in
    let message := trim (default [] (cd_impactMessage (data input))) in
    let sentence := js "Katkılarınız, araştırma sürecimizin niteliğini ve güvenilirliğini güçlendirmiştir." in
    let location := default [] (location (extras input)) in
    let certificateNo := default [] (certificateNo (extras input)) in
    let coordinatorName := default [] (coordinatorName (extras input)) in
    textsOf (d_ops (w_doc w'))
    = [ [tr (default (js "Tıpta Profesyonellik Bloğu") (institution (extras input)))];
        [tr (default (js "Bilimsel Araştırmalar ve Uygulamalar")
                     (departmentOrUnit (extras input)))];
        [tr (js "GÖNÜLLÜ KATILIM SERTİFİKASI")];
        paragraph 14 (js "Bu sertifika, yürütülen bilimsel çalışmalara gönüllü katılımı ve sunduğu değerli katkılar nedeniyle aşağıda adı yazılı katılımcıya takdim edilmiştir.") 90;
        [tr (toLocaleUpperCase_tr env (cd_name (data input)))];
        paragraph 12.5 (match message with [] => sentence | _ :: _ => message end) 100;
        paragraph 12.5 (js "Sayın katılımcımıza teşekkür eder, akademik ve mesleki yaşamında başarılarının devamını dileriz.") 90;
        [(if truthy location then tr location ++ js ", " else [])
         ++ tr (js "Düzenlenme Tarihi") ++ js ": " ++ cd_date (data input)] ]
      ++ (if truthy certificateNo
          then [[tr (js "Belge No") ++ js ": " ++ certificateNo]] else [])
      ++ [[tr (default (js "Koordinatör") (coordinatorTitle (extras input)))]]
      ++ (if truthy (trim coordinatorName) then [[tr coordinatorName]] else [])
    /\ sanitizeText sentence
       = js "Katkilariniz, arastirma surecimizin niteligini ve guvenilirligini guclendirmistir.".
Proof.
  intros env input w w' Hrun fl tr paragraph message sentence location certificateNo
    coordinatorName.
  split; [|vm_compute; reflexivity].
  pose proof (render_texts env input w) as H. cbv zeta in H.
  unfold wp_ok in H. rewrite Hrun in H. rewrite H. clear H Hrun.
  assert (E : forall m s : jsstring,
             (if (0 <? length m)%nat then m else s)
             = match m with [] => s | _ :: _ => m end)
    by (intros [|c m] s; reflexivity).
  rewrite E. clear E.
  unfold t, defaultImpact.
  subst fl tr paragraph message sentence location certificateNo coordinatorName.
  cbv beta. reflexivity.
Qed.

Lemma impact_message_or_default_witness :
  let blank := certificateFor (js "Ahmet Yılmaz") (js "01.01.2025") (Some (js "  ")) in
  let thanks :=
    certificateFor (js "Ahmet Yılmaz") (js "01.01.2025") (Some (js " Çok teşekkürler. ")) in
  exists w1 w2,
    generateCertificatePDF Offline.env blank mounted = (Ok tt, w1)
    /\ generateCertificatePDF Offline.env thanks mounted = (Ok tt, w2)
    /\ length (textsOf (d_ops (w_doc w1))) = 9%nat
    /\ nth 5 (textsOf (d_ops (w_doc w1))) []
       = [js "Katkilariniz, arastirma surecimizin niteligini ve guvenilirligini guclendirmistir."]
    /\ nth 5 (textsOf (d_ops (w_doc w2))) [] = [js "Cok tesekkurler."]
    /\ ~ In [js "Katkilariniz, arastirma surecimizin niteligini ve guvenilirligini guclendirmistir."]
            (textsOf (d_ops (w_doc w2))).
Proof.
  intros blank thanks.
  do 2 eexists. split; [vm_compute; reflexivity|]. split; [vm_compute; reflexivity|].
  edestruct (impact_message_or_default Offline.env blank mounted) as (H1 & _).
  { vm_compute. reflexivity. }
  edestruct (impact_message_or_default Offline.env thanks mounted) as (H2 & _).
  { vm_compute. reflexivity. }
  rewrite H1, H2. clear H1 H2.
  split; [vm_compute; reflexivity|]. split; [vm_compute; reflexivity|].
  split; [vm_compute; reflexivity|].
  vm_compute. intro H. repeat (destruct H as [H|H]; [discriminate H|]). exact H.
Defined.

(** C2 fails on the footer: with the fonts failed, the date and the
    certificate number are drawn as given, so their Turkish letters reach
    the document. *)
Lemma footer_fields_keep_diacritics :
  let input := numbered (certificateFor (js "Ahmet Yılmaz") (js "1 Şubat 2025") None)
                        (js "TPB-Ö1") in
  let w' := (generateCertificatePDF Offline.env input mounted).2 in
  fontsLoaded Offline.env mounted = false
  /\ In [js "Duzenlenme Tarihi: 1 Şubat 2025"] (textsOf (d_ops (w_doc w')))
  /\ In [js "Belge No: TPB-Ö1"] (textsOf (d_ops (w_doc w')))
  /\ existsb (existsb hasTurkishDiacritic) (textsOf (d_ops (w_doc w'))) = true.
Proof. vm_compute. tauto. Qed.

End DrawnTexts.
